(** * netlify_fix: the site-artifact synthesis pipeline of scripts/netlify_fix.py

    A shallow embedding of the script and the properties of its URL collector,
    recent-items reader, document renderers and override-rule emitter.

    Conventions of the embedding.
    - A Python [str] is a [string]; each character is a code point below 256.
    - File contents are bytes ([list byte]); text is written UTF-8 encoded.
    - The directory named by OUT_DIR is a [node]: a tree of files and
      directories without symbolic links.
    - The script's other inputs (the documentation directory, the state of
      data/daily.csv: absent, unreadable, or its rows, and the state of
      data/enriched.json) are read-only and collected in a [repo] record;
      the clock reading is an argument.
    - A function that can raise returns a [result]; the steps of [main] that
      write thread the output tree through the monad [M]. *)

From Stdlib Require Import List Bool Arith ZArith Lia.
From Stdlib.Strings Require Import String Ascii Byte.
From Stdlib Require Import Sorting.Sorted Sorting.Permutation.
Import ListNotations.

Set Warnings "-register-all".

Local Open Scope Z_scope.
Local Open Scope list_scope.
Local Open Scope string_scope.

(** ** Python strings *)

Module Str.

Definition code (c : ascii) : nat := nat_of_ascii c.

(** [str.isspace] on one character (code points below 256). *)
Definition isspace (c : ascii) : bool :=
  let n := code c in
  ((9 <=? n) && (n <=? 13) || (28 <=? n) && (n <=? 32)
   || (n =? 133) || (n =? 160))%nat.

(** [str.lower] on one character (code points below 256). *)
Definition lower_char (c : ascii) : ascii :=
  let n := code c in
  if ((65 <=? n) && (n <=? 90)
      || (192 <=? n) && (n <=? 222) && negb (n =? 215))%nat
  then ascii_of_nat (n + 32) else c.

Fixpoint lower (s : string) : string :=
  match s with
  | EmptyString => EmptyString
  | String c r => String (lower_char c) (lower r)
  end.

Definition startswith (s p : string) : bool := String.prefix p s.

Fixpoint rev_acc (s acc : string) : string :=
  match s with
  | EmptyString => acc
  | String c r => rev_acc r (String c acc)
  end.

Definition rev (s : string) : string := rev_acc s EmptyString.

Definition endswith (s p : string) : bool := String.prefix (rev p) (rev s).

Fixpoint lstrip_by (f : ascii -> bool) (s : string) : string :=
  match s with
  | EmptyString => EmptyString
  | String c r => if f c then lstrip_by f r else s
  end.

Definition rstrip_by (f : ascii -> bool) (s : string) : string :=
  rev (lstrip_by f (rev s)).

(** [s.strip()] *)
Definition strip (s : string) : string := rstrip_by isspace (lstrip_by isspace s).

(** [s.rstrip()] *)
Definition rstrip (s : string) : string := rstrip_by isspace s.

(** [s.rstrip("/")] *)
Definition rstrip_slash (s : string) : string :=
  rstrip_by (fun c => Ascii.eqb c "/") s.

(** [sep.join(l)] *)
Definition join (sep : string) (l : list string) : string := String.concat sep l.

Definition nonempty (s : string) : bool :=
  match s with EmptyString => false | _ => true end.

End Str.

(** ** Python built-ins used by the script *)

Module Py.

(** Insertion into a list ordered by code points. *)
Fixpoint insert (x : string) (l : list string) : list string :=
  match l with
  | [] => [x]
  | y :: r => if String.leb x y then x :: l else y :: insert x r
  end.

(** [sorted(l)] on strings. *)
Definition sorted (l : list string) : list string := fold_right insert [] l.

Definition mem (x : string) (l : list string) : bool := existsb (String.eqb x) l.

(** [pages.add(x)] on a [set[str]] kept as a duplicate-free list. *)
Definition set_add (s : list string) (x : string) : list string :=
  if mem x s then s else (s ++ [x])%list.

(** [l[-k:]] for a positive [k]. *)
Definition last_n {A} (k : nat) (l : list A) : list A := skipn (List.length l - k) l.

(** [l[-limit:]] as Python slices: [l[-0:]] is [l[0:]], and a negative
    [limit] makes the start index the positive [-limit]. *)
Definition slice_from_neg {A} (limit : Z) (l : list A) : list A :=
  if (limit =? 0)%Z then l
  else if (0 <? limit)%Z then last_n (Z.to_nat limit) l
  else skipn (Z.to_nat (- limit)) l.

End Py.

(** ** Exceptions and results *)

Inductive exn : Type :=
| FileExistsError
| IsADirectoryError
| NotADirectoryError
| AttributeError
| UnicodeDecodeError
| CsvError
| PermissionError
| SystemExit (msg : string).

Inductive result (A : Type) : Type :=
| Ok (a : A)
| Raise (e : exn).

Arguments Ok {A} a.
Arguments Raise {A} e.

Definition is_ok {A} (r : result A) : bool :=
  match r with Ok _ => true | Raise _ => false end.

(** ** The output tree *)

Inductive node : Type :=
| File (data : list byte)
| Dir (entries : list (string * node)).

Module Fs.

Fixpoint lookup (name : string) (es : list (string * node)) : option node :=
  match es with
  | [] => None
  | (n, c) :: r => if String.eqb n name then Some c else lookup name r
  end.

(** Replace the entry [name], or add it when the directory has none. *)
Fixpoint update (name : string) (c : node) (es : list (string * node))
  : list (string * node) :=
  match es with
  | [] => [(name, c)]
  | (n, c') :: r =>
    if String.eqb n name then (n, c) :: r else (n, c') :: update name c r
  end.

(** [out_dir / name] *)
Definition child (t : node) (name : string) : option node :=
  match t with
  | File _ => None
  | Dir es => lookup name es
  end.

(** [(out_dir / name).exists()] *)
Definition exists_ (t : node) (name : string) : bool :=
  match child t name with Some _ => true | None => false end.

Definition is_file (c : node) : bool :=
  match c with File _ => true | Dir _ => false end.

Definition is_dir (c : node) : bool := negb (is_file c).

(** [out_dir.iterdir()] *)
Definition iterdir (t : node) : result (list (string * node)) :=
  match t with
  | File _ => Raise NotADirectoryError
  | Dir es => Ok es
  end.

(** The glob pattern [*.html] on one name (case-sensitive). *)
Definition fnmatch_html (name : string) : bool := Str.endswith name ".html".

(** [out_dir.rglob("*.html")], each path relative to [out_dir] as its list
    of segments.  Files and directories both match. *)
Fixpoint rglob_html (t : node) : list (list string) :=
  match t with
  | File _ => []
  | Dir es =>
    (fix walk (l : list (string * node)) : list (list string) :=
       match l with
       | [] => []
       | (name, c) :: r =>
         ((if fnmatch_html name then [[name]] else [])
            ++ map (cons name) (rglob_html c) ++ walk r)%list
       end) es
  end.

(** [p.relative_to(out_dir).as_posix()] *)
Definition as_posix (p : list string) : string := Str.join "/" p.

(** The node at a relative path. *)
Fixpoint resolve (t : node) (p : list string) : option node :=
  match p with
  | [] => Some t
  | n :: r => match child t n with
              | Some c => resolve c r
              | None => None
              end
  end.

End Fs.

(** ** The monad of the writing steps: an output tree and an exception *)

Definition M (A : Type) : Type := node -> result A * node.

Definition ret {A} (a : A) : M A := fun t => (Ok a, t).

Definition bind {A B} (m : M A) (k : A -> M B) : M B :=
  fun t => match m t with
           | (Ok a, t') => k a t'
           | (Raise e, t') => (Raise e, t')
           end.

Definition get : M node := fun t => (Ok t, t).

Definition lift {A} (r : result A) : M A := fun t => (r, t).

Notation "x <- m ;; k" := (bind m (fun x => k))
  (at level 61, m at next level, right associativity).
Notation "m ;;; k" := (bind m (fun _ => k))
  (at level 61, right associativity).

Fixpoint for_each {A} (l : list A) (body : A -> M unit) : M unit :=
  match l with
  | [] => ret tt
  | x :: r => body x ;;; for_each r body
  end.

(** ** Text encoding *)

Definition utf8_char (c : ascii) : list byte :=
  let n := N_of_ascii c in
  if (n <? 128)%N then [byte_of_ascii c]
  else match Byte.of_N (192 + n / 64)%N, Byte.of_N (128 + n mod 64)%N with
       | Some b1, Some b2 => [b1; b2]
       | _, _ => []
       end.

Fixpoint utf8 (s : string) : list byte :=
  match s with
  | EmptyString => []
  | String c r => (utf8_char c ++ utf8 r)%list
  end.

(** ** xml.etree.ElementTree *)

Inductive Element : Type :=
| Elem (tag : string) (attrib : list (string * string)) (text : option string)
       (children : list Element).

Module Xml.

Definition tag (e : Element) : string := let 'Elem t _ _ _ := e in t.
Definition text (e : Element) : option string := let 'Elem _ _ x _ := e in x.
Definition children (e : Element) : list Element := let 'Elem _ _ _ k := e in k.

(** An element with text and no children: [SubElement(p, tag).text = s]. *)
Definition leaf (t s : string) : Element := Elem t [] (Some s) [].

(** The text of the first child with the given tag, [e.findtext(t)]. *)
Definition findtext (t : string) (e : Element) : option string :=
  match find (fun c => String.eqb (tag c) t) (children e) with
  | Some c => text c
  | None => None
  end.

Definition nl : string := String "010"%char EmptyString.
Definition dquote : string := String "034"%char EmptyString.

Definition escape_cdata_char (c : ascii) : string :=
  if Ascii.eqb c "&" then "&amp;"
  else if Ascii.eqb c "<" then "&lt;"
  else if Ascii.eqb c ">" then "&gt;"
  else String c EmptyString.

Fixpoint escape_cdata (s : string) : string :=
  match s with
  | EmptyString => EmptyString
  | String c r => escape_cdata_char c ++ escape_cdata r
  end.

Definition escape_attrib_char (c : ascii) : string :=
  if Ascii.eqb c "&" then "&amp;"
  else if Ascii.eqb c "<" then "&lt;"
  else if Ascii.eqb c ">" then "&gt;"
  else if Ascii.eqb c "034" then "&quot;"
  else if Ascii.eqb c "013" then "&#13;"
  else if Ascii.eqb c "010" then "&#10;"
  else if Ascii.eqb c "009" then "&#09;"
  else String c EmptyString.

Fixpoint escape_attrib (s : string) : string :=
  match s with
  | EmptyString => EmptyString
  | String c r => escape_attrib_char c ++ escape_attrib r
  end.

Definition serialize_attrib (kv : string * string) : string :=
  " " ++ fst kv ++ "=" ++ dquote ++ escape_attrib (snd kv) ++ dquote.

Definition text_or_empty (x : option string) : string :=
  match x with Some s => s | None => EmptyString end.

(** The XML serializer, with short empty elements. *)
Fixpoint serialize_xml (e : Element) : string :=
  match e with
  | Elem t attrib x kids =>
    let head := "<" ++ t ++ Str.join EmptyString (map serialize_attrib attrib) in
    let body :=
      (fix each (l : list Element) : string :=
         match l with
         | [] => EmptyString
         | k :: r => serialize_xml k ++ each r
         end) kids in
    if Str.nonempty (text_or_empty x) || negb (Nat.eqb (List.length kids) 0)
    then head ++ ">" ++ escape_cdata (text_or_empty x) ++ body ++ "</" ++ t ++ ">"
    else head ++ " />"
  end.

(** [ElementTree(e).write(path, encoding="utf-8", xml_declaration=True)],
    the bytes written. *)
Definition document (e : Element) : list byte :=
  utf8 ("<?xml version='1.0' encoding='utf-8'?>" ++ nl ++ serialize_xml e).

End Xml.

(** ** datetime *)

Record datetime : Type := {
  year : Z; month : Z; day : Z;
  hour : Z; minute : Z; second : Z
}.

Module Dt.

Definition digit (n : Z) : string :=
  String (ascii_of_nat (48 + Z.to_nat (n mod 10))) EmptyString.

(** [%02d] and [%04d] on the ranges of datetime fields. *)
Definition pad2 (n : Z) : string := digit (n / 10) ++ digit n.
Definition pad4 (n : Z) : string :=
  digit (n / 1000) ++ digit (n / 100) ++ digit (n / 10) ++ digit n.

(** [now_utc.date().isoformat()] *)
Definition date_isoformat (d : datetime) : string :=
  pad4 (year d) ++ "-" ++ pad2 (month d) ++ "-" ++ pad2 (day d).

Definition is_leap (y : Z) : bool :=
  ((y mod 4 =? 0) && (negb (y mod 100 =? 0) || (y mod 400 =? 0)))%Z.

Definition days_before_year (y : Z) : Z :=
  let p := y - 1 in p * 365 + p / 4 - p / 100 + p / 400.

Definition days_before_month (y m : Z) : Z :=
  nth (Z.to_nat m) [-1; 0; 31; 59; 90; 120; 151; 181; 212; 243; 273; 304; 334] 0
  + (if (2 <? m)%Z && is_leap y then 1 else 0).

Definition toordinal (d : datetime) : Z :=
  days_before_year (year d) + days_before_month (year d) (month d) + day d.

(** Monday is 0. *)
Definition weekday (d : datetime) : Z := (toordinal d + 6) mod 7.

Definition day_name (n : Z) : string :=
  nth (Z.to_nat n) ["Mon"; "Tue"; "Wed"; "Thu"; "Fri"; "Sat"; "Sun"] EmptyString.

Definition month_name (m : Z) : string :=
  nth (Z.to_nat (m - 1))
      ["Jan"; "Feb"; "Mar"; "Apr"; "May"; "Jun";
       "Jul"; "Aug"; "Sep"; "Oct"; "Nov"; "Dec"] EmptyString.

(** [email.utils.format_datetime] of an aware UTC datetime. *)
Definition format_datetime (d : datetime) : string :=
  day_name (weekday d) ++ ", " ++ pad2 (day d) ++ " " ++ month_name (month d)
  ++ " " ++ pad4 (year d) ++ " " ++ pad2 (hour d) ++ ":" ++ pad2 (minute d)
  ++ ":" ++ pad2 (second d) ++ " +0000".

End Dt.

Definition sample_now : datetime :=
  {| year := 2026; month := 11; day := 4; hour := 7; minute := 26; second := 0 |}.

(** ** JSON values, as [json.loads] returns them *)

Inductive json : Type :=
| JNull
| JBool (b : bool)
| JNum (n : Z)
| JStr (s : string)
| JList (l : list json)
| JDict (d : list (string * json)).

Module Js.

(** Python truthiness. *)
Definition truthy (v : json) : bool :=
  match v with
  | JNull => false
  | JBool b => b
  | JNum n => negb (n =? 0)%Z
  | JStr s => Str.nonempty s
  | JList l => negb (Nat.eqb (List.length l) 0)
  | JDict d => negb (Nat.eqb (List.length d) 0)
  end.

(** [a or b] *)
Definition or_ (a b : json) : json := if truthy a then a else b.

Definition isinstance_dict (v : json) : bool :=
  match v with JDict _ => true | _ => false end.

Fixpoint lookup (k : string) (d : list (string * json)) : option json :=
  match d with
  | [] => None
  | (k', v) :: r => if String.eqb k' k then Some v else lookup k r
  end.

(** [v.get(k, default)]; only a dict has the method. *)
Definition get (v : json) (k : string) (default : json) : result json :=
  match v with
  | JDict d => Ok (match lookup k d with Some x => x | None => default end)
  | _ => Raise AttributeError
  end.

(** [v.strip()]; only a str has the method. *)
Definition strip (v : json) : result string :=
  match v with
  | JStr s => Ok (Str.strip s)
  | _ => Raise AttributeError
  end.

End Js.

Definition rbind {A B} (r : result A) (k : A -> result B) : result B :=
  match r with
  | Ok a => k a
  | Raise e => Raise e
  end.

Notation "x <~ r ;; k" := (rbind r (fun x => k))
  (at level 61, r at next level, right associativity).

(** ** The inputs next to the script *)

Inductive enriched_file : Type :=
| Missing                (* data/enriched.json does not exist *)
| Unparsable             (* reading or json.loads raises *)
| Parsed (j : json).

(** data/daily.csv: absent; present but opening, decoding or parsing it
    raises (a directory, bytes that are not UTF-8, a field the csv module
    rejects); or present with the rows [list(csv.reader(f))] returns. *)
Inductive log_file : Type :=
| NoLog
| BadLog (e : exn)
| Log (rows : list (list string)).

Record repo : Type := {
  docs : option node;                       (* repo_root / "docs" *)
  daily_csv : log_file;
  enriched_json : enriched_file
}.

(** ** The script *)

(** [INDEXNOW_KEY_RE.match(fn)] for [^[a-f0-9]{32}\.txt$] with [re.I]:
    thirty-two hexadecimal digits of either case, a dot, the letters t, x, t
    of either case, and then the end of the string or one final newline. *)
Definition is_hex (c : ascii) : bool :=
  let n := Str.code c in
  ((48 <=? n) && (n <=? 57) || (97 <=? n) && (n <=? 102)
   || (65 <=? n) && (n <=? 70))%nat.

Fixpoint match_hex (k : nat) (s : string) : option string :=
  match k with
  | O => Some s
  | S k' => match s with
            | String c r => if is_hex c then match_hex k' r else None
            | EmptyString => None
            end
  end.

Definition INDEXNOW_KEY_RE_match (fn : string) : bool :=
  match match_hex 32 fn with
  | Some (String c1 (String c2 (String c3 (String c4 rest)))) =>
    Ascii.eqb c1 "." && Ascii.eqb (Str.lower_char c2) "t"
    && Ascii.eqb (Str.lower_char c3) "x" && Ascii.eqb (Str.lower_char c4) "t"
    && (String.eqb rest EmptyString || String.eqb rest Xml.nl)
  | _ => false
  end.

Definition _norm_base_url (u : string) : string :=
  let u := Str.strip u in
  if negb (Str.nonempty u) then u
  else Str.rstrip_slash u.

(** [path.parent.mkdir(parents=True, exist_ok=True)] followed by opening
    [path] for writing, for a [path] directly under the output directory. *)
Definition write_file (name : string) (data : list byte) : M unit :=
  fun t =>
    match t with
    | File _ => (Raise FileExistsError, t)
    | Dir es =>
      match Fs.lookup name es with
      | Some (Dir _) => (Raise IsADirectoryError, t)
      | _ => (Ok tt, Dir (Fs.update name (File data) es))
      end
    end.

Definition _write_text (name : string) (text : string) : M unit :=
  write_file name (utf8 text).

Definition _copy_if_missing (src : node) (name : string) : M unit :=
  t <- get ;;
  if Fs.exists_ t name then ret tt
  else match src with
       | File data => write_file name data
       | Dir _ =>
         fun t => match t with
                  | File _ => (Raise FileExistsError, t)
                  | Dir _ => (Raise IsADirectoryError, t)
                  end
       end.

Definition _collect_internal_pages (out_dir : node) (base_url : string)
  : list string :=
  let pages : list string := [] in
  let pages :=
    if Fs.exists_ out_dir "index.html" then Py.set_add pages (base_url ++ "/")
    else pages in
  let pages :=
    fold_left
      (fun pages p =>
         let rel := Fs.as_posix p in
         if String.eqb rel "index.html" then pages
         else Py.set_add pages (base_url ++ "/" ++ rel))
      (Fs.rglob_html out_dir) pages in
  let pages :=
    fold_left
      (fun pages name =>
         if Fs.exists_ out_dir name
         then Py.set_add pages (base_url ++ "/" ++ name)
         else pages)
      ["all.html"; "about.html"; "rss.xml"; "sitemap.xml"; "robots.txt";
       "backlink-feed.xml"] pages in
  Py.sorted pages.

Definition robots_text (base_url : string) : string :=
  Str.join Xml.nl
    ["User-agent: *"; "Allow: /"; "Sitemap: " ++ base_url ++ "/sitemap.xml";
     EmptyString].

Definition _ensure_robots (base_url : string) : M unit :=
  _write_text "robots.txt" (robots_text base_url).

Definition sitemap_element (out_dir : node) (base_url : string) (now_utc : datetime)
  : Element :=
  let urls := _collect_internal_pages out_dir base_url in
  let lastmod := Dt.date_isoformat now_utc in
  let entries :=
    fold_left
      (fun kids loc =>
         (kids ++ [Elem "url" [] None
                        [Xml.leaf "loc" loc; Xml.leaf "lastmod" lastmod]])%list)
      urls [] in
  Elem "urlset" [("xmlns", "http://www.sitemaps.org/schemas/sitemap/0.9")] None
       entries.

Definition _ensure_sitemap (base_url : string) (now_utc : datetime) : M unit :=
  out_dir <- get ;;
  write_file "sitemap.xml" (Xml.document (sitemap_element out_dir base_url now_utc)).

Definition _read_recent_urls (rp : repo) (limit : Z) : result (list string) :=
  match daily_csv rp with
  | NoLog => Ok []
  | BadLog e => Raise e
  | Log rows =>
    let urls :=
      fold_left
        (fun urls row =>
           match row with
           | [] => urls
           | c :: _ =>
             let u := Str.strip c in
             if Str.startswith u "http://" || Str.startswith u "https://"
             then (urls ++ [u])%list else urls
           end)
        (tl rows) [] in
    Ok (if (limit <? Z.of_nat (List.length urls))%Z
        then Py.slice_from_neg limit urls
        else urls)
  end.

Definition _load_enriched (rp : repo) : json :=
  match enriched_json rp with
  | Missing => JDict []
  | Unparsable => JDict []
  | Parsed j => j
  end.

(** One iteration of the item loop of [_ensure_rss]. *)
Definition feed_item (enriched : json) (now_utc : datetime) (u : string)
  : result Element :=
  meta <~ (if Js.isinstance_dict enriched then Js.get enriched u (JDict [])
           else Ok (JDict [])) ;;
  t <~ Js.get meta "title" JNull ;;
  t <~ Js.strip (Js.or_ t (JStr EmptyString)) ;;
  let title := if Str.nonempty t then t else u in
  s <~ Js.get meta "summary" JNull ;;
  d <~ (if Js.truthy s then Ok s
        else (d <~ Js.get meta "description" JNull ;;
              Ok (Js.or_ d (JStr EmptyString)))) ;;
  d <~ Js.strip d ;;
  let desc := if Str.nonempty d then d else u in
  Ok (Elem "item" [] None
           [Xml.leaf "title" title; Xml.leaf "link" u; Xml.leaf "guid" u;
            Xml.leaf "description" desc;
            Xml.leaf "pubDate" (Dt.format_datetime now_utc)]).

Fixpoint feed_loop (enriched : json) (now_utc : datetime) (us : list string)
         (channel : list Element) : result (list Element) :=
  match us with
  | [] => Ok channel
  | u :: r =>
    item <~ feed_item enriched now_utc u ;;
    feed_loop enriched now_utc r (channel ++ [item])%list
  end.

Definition rss_element (rp : repo) (base_url : string) (now_utc : datetime)
  : result Element :=
  urls <~ _read_recent_urls rp 50 ;;
  enriched <~ (if Js.isinstance_dict (_load_enriched rp)
               then Js.get (_load_enriched rp) "items" (JDict [])
               else Ok (JDict [])) ;;
  let channel :=
    [Xml.leaf "title" "Discovery Hub"; Xml.leaf "link" (base_url ++ "/");
     Xml.leaf "description" "Recently added links";
     Xml.leaf "lastBuildDate" (Dt.format_datetime now_utc)] in
  channel <~ feed_loop enriched now_utc (rev urls) channel ;;
  Ok (Elem "rss" [("version", "2.0")] None [Elem "channel" [] None channel]).

Definition _ensure_rss (rp : repo) (base_url : string) (now_utc : datetime)
  : M unit :=
  rss <- lift (rss_element rp base_url now_utc) ;;
  write_file "rss.xml" (Xml.document rss).

Definition must_files : list string :=
  ["robots.txt"; "sitemap.xml"; "rss.xml"; "backlink-feed.xml"; "index.html";
   "all.html"; "about.html"].

(** The line [f"/{fn} /{fn} 200"]. *)
Definition rule (fn : string) : string := "/" ++ fn ++ " /" ++ fn ++ " 200".

Definition is_google_html (fn : string) : bool :=
  Str.startswith (Str.lower fn) "google" && Str.endswith (Str.lower fn) ".html".

Definition file_names (es : list (string * node)) : list string :=
  map fst (filter (fun e => Fs.is_file (snd e)) es).

Definition redirects_lines (out_dir : node) : result (list string) :=
  let redirects_lines : list string := [] in
  let redirects_lines :=
    fold_left
      (fun lines fn =>
         if Fs.exists_ out_dir fn then (lines ++ [rule fn])%list else lines)
      must_files redirects_lines in
  let redirects_lines :=
    if Fs.exists_ out_dir "d"
    then (redirects_lines ++ ["/d/* /d/:splat 200"])%list
    else redirects_lines in
  es <~ Fs.iterdir out_dir ;;
  Ok (fold_left
        (fun lines fn =>
           let lines :=
             if is_google_html fn then (lines ++ [rule fn])%list else lines in
           if INDEXNOW_KEY_RE_match fn then (lines ++ [rule fn])%list else lines)
        (Py.sorted (file_names es)) redirects_lines).

Definition headers_lines : list string :=
  let add_header (headers : list string) (path content_type : string) :=
    (headers ++ [path; ("  Content-Type: " ++ content_type)%string;
                 EmptyString])%list in
  let headers := [] in
  let headers := add_header headers "/sitemap.xml" "application/xml; charset=utf-8" in
  let headers := add_header headers "/rss.xml" "application/rss+xml; charset=utf-8" in
  let headers :=
    add_header headers "/backlink-feed.xml" "application/xml; charset=utf-8" in
  let headers := add_header headers "/robots.txt" "text/plain; charset=utf-8" in
  headers.

Definition _ensure_netlify_overrides : M unit :=
  out_dir <- get ;;
  lines <- lift (redirects_lines out_dir) ;;
  _write_text "_redirects" (Str.join Xml.nl lines ++ Xml.nl) ;;;
  _write_text "_headers" (Str.rstrip (Str.join Xml.nl headers_lines) ++ Xml.nl).

Definition glob_google_html (name : string) : bool :=
  Str.startswith name "google" && Str.endswith name ".html".

Definition glob_txt (name : string) : bool := Str.endswith name ".txt".

Definition _copy_root_tokens (rp : repo) : M unit :=
  match docs rp with
  | None => ret tt
  | Some (File _) => ret tt
  | Some (Dir es) =>
    for_each (filter (fun e => glob_google_html (fst e)) es)
             (fun e => _copy_if_missing (snd e) (fst e)) ;;;
    for_each (filter (fun e => glob_txt (fst e)) es)
             (fun e => if INDEXNOW_KEY_RE_match (fst e)
                       then _copy_if_missing (snd e) (fst e)
                       else ret tt)
  end.

Section Main.

(** [str(Path(s).resolve())]: the absolute form of a path. *)
Variable resolve : string -> string.

(** The five steps of [main] once the arguments are accepted. *)
Definition pipeline (rp : repo) (base_url : string) (now_utc : datetime)
  : M unit :=
  _copy_root_tokens rp ;;;
  _ensure_robots base_url ;;;
  _ensure_rss rp base_url now_utc ;;;
  _ensure_sitemap base_url now_utc ;;;
  _ensure_netlify_overrides.

(** [main()]: [argv] is [sys.argv], [out] is what the file system holds at
    the resolved OUT_DIR ([None]: nothing), [now_utc] the clock reading.
    The result is what is printed, or the exception, and the final state of
    OUT_DIR. *)
Definition main (argv : list string) (out : option node) (rp : repo)
           (now_utc : datetime) : result string * option node :=
  if (List.length argv <? 3)%nat
  then (Raise (SystemExit
                 "Usage: python scripts/netlify_fix.py <OUT_DIR> <BASE_URL>"),
        out)
  else
    let out_dir := resolve (nth 1 argv EmptyString) in
    let base_url := _norm_base_url (nth 2 argv EmptyString) in
    match out with
    | None => (Raise (SystemExit ("OUT_DIR not found: " ++ out_dir)), out)
    | Some t =>
      if negb (Str.startswith base_url "http")
      then (Raise (SystemExit "BASE_URL must start with http(s)"), out)
      else
        match pipeline rp base_url now_utc t with
        | (Ok _, t') => (Ok ("Netlify fix done: " ++ out_dir), Some t')
        | (Raise e, t') => (Raise e, Some t')
        end
    end.

(** The exit status of the process. *)
Definition exit_status {A} (r : result A) : Z :=
  match r with
  | Ok _ => 0
  | Raise _ => 1
  end.

End Main.

(** ** Vocabulary of the properties *)

(** Strictly before, in code-point order. *)
Definition str_lt (a b : string) : Prop := String.ltb a b = true.

(** The names the collector probes at the root. *)
Definition allow_list : list string :=
  ["all.html"; "about.html"; "rss.xml"; "sitemap.xml"; "robots.txt";
   "backlink-feed.xml"].

(** The set of pages before it is sorted. *)
Definition pages_set (out_dir : node) (base_url : string) : list string :=
  fold_left
    (fun pages name =>
       if Fs.exists_ out_dir name
       then Py.set_add pages (base_url ++ "/" ++ name) else pages)
    allow_list
    (fold_left
       (fun pages p =>
          if negb (String.eqb (Fs.as_posix p) "index.html")
          then Py.set_add pages (base_url ++ "/" ++ Fs.as_posix p) else pages)
       (Fs.rglob_html out_dir)
       (if Fs.exists_ out_dir "index.html"
        then Py.set_add [] (base_url ++ "/") else [])).

(** [name] can be written: the output path is a directory and [name] is not
    a directory in it. *)
Definition writable (t : node) (name : string) : bool :=
  match t with
  | File _ => false
  | Dir es => match Fs.lookup name es with
              | Some (Dir _) => false
              | _ => true
              end
  end.

(** One [url] entry of the sitemap. *)
Definition url_entry (lastmod loc : string) : Element :=
  Elem "url" [] None [Xml.leaf "loc" loc; Xml.leaf "lastmod" lastmod].

(** A small site: a home page, an about page and one daily page. *)
Definition sample_tree : node :=
  Dir [("index.html", File []);
       ("d", Dir [("2026-11-04.html", File [])]);
       ("about.html", File [])].

(** The value a data row contributes: its first column, trimmed, when that
    begins with [http://] or [https://]. *)
Definition row_url (row : list string) : option string :=
  match row with
  | [] => None
  | c :: _ =>
    if Str.startswith (Str.strip c) "http://"
       || Str.startswith (Str.strip c) "https://"
    then Some (Str.strip c) else None
  end.

(** All the values of the data rows, oldest first. *)
Fixpoint logged_urls (rows : list (list string)) : list string :=
  match rows with
  | [] => []
  | row :: r => match row_url row with
                | Some u => u :: logged_urls r
                | None => logged_urls r
                end
  end.

(** A repository that holds only the log. *)
Definition log_of (rows : list (list string)) : repo :=
  {| docs := None; daily_csv := Log rows; enriched_json := Missing |}.

(** The list the reader returns, when it returns. *)
Definition recent_urls (rp : repo) (limit : Z) : list string :=
  match _read_recent_urls rp limit with
  | Ok urls => urls
  | Raise _ => []
  end.

(** The value of [enriched] in [_ensure_rss]: the [items] of the index. *)
Definition items_index (rp : repo) : json :=
  match _load_enriched rp with
  | JDict d => match Js.lookup "items" d with Some v => v | None => JDict [] end
  | _ => JDict []
  end.

(** The record of a URL: [meta] in the item loop. *)
Definition record_of (enriched : json) (u : string) : json :=
  match enriched with
  | JDict d => match Js.lookup u d with Some m => m | None => JDict [] end
  | _ => JDict []
  end.

(** The field [k] of a record, when the record is a dict that has it. *)
Definition field (meta : json) (k : string) : option json :=
  match meta with
  | JDict d => Js.lookup k d
  | _ => None
  end.

(** A usable text: a string that is not blank, trimmed. *)
Definition usable (v : option json) : option string :=
  match v with
  | Some (JStr s) => if Str.nonempty (Str.strip s) then Some (Str.strip s) else None
  | _ => None
  end.

Definition falsy (v : option json) : bool :=
  match v with
  | Some x => negb (Js.truthy x)
  | None => true
  end.

(** The title the enrichment index offers for a URL, if any. *)
Definition enrichment_title (enriched : json) (u : string) : option string :=
  usable (field (record_of enriched u) "title").

(** The description it offers: the summary, or the description when the
    record has no summary. *)
Definition enrichment_desc (enriched : json) (u : string) : option string :=
  if falsy (field (record_of enriched u) "summary")
  then usable (field (record_of enriched u) "description")
  else usable (field (record_of enriched u) "summary").

Definition or_url (x : option string) (u : string) : string :=
  match x with Some t => t | None => u end.

(** A record the loop can process: a dict whose three fields, where present
    and truthy, are strings. *)
Definition field_ok (meta : json) (k : string) : bool :=
  match field meta k with
  | Some (JStr _) => true
  | v => falsy v
  end.

Definition record_ok (meta : json) : bool :=
  Js.isinstance_dict meta
  && field_ok meta "title" && field_ok meta "summary" && field_ok meta "description".

Definition item_element (title u desc : string) (now_utc : datetime) : Element :=
  Elem "item" [] None
       [Xml.leaf "title" title; Xml.leaf "link" u; Xml.leaf "guid" u;
        Xml.leaf "description" desc;
        Xml.leaf "pubDate" (Dt.format_datetime now_utc)].

(** The items of a feed document, in document order. *)
Definition feed_items (doc : Element) : list Element :=
  filter (fun e => String.eqb (Xml.tag e) "item")
         (flat_map Xml.children (Xml.children doc)).

Definition channel_head (base_url : string) (now_utc : datetime) : list Element :=
  [Xml.leaf "title" "Discovery Hub"; Xml.leaf "link" (base_url ++ "/");
   Xml.leaf "description" "Recently added links";
   Xml.leaf "lastBuildDate" (Dt.format_datetime now_utc)].

(** The item the loop builds for a URL when it does not raise. *)
Definition item_for (now_utc : datetime) (enriched : json) (u : string) : Element :=
  item_element (or_url (enrichment_title enriched u) u) u
               (or_url (enrichment_desc enriched u) u) now_utc.

Definition rss_of (now_utc : datetime) (rp : repo) (base_url : string) : Element :=
  Elem "rss" [("version", "2.0")] None
       [Elem "channel" [] None
             (channel_head base_url now_utc
              ++ map (item_for now_utc (items_index rp)) (rev (recent_urls rp 50)))%list].

Definition example_log : list (list string) :=
  [["url"; "added"]; ["https://x/a"; "1"]; ["https://x/b"; "2"]; ["https://x/c"; "3"]].

Definition example_enrichment : json :=
  JDict [("items", JDict [("https://x/b", JDict [("title", JStr "B title")])])].

Definition example_repo : repo :=
  {| docs := None; daily_csv := Log example_log;
     enriched_json := Parsed example_enrichment |}.

Definition title_and_link (it : Element) : option string * option string :=
  (Xml.findtext "title" it, Xml.findtext "link" it).

Fixpoint walk_html (es : list (string * node)) : list (list string) :=
  match es with
  | [] => []
  | (name, c) :: r =>
    ((if Fs.fnmatch_html name then [[name]] else [])
       ++ map (cons name) (Fs.rglob_html c) ++ walk_html r)%list
  end.

(** Every name that exists in [t] exists in [t']. *)
Definition grows (t t' : node) : Prop :=
  forall n, Fs.exists_ t n = true -> Fs.exists_ t' n = true.

(** Every name that can be written in [t] can be written in [t']. *)
Definition stays_writable (t t' : node) : Prop :=
  forall n, writable t n = true -> writable t' n = true.

(** The entries of the documentation directory that the copier handles. *)
Definition token_entries (rp : repo) : list (string * node) :=
  match docs rp with
  | Some (Dir es) =>
    (filter (fun e => glob_google_html (fst e)) es
       ++ filter (fun e => INDEXNOW_KEY_RE_match (fst e))
                 (filter (fun e => glob_txt (fst e)) es))%list
  | _ => []
  end.

(** The two loops of [_copy_root_tokens] run one body over the entries. *)
Definition copy_entry (e : string * node) : M unit :=
  _copy_if_missing (snd e) (fst e).

Definition redirects_text (lines : list string) : string :=
  Str.join Xml.nl lines ++ Xml.nl.

Definition headers_text : string :=
  Str.rstrip (Str.join Xml.nl headers_lines) ++ Xml.nl.

(** The states of the output tree between the steps of a successful run:
    after the token copy, the robots file, the feed, the sitemap, the
    rewrite rules, and the header rules. *)
Record run_trace : Type := {
  after_tokens : node;
  after_robots : node;
  after_rss : node;
  after_sitemap : node;
  after_redirects : node;
  rule_lines : list string
}.

Definition run_steps (rp : repo) (base_url : string) (now_utc : datetime)
           (t t' : node) (r : run_trace) : Prop :=
  _copy_root_tokens rp t = (Ok tt, after_tokens r)
  /\ write_file "robots.txt" (utf8 (robots_text base_url)) (after_tokens r)
     = (Ok tt, after_robots r)
  /\ rss_element rp base_url now_utc = Ok (rss_of now_utc rp base_url)
  /\ write_file "rss.xml" (Xml.document (rss_of now_utc rp base_url)) (after_robots r)
     = (Ok tt, after_rss r)
  /\ write_file "sitemap.xml"
                (Xml.document (sitemap_element (after_rss r) base_url now_utc))
                (after_rss r)
     = (Ok tt, after_sitemap r)
  /\ redirects_lines (after_sitemap r) = Ok (rule_lines r)
  /\ write_file "_redirects" (utf8 (redirects_text (rule_lines r))) (after_sitemap r)
     = (Ok tt, after_redirects r)
  /\ write_file "_headers" (utf8 headers_text) (after_redirects r) = (Ok tt, t').

Definition targets : list string :=
  ["robots.txt"; "rss.xml"; "sitemap.xml"; "_redirects"; "_headers"].

(** The five generated files can be written and the token entries of the
    documentation directory are regular files. *)
Definition run_ready (rp : repo) (t : node) : bool :=
  forallb (writable t) targets
  && forallb (fun e => Fs.is_file (snd e)) (token_entries rp).

Definition absent_repo : repo :=
  {| docs := None; daily_csv := Log example_log; enriched_json := Unparsable |}.

Definition has_slash (s : string) : bool :=
  existsb (Ascii.eqb "/") (list_ascii_of_string s).

Definition token_repo : repo :=
  {| docs := Some (Dir [("google1234.html", File []); ("README.md", File [])]);
     daily_csv := NoLog; enriched_json := Missing |}.

Definition chars (s : string) : list ascii := list_ascii_of_string s.

(** Before or equal, in code-point order. *)
Definition str_le (a b : string) : Prop := String.leb a b = true.

Definition daily_rule : string := "/d/* /d/:splat 200".

(** A top-level file name that gets a verification or key rule. *)
Definition is_token_name (fn : string) : bool :=
  is_google_html fn || INDEXNOW_KEY_RE_match fn.

Definition root_file_names (t : node) : list string :=
  match t with
  | File _ => []
  | Dir es => file_names es
  end.

Definition must_part (t : node) : list string :=
  map rule (filter (Fs.exists_ t) must_files).

Definition daily_part (t : node) : list string :=
  if Fs.exists_ t "d" then [daily_rule] else [].

Definition token_part (t : node) : list string :=
  map rule (filter is_token_name (Py.sorted (root_file_names t))).

Definition rules_tree : node :=
  Dir [("index.html", File []); ("robots.txt", File []);
       ("notakey.txt", File []);
       ("googleXYZ.html", File []);
       ("a1b2c3d4e5f6a7b8c9d0e1f2a3b4c5d6.txt", File []);
       ("Google123.html", File []);
       ("d", Dir [("2026-11-04.html", File [])])].

Definition usage_message : string :=
  "Usage: python scripts/netlify_fix.py <OUT_DIR> <BASE_URL>".

(** The three usage errors: too few arguments, nothing at OUT_DIR, a base
    URL that does not begin with [http] once normalised. *)
Definition usage_error (argv : list string) (out : option node) : Prop :=
  (List.length argv < 3)%nat
  \/ out = None
  \/ Str.startswith (_norm_base_url (nth 2 argv EmptyString)) "http" = false.

Definition bare_tree : node := Dir [("index.html", File [])].

Definition bare_repo : repo :=
  {| docs := None; daily_csv := NoLog; enriched_json := Missing |}.

Definition bare_argv : list string := ["netlify_fix.py"; "site"; "https://x.org"].

Definition first_run : result string * option node :=
  main (fun p => p) bare_argv (Some bare_tree) bare_repo sample_now.

Definition second_run : result string * option node :=
  main (fun p => p) bare_argv (snd first_run) bare_repo sample_now.

Definition sitemap_of (out : option node) : option node :=
  match out with
  | Some t => Fs.child t "sitemap.xml"
  | None => None
  end.

Definition file_size (f : option node) : nat :=
  match f with
  | Some (File data) => List.length data
  | _ => 0%nat
  end.

(** The tree the sitemap step reads in the first run, and in the second. *)
Definition first_seen : node :=
  Dir [("index.html", File []);
       ("robots.txt", File (utf8 (robots_text "https://x.org")));
       ("rss.xml", File (Xml.document (rss_of sample_now bare_repo "https://x.org")))].

Definition second_seen : node :=
  match snd first_run with
  | Some t => t
  | None => File []
  end.

Definition seeded_tree : node :=
  Dir [("index.html", File []); ("sitemap.xml", File [])].

(** The sitemap document of a list of URLs and a date. *)
Definition urlset (lastmod : string) (urls : list string) : Element :=
  Elem "urlset" [("xmlns", "http://www.sitemaps.org/schemas/sitemap/0.9")] None
       (map (url_entry lastmod) urls).

(** The timestamp fields of the generated documents. *)
Definition is_time_tag (t : string) : bool :=
  String.eqb t "lastBuildDate" || String.eqb t "pubDate" || String.eqb t "lastmod".

(** A document with its timestamp fields blanked. *)
Fixpoint untimed (e : Element) : Element :=
  match e with
  | Elem t attrib x kids =>
    Elem t attrib (if is_time_tag t then None else x) (map untimed kids)
  end.

(** The steps of [main] before the sitemap step, and before the emitter. *)
Definition before_sitemap (rp : repo) (base_url : string) (now_utc : datetime)
  : M unit :=
  _copy_root_tokens rp ;;;
  _ensure_robots base_url ;;;
  _ensure_rss rp base_url now_utc.

Definition rendering (rp : repo) (base_url : string) (now_utc : datetime)
  : M unit :=
  before_sitemap rp base_url now_utc ;;;
  _ensure_sitemap base_url now_utc.

(** ** Vocabulary of the further properties *)

(** Every character of [s] passes [f]. *)
Definition all_chars (f : ascii -> bool) (s : string) : bool :=
  forallb f (list_ascii_of_string s).

Definition is_slash (c : ascii) : bool := Ascii.eqb c "/".

(** The names a run generates. *)
Definition is_generated (n : string) : bool := Py.mem n targets.

(** The names of the token entries of the documentation directory. *)
Definition is_copied (rp : repo) (n : string) : bool :=
  Py.mem n (map fst (token_entries rp)).

(** Outside the names that pass [S], [t'] has the entries of [t]. *)
Definition only_changes (S : string -> bool) (t t' : node) : Prop :=
  forall n, S n = false -> Fs.child t' n = Fs.child t n.

(** A step that touches only names that pass [S], whatever its outcome. *)
Definition touches_only {A} (S : string -> bool) (m : M A) : Prop :=
  forall t r t', m t = (r, t') -> only_changes S t t'.

(** Every entry of [t] is an entry of [t'], unchanged. *)
Definition keeps_entries (t t' : node) : Prop :=
  forall n c, Fs.child t n = Some c -> Fs.child t' n = Some c.

(** A value the item loop can trim: a string, or anything falsy. *)
Definition text_ok (v : json) : bool :=
  match v with
  | JStr _ => true
  | _ => negb (Js.truthy v)
  end.

(** [meta.get(k)]: the field, or [None]. *)
Definition field_or_null (meta : json) (k : string) : json :=
  match field meta k with
  | Some v => v
  | None => JNull
  end.

(** The records on which one iteration of the item loop does not raise: a
    dict whose title can be trimmed and whose summary, or description when
    the summary is falsy, can be trimmed. *)
Definition item_ok (meta : json) : bool :=
  match meta with
  | JDict _ =>
    text_ok (field_or_null meta "title")
    && (if Js.truthy (field_or_null meta "summary")
        then text_ok (field_or_null meta "summary")
        else text_ok (field_or_null meta "description"))
  | _ => false
  end.

(** The child of the channel with the given tag, as text. *)
Definition channel_text (tag : string) (doc : Element) : option string :=
  match Xml.children doc with
  | ch :: _ => Xml.findtext tag ch
  | [] => None
  end.

(** The log a, b, c with an index whose record for b is [null]:
    [{"items": {"https://x/b": null}}]. *)
Definition null_record_repo : repo :=
  {| docs := None; daily_csv := Log example_log;
     enriched_json := Parsed (JDict [("items", JDict [("https://x/b", JNull)])]) |}.

(** A repository whose index gives one URL a number as title. *)
Definition broken_repo : repo :=
  {| docs := None; daily_csv := Log example_log;
     enriched_json :=
       Parsed (JDict [("items", JDict [("https://x/b", JDict [("title", JNum 7)])])]) |}.

(** * Properties *)

(** ** The built-ins on sample values *)

Example strip_ex : Str.strip "  https://x/a	 " = "https://x/a".
Proof. reflexivity. Qed.

Example rstrip_slash_ex : Str.rstrip_slash "https://x.org//" = "https://x.org".
Proof. reflexivity. Qed.

Example endswith_ex : Str.endswith "a/b.html" ".html" = true.
Proof. reflexivity. Qed.

Example lower_ex : Str.lower "GooGLE1.Html" = "google1.html".
Proof. reflexivity. Qed.

Example sorted_ex : Py.sorted ["b"; "a/"; "a"; "B"] = ["B"; "a"; "a/"; "b"].
Proof. reflexivity. Qed.

Example date_isoformat_ex : Dt.date_isoformat sample_now = "2026-11-04".
Proof. reflexivity. Qed.

Example format_datetime_ex :
  Dt.format_datetime sample_now = "Wed, 04 Nov 2026 07:26:00 +0000".
Proof. reflexivity. Qed.

(** ** Facts about strings and their order *)

Section StringFacts.

Lemma append_nil_r (s : string) : s ++ EmptyString = s.
Proof. induction s as [|c s IH]; simpl; [reflexivity | now rewrite IH]. Qed.

Lemma append_assoc (a b c : string) : (a ++ b) ++ c = a ++ (b ++ c).
Proof. induction a as [|x a IH]; simpl; [reflexivity | now rewrite IH]. Qed.

Lemma append_length (a b : string) :
  String.length (a ++ b) = (String.length a + String.length b)%nat.
Proof. induction a as [|x a IH]; simpl; [reflexivity | now rewrite IH]. Qed.

Lemma append_inv_l (a x y : string) : a ++ x = a ++ y -> x = y.
Proof.
  induction a as [|c a IH]; simpl; intros H; [exact H|].
  injection H as H. now apply IH.
Qed.

Lemma append_eq_len (a b x y : string) :
  String.length a = String.length b -> a ++ x = b ++ y -> a = b /\ x = y.
Proof.
  revert b. induction a as [|c a IH]; intros [|d b] Hl H; simpl in *;
    try discriminate.
  - now split.
  - injection H as Hc H. injection Hl as Hl.
    destruct (IH b Hl H) as [-> ->]. now subst.
Qed.

Lemma compare_refl (s : string) : String.compare s s = Eq.
Proof.
  induction s as [|c s IH]; simpl; [reflexivity|].
  unfold Ascii.compare. now rewrite N.compare_refl.
Qed.

Lemma compare_lt_trans (a b c : string) :
  String.compare a b = Lt -> String.compare b c = Lt -> String.compare a c = Lt.
Proof.
  revert b c. induction a as [|x a IH]; intros [|y b] [|z c]; simpl;
    try congruence.
  unfold Ascii.compare.
  destruct (N.compare_spec (N_of_ascii x) (N_of_ascii y)) as [E1|L1|G1];
    destruct (N.compare_spec (N_of_ascii y) (N_of_ascii z)) as [E2|L2|G2];
    try congruence; intros H1 H2.
  - rewrite E1, E2, N.compare_refl. eauto.
  - rewrite E1. apply N.compare_lt_iff in L2. now rewrite L2.
  - rewrite <- E2. apply N.compare_lt_iff in L1. now rewrite L1.
  - assert (L : (N_of_ascii x < N_of_ascii z)%N)
      by now transitivity (N_of_ascii y).
    apply N.compare_lt_iff in L. now rewrite L.
Qed.

Lemma str_lt_trans (a b c : string) : str_lt a b -> str_lt b c -> str_lt a c.
Proof.
  unfold str_lt, String.ltb. intros H1 H2.
  destruct (String.compare a b) eqn:E1; try discriminate.
  destruct (String.compare b c) eqn:E2; try discriminate.
  now rewrite (compare_lt_trans _ _ _ E1 E2).
Qed.

Lemma str_lt_irrefl (a : string) : ~ str_lt a a.
Proof. unfold str_lt, String.ltb. now rewrite compare_refl. Qed.

Lemma leb_neq_lt (a b : string) : String.leb a b = true -> a <> b -> str_lt a b.
Proof.
  unfold str_lt, String.leb, String.ltb. intros H Hn.
  destruct (String.compare a b) eqn:E; try discriminate; [|reflexivity].
  now apply String.compare_eq_iff in E.
Qed.

Lemma leb_false_lt (a b : string) : String.leb a b = false -> str_lt b a.
Proof.
  unfold str_lt, String.leb, String.ltb. rewrite (String.compare_antisym b a).
  now destruct (String.compare a b).
Qed.

End StringFacts.

(** ** [sorted] and the set of pages *)

Section Sorting.

Lemma insert_in (x y : string) (l : list string) :
  In x (Py.insert y l) <-> x = y \/ In x l.
Proof.
  induction l as [|z l IH]; simpl.
  - intuition.
  - destruct (String.leb y z); simpl; rewrite ?IH; intuition.
Qed.

Lemma sorted_in (x : string) (l : list string) : In x (Py.sorted l) <-> In x l.
Proof.
  induction l as [|y l IH]; simpl; [tauto|].
  rewrite insert_in, IH. intuition.
Qed.

Lemma insert_perm (x : string) (l : list string) :
  Permutation (x :: l) (Py.insert x l).
Proof.
  induction l as [|y l IH]; simpl; [constructor; constructor|].
  destruct (String.leb x y); [apply Permutation_refl|].
  eapply perm_trans; [apply perm_swap|]. now constructor.
Qed.

Lemma sorted_perm (l : list string) : Permutation l (Py.sorted l).
Proof.
  induction l as [|x l IH]; simpl; [constructor|].
  eapply perm_trans; [|apply insert_perm]. now constructor.
Qed.

Lemma sorted_nodup (l : list string) : NoDup l -> NoDup (Py.sorted l).
Proof. intros H. eapply Permutation_NoDup; [apply sorted_perm | exact H]. Qed.

Lemma insert_strongly_sorted (x : string) (l : list string) :
  ~ In x l -> StronglySorted str_lt l -> StronglySorted str_lt (Py.insert x l).
Proof.
  induction l as [|y l IH]; simpl; intros Hn Hs.
  - constructor; constructor.
  - apply StronglySorted_inv in Hs as [Hs Hy].
    destruct (String.leb x y) eqn:E.
    + assert (Hxy : str_lt x y) by (apply leb_neq_lt; intuition).
      constructor; [now constructor|].
      constructor; [exact Hxy|].
      eapply Forall_impl; [|exact Hy].
      intros z Hz. now apply str_lt_trans with y.
    + constructor; [apply IH; intuition|].
      apply Forall_forall. intros z Hz. apply insert_in in Hz as [->|Hz].
      * now apply leb_false_lt.
      * rewrite Forall_forall in Hy. now apply Hy.
Qed.

Lemma sorted_strongly_sorted (l : list string) :
  NoDup l -> StronglySorted str_lt (Py.sorted l).
Proof.
  induction 1 as [|x l Hn Hd IH]; simpl; [constructor|].
  apply insert_strongly_sorted; [|exact IH].
  now rewrite sorted_in.
Qed.

Lemma mem_in (x : string) (l : list string) : Py.mem x l = true <-> In x l.
Proof.
  unfold Py.mem. rewrite existsb_exists. split.
  - intros [y [Hy E]]. apply String.eqb_eq in E. now subst.
  - intros H. exists x. split; [exact H | apply String.eqb_refl].
Qed.

Lemma mem_false (x : string) (l : list string) : Py.mem x l = false <-> ~ In x l.
Proof.
  rewrite <- mem_in. destruct (Py.mem x l); intuition congruence.
Qed.

Lemma set_add_in (s : list string) (x y : string) :
  In y (Py.set_add s x) <-> y = x \/ In y s.
Proof.
  unfold Py.set_add. destruct (Py.mem x s) eqn:E.
  - apply mem_in in E. intuition. now subst.
  - rewrite in_app_iff. simpl. intuition.
Qed.

Lemma set_add_nodup (s : list string) (x : string) :
  NoDup s -> NoDup (Py.set_add s x).
Proof.
  unfold Py.set_add. intros H. destruct (Py.mem x s) eqn:E; [exact H|].
  apply mem_false in E.
  apply NoDup_app; [exact H | repeat constructor; simpl; tauto |].
  intros y Hy [<-|[]]. contradiction.
Qed.

(** A loop that adds [f a] to the set for the elements that pass [c]. *)
Lemma fold_set_add_in {A} (c : A -> bool) (f : A -> string) (l : list A)
      (s : list string) (y : string) :
  In y (fold_left (fun acc a => if c a then Py.set_add acc (f a) else acc) l s)
  <-> In y s \/ exists a, In a l /\ c a = true /\ f a = y.
Proof.
  revert s. induction l as [|a l IH]; intros s; simpl.
  - split; [tauto | intros [H|[a [[] _]]]; exact H].
  - rewrite IH. destruct (c a) eqn:E.
    + rewrite set_add_in. split.
      * intros [[->|H]|[b [Hb Hc]]]; eauto 6.
      * intros [H|[b [[->|Hb] [Hc <-]]]]; eauto 6.
    + split.
      * intros [H|[b [Hb Hc]]]; eauto 6.
      * intros [H|[b [[->|Hb] [Hc Hf]]]]; eauto 6. congruence.
Qed.

Lemma fold_set_add_nodup {A} (c : A -> bool) (f : A -> string) (l : list A)
      (s : list string) :
  NoDup s ->
  NoDup (fold_left (fun acc a => if c a then Py.set_add acc (f a) else acc) l s).
Proof.
  revert s. induction l as [|a l IH]; intros s H; simpl; [exact H|].
  apply IH. destruct (c a); [now apply set_add_nodup | exact H].
Qed.

End Sorting.

(** ** Loops that append *)

Section Loops.

Lemma fold_left_ext {A B} (f g : A -> B -> A) (l : list B) (a : A) :
  (forall x y, f x y = g x y) -> fold_left f l a = fold_left g l a.
Proof.
  intros H. revert a. induction l as [|b l IH]; intros a; simpl;
    [reflexivity | now rewrite H, IH].
Qed.

Lemma fold_append_map {A B} (f : A -> B) (l : list A) (acc : list B) :
  fold_left (fun kids a => (kids ++ [f a])%list) l acc = (acc ++ map f l)%list.
Proof.
  revert acc. induction l as [|a l IH]; intros acc; simpl.
  - now rewrite app_nil_r.
  - rewrite IH, <- app_assoc. reflexivity.
Qed.

Lemma fold_append_filter {A B} (c : A -> bool) (f : A -> B) (l : list A)
      (acc : list B) :
  fold_left (fun kids a => if c a then (kids ++ [f a])%list else kids) l acc
  = (acc ++ map f (filter c l))%list.
Proof.
  revert acc. induction l as [|a l IH]; intros acc; simpl.
  - now rewrite app_nil_r.
  - rewrite IH. destruct (c a); simpl; [|reflexivity].
    now rewrite <- app_assoc.
Qed.

End Loops.

(** ** The URL collector *)

Section Collector.

Variable out_dir : node.
Variable base_url : string.

Lemma collect_unfold :
  _collect_internal_pages out_dir base_url = Py.sorted (pages_set out_dir base_url).
Proof.
  unfold _collect_internal_pages, pages_set, allow_list. do 2 f_equal.
  apply fold_left_ext. intros pages p.
  now destruct (String.eqb (Fs.as_posix p) "index.html").
Qed.

(** What the collector reports. *)
Lemma collect_in (y : string) :
  In y (_collect_internal_pages out_dir base_url) <->
  (Fs.exists_ out_dir "index.html" = true /\ y = base_url ++ "/")
  \/ (exists p, In p (Fs.rglob_html out_dir)
                /\ Fs.as_posix p <> "index.html"
                /\ y = base_url ++ "/" ++ Fs.as_posix p)
  \/ (exists name, In name allow_list /\ Fs.exists_ out_dir name = true
                   /\ y = base_url ++ "/" ++ name).
Proof.
  rewrite collect_unfold, sorted_in. unfold pages_set.
  rewrite fold_set_add_in, fold_set_add_in. split.
  - intros [[H|[p [Hp [Hc <-]]]]|[n [Hn [He <-]]]].
    + left. destruct (Fs.exists_ out_dir "index.html"); [|destruct H].
      destruct H as [<-|[]]. now split.
    + right; left. exists p. repeat split; try assumption.
      apply negb_true_iff in Hc. now apply String.eqb_neq.
    + right; right. eauto.
  - intros [[He ->]|[[p [Hp [Hc ->]]]|[n [Hn [He ->]]]]].
    + left; left. rewrite He. now left.
    + left; right. exists p. repeat split; try assumption.
      apply negb_true_iff. now apply String.eqb_neq.
    + right. eauto.
Qed.

Lemma pages_set_nodup : NoDup (pages_set out_dir base_url).
Proof.
  unfold pages_set. do 2 apply fold_set_add_nodup.
  destruct (Fs.exists_ out_dir "index.html"); [|constructor].
  apply set_add_nodup. constructor.
Qed.

Lemma collect_nodup : NoDup (_collect_internal_pages out_dir base_url).
Proof. rewrite collect_unfold. apply sorted_nodup, pages_set_nodup. Qed.

Lemma collect_sorted :
  StronglySorted str_lt (_collect_internal_pages out_dir base_url).
Proof. rewrite collect_unfold. apply sorted_strongly_sorted, pages_set_nodup. Qed.

End Collector.

(** ** Writing under the output directory *)

Section Writes.

Lemma lookup_update (n name : string) (c : node) (es : list (string * node)) :
  Fs.lookup n (Fs.update name c es)
  = if String.eqb name n then Some c else Fs.lookup n es.
Proof.
  induction es as [|[k c'] es IH]; simpl.
  - reflexivity.
  - destruct (String.eqb k name) eqn:E; simpl.
    + apply String.eqb_eq in E. subst k.
      now destruct (String.eqb name n).
    + rewrite IH. destruct (String.eqb k n) eqn:E'; [|reflexivity].
      apply String.eqb_eq in E'. subst k. now rewrite String.eqb_sym, E.
Qed.

Lemma write_file_ok (t : node) (name : string) (data : list byte) :
  writable t name = true ->
  exists es, t = Dir es
             /\ write_file name data t = (Ok tt, Dir (Fs.update name (File data) es)).
Proof.
  destruct t as [d|es]; simpl; [discriminate|]. intros H. exists es.
  split; [reflexivity|]. now destruct (Fs.lookup name es) as [[|]|].
Qed.

Lemma write_file_child (t t' : node) (name : string) (data : list byte) (n : string) :
  write_file name data t = (Ok tt, t') ->
  Fs.child t' n = if String.eqb name n then Some (File data) else Fs.child t n.
Proof.
  destruct t as [d|es]; simpl; [discriminate|].
  destruct (Fs.lookup name es) as [[|]|]; try discriminate;
    intros H; injection H as <-; simpl; apply lookup_update.
Qed.

Lemma write_file_writable (t t' : node) (name : string) (data : list byte) (n : string) :
  write_file name data t = (Ok tt, t') ->
  writable t' n = if String.eqb name n then true else writable t n.
Proof.
  intros H. pose proof (write_file_child _ _ _ _ n H) as Hc.
  destruct t as [d|es]; simpl in H; [discriminate|].
  destruct (Fs.lookup name es) as [[|]|]; try discriminate;
    injection H as <-; simpl in *; rewrite Hc;
    now destruct (String.eqb name n).
Qed.

Lemma write_file_raise (t t' : node) (name : string) (data : list byte) (e : exn) :
  write_file name data t = (Raise e, t') -> t' = t.
Proof.
  destruct t as [d|es]; simpl; [congruence|].
  destruct (Fs.lookup name es) as [[|]|]; congruence.
Qed.

End Writes.

(** ** The sitemap *)

Section Sitemap.

Variable out_dir : node.
Variable base_url : string.
Variable now_utc : datetime.

Lemma sitemap_children :
  Xml.children (sitemap_element out_dir base_url now_utc)
  = map (url_entry (Dt.date_isoformat now_utc))
        (_collect_internal_pages out_dir base_url).
Proof. unfold sitemap_element. simpl. now rewrite fold_append_map. Qed.

Lemma sitemap_locs :
  map (Xml.findtext "loc") (Xml.children (sitemap_element out_dir base_url now_utc))
  = map Some (_collect_internal_pages out_dir base_url).
Proof. rewrite sitemap_children, map_map. reflexivity. Qed.

Lemma ensure_sitemap_ok :
  writable out_dir "sitemap.xml" = true ->
  exists t', _ensure_sitemap base_url now_utc out_dir = (Ok tt, t')
             /\ Fs.child t' "sitemap.xml"
                = Some (File (Xml.document
                                (sitemap_element out_dir base_url now_utc))).
Proof.
  intros H.
  destruct (write_file_ok _ _ (Xml.document (sitemap_element out_dir base_url now_utc)) H)
    as [es [-> Hw]].
  eexists. split; [exact Hw|].
  simpl. rewrite lookup_update. reflexivity.
Qed.

End Sitemap.

(** C1. The sitemap has one [url] entry per URL the collector reports, in
    the collector's order; the collector's URLs are pairwise distinct and
    strictly increasing in code-point order; every entry's [lastmod] is the
    ISO date of the run's clock reading; and when [sitemap.xml] can be
    written, this document is what [_ensure_sitemap] leaves in the file. *)
Theorem sitemap_one_entry_per_collected_url
        (out_dir : node) (base_url : string) (now_utc : datetime) :
  Xml.tag (sitemap_element out_dir base_url now_utc) = "urlset"
  /\ map (Xml.findtext "loc")
         (Xml.children (sitemap_element out_dir base_url now_utc))
     = map Some (_collect_internal_pages out_dir base_url)
  /\ NoDup (_collect_internal_pages out_dir base_url)
  /\ StronglySorted str_lt (_collect_internal_pages out_dir base_url)
  /\ Forall (fun e => Xml.tag e = "url"
                      /\ Xml.findtext "lastmod" e
                         = Some (Dt.date_isoformat now_utc))
            (Xml.children (sitemap_element out_dir base_url now_utc))
  /\ (writable out_dir "sitemap.xml" = true ->
      exists t', _ensure_sitemap base_url now_utc out_dir = (Ok tt, t')
                 /\ Fs.child t' "sitemap.xml"
                    = Some (File (Xml.document
                                    (sitemap_element out_dir base_url now_utc)))).
Proof.
  split; [reflexivity|].
  split; [apply sitemap_locs|].
  split; [apply collect_nodup|].
  split; [apply collect_sorted|].
  split; [|apply ensure_sitemap_ok].
  rewrite sitemap_children. apply Forall_forall.
  intros e He. apply in_map_iff in He as [loc [<- _]]. now split.
Qed.

Example collect_sample :
  _collect_internal_pages sample_tree "https://x.org"
  = ["https://x.org/"; "https://x.org/about.html";
     "https://x.org/d/2026-11-04.html"].
Proof. reflexivity. Qed.

Lemma sitemap_one_entry_per_collected_url_witness :
  exists t', _ensure_sitemap "https://x.org" sample_now sample_tree = (Ok tt, t')
             /\ Fs.child t' "sitemap.xml"
                = Some (File (Xml.document
                                (sitemap_element sample_tree "https://x.org" sample_now))).
Proof.
  apply (sitemap_one_entry_per_collected_url sample_tree "https://x.org" sample_now).
  reflexivity.
Defined.

(** C6. When [index.html] exists at the output root, the collector reports
    the base URL followed by a slash and never [base_url/index.html]; the
    sitemap has the entry; and a tree with nothing else to list yields that
    URL alone. *)
Theorem root_index_is_base_slash (out_dir : node) (base_url : string) :
  Fs.exists_ out_dir "index.html" = true ->
  In (base_url ++ "/") (_collect_internal_pages out_dir base_url)
  /\ ~ In (base_url ++ "/index.html") (_collect_internal_pages out_dir base_url)
  /\ (forall now_utc,
         In (Some (base_url ++ "/"))
            (map (Xml.findtext "loc")
                 (Xml.children (sitemap_element out_dir base_url now_utc))))
  /\ (Fs.rglob_html out_dir = [["index.html"]] ->
      (forall name, In name allow_list -> Fs.exists_ out_dir name = false) ->
      _collect_internal_pages out_dir base_url = [base_url ++ "/"]).
Proof.
  intros Hi.
  assert (H1 : In (base_url ++ "/") (_collect_internal_pages out_dir base_url)).
  { apply collect_in. left. now split. }
  split; [exact H1|]. split; [|split].
  - intros H. apply collect_in in H as [[_ H]|[[p [_ [Hp H]]]|[n [Hn [_ H]]]]].
    + apply append_inv_l in H. discriminate.
    + apply append_inv_l in H. injection H as H. congruence.
    + apply append_inv_l in H. injection H as <-.
      simpl in Hn. intuition discriminate.
  - intros now_utc. rewrite sitemap_locs. now apply in_map.
  - intros Hr Ha. unfold _collect_internal_pages. rewrite Hr, Hi. simpl.
    rewrite !Ha by (simpl; tauto). reflexivity.
Qed.

Lemma root_index_is_base_slash_witness :
  In "https://x.org/"
     (_collect_internal_pages (Dir [("index.html", File [])]) "https://x.org")
  /\ _collect_internal_pages (Dir [("index.html", File [])]) "https://x.org"
     = ["https://x.org/"].
Proof.
  pose proof (root_index_is_base_slash (Dir [("index.html", File [])])
                                       "https://x.org" eq_refl) as [H1 [_ [_ H4]]].
  split; [exact H1|].
  apply H4; [reflexivity|].
  intros name Hn. simpl in Hn.
  repeat (destruct Hn as [<-|Hn]; [reflexivity|]). destruct Hn.
Defined.

(** ** The recent-items reader *)

Section Reader.

Lemma reader_loop (rows : list (list string)) (acc : list string) :
  fold_left
    (fun urls row =>
       match row with
       | [] => urls
       | c :: _ =>
         let u := Str.strip c in
         if Str.startswith u "http://" || Str.startswith u "https://"
         then (urls ++ [u])%list else urls
       end) rows acc
  = (acc ++ logged_urls rows)%list.
Proof.
  revert acc. induction rows as [|row rows IH]; intros acc; simpl.
  - now rewrite app_nil_r.
  - rewrite IH. unfold row_url. destruct row as [|c row]; [reflexivity|].
    simpl.
    destruct (Str.startswith (Str.strip c) "http://"
              || Str.startswith (Str.strip c) "https://");
      [now rewrite <- app_assoc | reflexivity].
Qed.

Lemma read_recent_urls_unfold (rp : repo) (rows : list (list string)) (limit : Z) :
  daily_csv rp = Log rows ->
  recent_urls rp limit
  = if (limit <? Z.of_nat (List.length (logged_urls (tl rows))))%Z
    then Py.slice_from_neg limit (logged_urls (tl rows))
    else logged_urls (tl rows).
Proof.
  intros H. unfold recent_urls, _read_recent_urls. rewrite H, reader_loop.
  reflexivity.
Qed.

Lemma logged_urls_in (rows : list (list string)) (u : string) :
  In u (logged_urls rows) ->
  exists row, In row rows /\ row_url row = Some u.
Proof.
  induction rows as [|row rows IH]; simpl; [tauto|].
  destruct (row_url row) as [v|] eqn:E.
  - intros [<-|H]; [eauto|]. destruct (IH H) as [r [Hr Hu]]. eauto.
  - intros H. destruct (IH H) as [r [Hr Hu]]. eauto.
Qed.

Lemma row_url_some (row : list string) (u : string) :
  row_url row = Some u ->
  exists c rest, row = c :: rest /\ u = Str.strip c
                 /\ (Str.startswith u "http://" = true
                     \/ Str.startswith u "https://" = true).
Proof.
  destruct row as [|c rest]; simpl; [discriminate|].
  destruct (Str.startswith (Str.strip c) "http://"
            || Str.startswith (Str.strip c) "https://") eqn:E; [|discriminate].
  intros H. injection H as <-. exists c, rest.
  apply orb_true_iff in E. auto.
Qed.

Lemma last_n_length {A} (k : nat) (l : list A) :
  (List.length (Py.last_n k l) <= k)%nat.
Proof. unfold Py.last_n. rewrite length_skipn. lia. Qed.

Lemma last_n_all {A} (k : nat) (l : list A) :
  (List.length l <= k)%nat -> Py.last_n k l = l.
Proof.
  intros H. unfold Py.last_n.
  replace (List.length l - k)%nat with 0%nat by lia. reflexivity.
Qed.

Lemma last_n_suffix {A} (k : nat) (l : list A) :
  exists dropped, l = (dropped ++ Py.last_n k l)%list
                  /\ (k <= List.length l -> List.length (Py.last_n k l) = k)%nat.
Proof.
  unfold Py.last_n. exists (firstn (List.length l - k) l). split.
  - now rewrite firstn_skipn.
  - intros H. rewrite length_skipn. lia.
Qed.

(** For a positive limit the reader keeps the last [limit] values. *)
Lemma read_recent_urls_positive (rp : repo) (rows : list (list string)) (limit : Z) :
  daily_csv rp = Log rows -> (0 < limit)%Z ->
  recent_urls rp limit
  = Py.last_n (Z.to_nat limit) (logged_urls (tl rows)).
Proof.
  intros H Hl. rewrite (read_recent_urls_unfold _ _ _ H).
  destruct (Z.ltb_spec limit (Z.of_nat (List.length (logged_urls (tl rows))))).
  - unfold Py.slice_from_neg.
    destruct (Z.eqb_spec limit 0); [lia|].
    destruct (Z.ltb_spec 0 limit); [reflexivity | lia].
  - symmetry. apply last_n_all. lia.
Qed.

End Reader.

Section ReaderResult.

Lemma read_log (rp : repo) (rows : list (list string)) (limit : Z) :
  daily_csv rp = Log rows ->
  _read_recent_urls rp limit = Ok (recent_urls rp limit).
Proof.
  intros H. unfold recent_urls, _read_recent_urls. now rewrite H.
Qed.

Lemma read_ok (rp : repo) (limit : Z) (urls : list string) :
  _read_recent_urls rp limit = Ok urls -> recent_urls rp limit = urls.
Proof. intros H. unfold recent_urls. now rewrite H. Qed.

Lemma recent_urls_bounded (rp : repo) (limit : Z) :
  (0 < limit)%Z -> (Z.of_nat (List.length (recent_urls rp limit)) <= limit)%Z.
Proof.
  intros Hl. destruct (daily_csv rp) as [|e|rows] eqn:E.
  - unfold recent_urls, _read_recent_urls. rewrite E. simpl. lia.
  - unfold recent_urls, _read_recent_urls. rewrite E. simpl. lia.
  - rewrite (read_recent_urls_positive rp rows limit E Hl).
    pose proof (last_n_length (Z.to_nat limit) (logged_urls (tl rows))). lia.
Qed.

End ReaderResult.

(** The reader on positive limits.  Without a log file it returns the empty
    list; when the file cannot be opened, decoded or parsed it raises; on a
    readable log it returns at most [limit] entries, the last [limit] values
    of the log, oldest first (all of them when there are no more than
    [limit]), each the trimmed first column of a data row that begins with
    [http://] or [https://]. *)
Lemma read_recent_urls_positive_limit (rp : repo) (limit : Z) :
  (0 < limit)%Z ->
  (daily_csv rp = NoLog -> _read_recent_urls rp limit = Ok [])
  /\ (forall e, daily_csv rp = BadLog e -> _read_recent_urls rp limit = Raise e)
  /\ (forall rows, daily_csv rp = Log rows ->
        exists urls,
          _read_recent_urls rp limit = Ok urls
          /\ (Z.of_nat (List.length urls) <= limit)%Z
          /\ (exists older,
                 logged_urls (tl rows) = (older ++ urls)%list
                 /\ (limit <= Z.of_nat (List.length (logged_urls (tl rows))) ->
                     Z.of_nat (List.length urls) = limit)%Z)
          /\ (forall u, In u urls ->
                 exists c rest, In (c :: rest) (tl rows) /\ u = Str.strip c
                                /\ (Str.startswith u "http://" = true
                                    \/ Str.startswith u "https://" = true))).
Proof.
  intros Hl. split; [|split].
  - intros E. unfold _read_recent_urls. now rewrite E.
  - intros e E. unfold _read_recent_urls. now rewrite E.
  - intros rows E. exists (recent_urls rp limit).
    split; [now apply read_log with rows|].
    pose proof (read_recent_urls_positive rp rows limit E Hl) as Hr.
    split; [now apply recent_urls_bounded|].
    rewrite Hr.
    destruct (last_n_suffix (Z.to_nat limit) (logged_urls (tl rows)))
      as [older [Ho Hlen]].
    split.
    + exists older. split; [exact Ho|]. intros Hge.
      rewrite Hlen by lia. lia.
    + intros u Hu.
      assert (Hin : In u (logged_urls (tl rows))).
      { rewrite Ho. apply in_or_app. now right. }
      apply logged_urls_in in Hin as [row [Hrow Hurl]].
      apply row_url_some in Hurl as [c [rest [-> [-> Hp]]]].
      exists c, rest. auto.
Qed.

(** C3, at a limit of zero.  The guard [len(urls) > limit] holds and the
    slice [urls[-0:]] is the whole list: the reader returns both logged
    values, two entries for a limit of zero. *)
Theorem read_recent_urls_limit_zero :
  exists urls,
    _read_recent_urls (log_of [["url"]; ["https://x/a"]; ["https://x/b"]]) 0
    = Ok urls
    /\ urls = ["https://x/a"; "https://x/b"]
    /\ (0 < Z.of_nat (List.length urls))%Z.
Proof.
  exists ["https://x/a"; "https://x/b"].
  split; [reflexivity|]. split; [reflexivity | simpl; lia].
Qed.

(** ** The feed *)

Section Feed.

Variable now_utc : datetime.

Lemma feed_item_meta (enriched : json) (u : string) :
  feed_item enriched now_utc u
  = feed_item (JDict [(u, record_of enriched u)]) now_utc u.
Proof.
  unfold feed_item, record_of. simpl. rewrite String.eqb_refl.
  destruct enriched; reflexivity.
Qed.

Lemma feed_item_ok (enriched : json) (u : string) (it : Element) :
  feed_item enriched now_utc u = Ok it ->
  it = item_element (or_url (enrichment_title enriched u) u) u
                    (or_url (enrichment_desc enriched u) u) now_utc.
Proof.
  rewrite feed_item_meta.
  unfold enrichment_title, enrichment_desc, item_element.
  generalize (record_of enriched u). intros meta.
  unfold feed_item. simpl. rewrite String.eqb_refl. simpl.
  destruct meta as [| | | |l|d]; simpl; try discriminate.
  unfold Js.or_.
  destruct (Js.lookup "title" d) as [[| [|] | n | s | l | l]|]; simpl;
    try discriminate;
    try (destruct (negb (n =? 0)%Z); simpl; try discriminate);
    try (destruct s; simpl; try discriminate);
    try (destruct l; simpl; try discriminate).
  all: destruct (Js.lookup "summary" d) as [[| [|] | n' | s' | l' | l']|]; simpl;
    try discriminate;
    try (destruct (negb (n' =? 0)%Z); simpl; try discriminate);
    try (destruct s'; simpl; try discriminate);
    try (destruct l'; simpl; try discriminate).
  all: try (destruct (Js.lookup "description" d) as [[| [|] | n2 | s2 | l2 | l2]|];
            simpl; try discriminate;
            try (destruct (negb (n2 =? 0)%Z); simpl; try discriminate);
            try (destruct s2; simpl; try discriminate);
            try (destruct l2; simpl; try discriminate)).
  all: intros H; injection H as <-; unfold or_url;
    repeat match goal with
           | |- context [Str.nonempty ?x] => destruct (Str.nonempty x)
           end; reflexivity.
Qed.

End Feed.

Section FeedDocument.

Variable now_utc : datetime.

Lemma feed_item_total (enriched : json) (u : string) :
  record_ok (record_of enriched u) = true ->
  feed_item enriched now_utc u = Ok (item_for now_utc enriched u).
Proof.
  intros H.
  destruct (feed_item enriched now_utc u) as [it|e] eqn:E.
  - now rewrite (feed_item_ok _ _ _ _ E).
  - exfalso. rewrite feed_item_meta in E. revert H E.
    generalize (record_of enriched u). intros meta.
    unfold record_ok, field_ok, feed_item. simpl. rewrite String.eqb_refl. simpl.
    destruct meta as [| | | |l|d]; simpl; try discriminate.
    unfold Js.or_.
    destruct (Js.lookup "title" d) as [[| [|] | n | s | l | l]|]; simpl;
      try discriminate;
      try (destruct (negb (n =? 0)%Z); simpl; try discriminate);
      try (destruct s; simpl; try discriminate);
      try (destruct l; simpl; try discriminate).
    all: destruct (Js.lookup "summary" d) as [[| [|] | n' | s' | l' | l']|]; simpl;
      try discriminate;
      try (destruct (negb (n' =? 0)%Z); simpl; try discriminate);
      try (destruct s'; simpl; try discriminate);
      try (destruct l'; simpl; try discriminate).
    all: destruct (Js.lookup "description" d) as [[| [|] | n2 | s2 | l2 | l2]|];
      simpl; try discriminate;
      try (destruct (negb (n2 =? 0)%Z); simpl; try discriminate);
      try (destruct s2; simpl; try discriminate);
      try (destruct l2; simpl; try discriminate).
Qed.

Lemma feed_loop_ok (enriched : json) (us : list string) (ch ch' : list Element) :
  feed_loop enriched now_utc us ch = Ok ch' ->
  ch' = (ch ++ map (item_for now_utc enriched) us)%list.
Proof.
  revert ch. induction us as [|u us IH]; intros ch; simpl.
  - intros H. injection H as <-. now rewrite app_nil_r.
  - destruct (feed_item enriched now_utc u) as [it|e] eqn:E; simpl; [|discriminate].
    intros H. apply IH in H. rewrite H, <- app_assoc.
    now rewrite (feed_item_ok _ _ _ _ E).
Qed.

Lemma feed_loop_total (enriched : json) (us : list string) (ch : list Element) :
  Forall (fun u => record_ok (record_of enriched u) = true) us ->
  feed_loop enriched now_utc us ch = Ok (ch ++ map (item_for now_utc enriched) us)%list.
Proof.
  intros H. revert ch. induction H as [|u us Hu _ IH]; intros ch; simpl.
  - now rewrite app_nil_r.
  - rewrite (feed_item_total _ _ Hu). simpl. rewrite IH, <- app_assoc. reflexivity.
Qed.

Lemma load_items (rp : repo) :
  (if Js.isinstance_dict (_load_enriched rp)
   then Js.get (_load_enriched rp) "items" (JDict [])
   else Ok (JDict [])) = Ok (items_index rp).
Proof. unfold items_index. now destruct (_load_enriched rp). Qed.

(** The feed is built only if the reader returned. *)
Lemma rss_element_reads (rp : repo) (base_url : string) (doc : Element) :
  rss_element rp base_url now_utc = Ok doc ->
  _read_recent_urls rp 50 = Ok (recent_urls rp 50).
Proof.
  unfold rss_element, recent_urls.
  destruct (_read_recent_urls rp 50) as [urls|e]; simpl; [reflexivity | discriminate].
Qed.

Lemma rss_element_ok (rp : repo) (base_url : string) (doc : Element) :
  rss_element rp base_url now_utc = Ok doc -> doc = rss_of now_utc rp base_url.
Proof.
  unfold rss_element, rss_of, recent_urls.
  destruct (_read_recent_urls rp 50) as [urls|e0]; simpl; [|discriminate].
  rewrite load_items. simpl.
  destruct (feed_loop _ _ _ _) as [ch|e] eqn:E; simpl; [|discriminate].
  intros H. injection H as <-. apply feed_loop_ok in E. now rewrite E.
Qed.

Lemma rss_element_total (rp : repo) (base_url : string) :
  is_ok (_read_recent_urls rp 50) = true ->
  Forall (fun u => record_ok (record_of (items_index rp) u) = true)
         (recent_urls rp 50) ->
  rss_element rp base_url now_utc = Ok (rss_of now_utc rp base_url).
Proof.
  intros Hr H. unfold rss_element, rss_of, recent_urls in *.
  destruct (_read_recent_urls rp 50) as [urls|e0]; [|discriminate]. simpl.
  rewrite load_items. simpl.
  rewrite feed_loop_total; [reflexivity|].
  apply Forall_forall. intros u Hu. rewrite Forall_forall in H.
  apply H. now apply in_rev.
Qed.

Lemma feed_items_rss_of (rp : repo) (base_url : string) :
  feed_items (rss_of now_utc rp base_url)
  = map (item_for now_utc (items_index rp)) (rev (recent_urls rp 50)).
Proof.
  unfold feed_items, rss_of. simpl. rewrite app_nil_r.
  induction (rev (recent_urls rp 50)) as [|u us IH]; simpl;
    [reflexivity | now rewrite IH].
Qed.

End FeedDocument.

(** What holds of the feed whenever it is built.  The reader has returned;
    the items follow its URLs in reverse order, newest first; each item's
    link is its URL and its title is the title the enrichment index offers
    for the URL, or else the URL; the feed step writes this document to
    [rss.xml] when the file can be written.  The feed is built whenever the
    reader returns and the records of its URLs are well-formed.  On the log
    a, b, c with a title for b only, the items are c titled c, b titled
    [B title], a titled a. *)
Lemma feed_items_when_built :
  (forall rp base_url now_utc doc,
      rss_element rp base_url now_utc = Ok doc ->
      exists urls,
        _read_recent_urls rp 50 = Ok urls
        /\ map (Xml.findtext "link") (feed_items doc) = map Some (rev urls)
        /\ map (Xml.findtext "title") (feed_items doc)
           = map (fun u => Some (or_url (enrichment_title (items_index rp) u) u))
                 (rev urls)
        /\ (forall t, writable t "rss.xml" = true ->
              exists t', _ensure_rss rp base_url now_utc t = (Ok tt, t')
                         /\ Fs.child t' "rss.xml" = Some (File (Xml.document doc))))
  /\ (forall rp base_url now_utc urls,
         _read_recent_urls rp 50 = Ok urls ->
         Forall (fun u => record_ok (record_of (items_index rp) u) = true) urls ->
         exists doc, rss_element rp base_url now_utc = Ok doc)
  /\ (exists doc,
         rss_element example_repo "https://x" sample_now = Ok doc
         /\ map title_and_link (feed_items doc)
            = [(Some "https://x/c", Some "https://x/c");
               (Some "B title", Some "https://x/b");
               (Some "https://x/a", Some "https://x/a")]).
Proof.
  split; [|split].
  - intros rp base_url now_utc doc H.
    pose proof (rss_element_reads _ _ _ _ H) as Hr.
    exists (recent_urls rp 50). split; [exact Hr|].
    pose proof (rss_element_ok _ _ _ _ H) as Hd. subst doc.
    rewrite feed_items_rss_of, !map_map. split; [reflexivity|].
    split; [reflexivity|].
    intros t Hw. unfold _ensure_rss, bind, lift. rewrite H.
    destruct (write_file_ok _ _ (Xml.document (rss_of now_utc rp base_url)) Hw)
      as [es [-> Hwr]].
    eexists. split; [exact Hwr|]. simpl. rewrite lookup_update. reflexivity.
  - intros rp base_url now_utc urls Hr H. eexists.
    apply rss_element_total; [now rewrite Hr|]. now rewrite (read_ok _ _ _ Hr).
  - eexists. split; reflexivity.
Qed.

(** C4, on an index whose record for a logged URL is not an object.  The
    index passes both [isinstance] guards, [meta] is [None] and
    [meta.get] raises: the feed step raises [AttributeError], no item is
    emitted and [rss.xml] is not written. *)
Theorem feed_raises_on_null_record :
  _read_recent_urls null_record_repo 50
  = Ok ["https://x/a"; "https://x/b"; "https://x/c"]
  /\ Js.isinstance_dict (_load_enriched null_record_repo) = true
  /\ Js.isinstance_dict (items_index null_record_repo) = true
  /\ rss_element null_record_repo "https://x" sample_now = Raise AttributeError
  /\ _ensure_rss null_record_repo "https://x" sample_now sample_tree
     = (Raise AttributeError, sample_tree)
  /\ Fs.child sample_tree "rss.xml" = None.
Proof. repeat split; reflexivity. Qed.

(** ** The tree walk *)

Section Walk.

Lemma rglob_dir (es : list (string * node)) :
  Fs.rglob_html (Dir es) = walk_html es.
Proof.
  induction es as [|[n c] es IH]; simpl; [reflexivity|].
  simpl in IH. now rewrite IH.
Qed.

Lemma lookup_in (name : string) (es : list (string * node)) (c : node) :
  Fs.lookup name es = Some c -> In (name, c) es.
Proof.
  induction es as [|[n c'] es IH]; simpl; [discriminate|].
  destruct (String.eqb_spec n name) as [->|Hn].
  - intros H. injection H as ->. now left.
  - intros H. right. now apply IH.
Qed.

Lemma walk_in_here (name : string) (c : node) (es : list (string * node)) :
  In (name, c) es -> Fs.fnmatch_html name = true -> In [name] (walk_html es).
Proof.
  induction es as [|[n c'] es IH]; simpl; [tauto|].
  intros [H|H] Hm.
  - injection H as -> ->. rewrite Hm. now left.
  - apply in_or_app. right. apply in_or_app. right. now apply IH.
Qed.

Lemma walk_in_below (name : string) (c : node) (es : list (string * node))
      (p : list string) :
  In (name, c) es -> In p (Fs.rglob_html c) -> In (name :: p) (walk_html es).
Proof.
  induction es as [|[n c'] es IH]; simpl; [tauto|].
  intros [H|H] Hp.
  - injection H as -> ->. apply in_or_app. right. apply in_or_app. left.
    now apply in_map.
  - apply in_or_app. right. apply in_or_app. right. now apply IH.
Qed.

(** Every path of the tree whose last segment ends in [.html] is found. *)
Lemma rglob_complete (p : list string) :
  forall (t c : node),
    p <> [] -> Fs.resolve t p = Some c ->
    Fs.fnmatch_html (last p EmptyString) = true ->
    In p (Fs.rglob_html t).
Proof.
  induction p as [|n p IH]; intros t c Hne Hr Hm; [congruence|].
  simpl in Hr. destruct (Fs.child t n) as [k|] eqn:Hk; [|discriminate].
  destruct t as [d|es]; simpl in Hk; [discriminate|].
  apply lookup_in in Hk. rewrite rglob_dir.
  destruct p as [|m p].
  - now apply walk_in_here with k.
  - apply walk_in_below with k; [exact Hk|].
    apply IH with c; [discriminate | exact Hr | exact Hm].
Qed.

Lemma walk_update (name : string) (d : list byte) (es : list (string * node)) :
  Fs.fnmatch_html name = false ->
  writable (Dir es) name = true ->
  walk_html (Fs.update name (File d) es) = walk_html es.
Proof.
  intros Hm. unfold writable.
  induction es as [|[n c] es IH]; simpl.
  - now rewrite Hm.
  - destruct (String.eqb_spec n name) as [->|Hn]; simpl.
    + destruct c; [reflexivity | discriminate].
    + intros H. now rewrite IH.
Qed.

Lemma write_file_rglob (t t' : node) (name : string) (d : list byte) :
  Fs.fnmatch_html name = false ->
  write_file name d t = (Ok tt, t') ->
  Fs.rglob_html t' = Fs.rglob_html t.
Proof.
  intros Hm H. destruct t as [x|es]; simpl in H; [discriminate|].
  assert (Hw : writable (Dir es) name = true).
  { simpl. destruct (Fs.lookup name es) as [[|]|]; congruence. }
  assert (Ht : t' = Dir (Fs.update name (File d) es)).
  { destruct (Fs.lookup name es) as [[|]|]; congruence. }
  subst t'. rewrite !rglob_dir. now apply walk_update.
Qed.

Lemma write_file_exists (t t' : node) (name : string) (d : list byte) (n : string) :
  write_file name d t = (Ok tt, t') ->
  Fs.exists_ t' n = String.eqb name n || Fs.exists_ t n.
Proof.
  intros H. unfold Fs.exists_. rewrite (write_file_child _ _ _ _ n H).
  now destruct (String.eqb name n).
Qed.

(** The collector reads the walk and the existence of seven names. *)
Lemma collect_ext (t t' : node) (base_url : string) :
  Fs.rglob_html t = Fs.rglob_html t' ->
  (forall n, In n ("index.html" :: allow_list) -> Fs.exists_ t n = Fs.exists_ t' n) ->
  _collect_internal_pages t base_url = _collect_internal_pages t' base_url.
Proof.
  intros Hr He. unfold _collect_internal_pages. rewrite Hr.
  cbn [fold_left]. rewrite !(He _) by (simpl; tauto). reflexivity.
Qed.

End Walk.

(** ** Loops in the monad and the token copier *)

Section MonadLoops.

Context {A : Type}.
Variable body : A -> M unit.

Lemma bind_ok_inv {X Y} (m : M X) (k : X -> M Y) (t t' : node) (y : Y) :
  bind m k t = (Ok y, t') ->
  exists x t1, m t = (Ok x, t1) /\ k x t1 = (Ok y, t').
Proof.
  unfold bind. destruct (m t) as [[x|e] t1]; [eauto | discriminate].
Qed.

Lemma for_each_inv (P : node -> Prop) (l : list A) :
  (forall x s s', In x l -> P s -> body x s = (Ok tt, s') -> P s') ->
  forall t t', P t -> for_each l body t = (Ok tt, t') -> P t'.
Proof.
  induction l as [|x l IH]; intros Hstep t t' Ht; simpl.
  - unfold ret. intros H. now injection H as <-.
  - intros H. apply bind_ok_inv in H as [[] [t1 [H1 H2]]].
    apply IH with t1; [intros; eapply Hstep; eauto; now right | | exact H2].
    eapply Hstep; eauto. now left.
Qed.

Lemma for_each_total (P : node -> Prop) (l : list A) :
  (forall x s, In x l -> P s -> exists s', body x s = (Ok tt, s') /\ P s') ->
  forall t, P t -> exists t', for_each l body t = (Ok tt, t') /\ P t'.
Proof.
  induction l as [|x l IH]; intros Hstep t Ht; simpl.
  - exists t. now split.
  - destruct (Hstep x t (or_introl eq_refl) Ht) as [s' [Hs Hp]].
    destruct (IH (fun y s Hy => Hstep y s (or_intror Hy)) s' Hp) as [t' [H1 H2]].
    exists t'. split; [|exact H2]. unfold bind. now rewrite Hs.
Qed.

Lemma for_each_established (Q : A -> node -> Prop) (l : list A) :
  (forall x s s', body x s = (Ok tt, s') -> Q x s') ->
  (forall x y s s', Q x s -> body y s = (Ok tt, s') -> Q x s') ->
  forall t t', for_each l body t = (Ok tt, t') -> forall x, In x l -> Q x t'.
Proof.
  intros Hest Hkeep.
  induction l as [|y l IH]; intros t t' H x Hx; [destruct Hx|].
  simpl in H. apply bind_ok_inv in H as [[] [t1 [H1 H2]]].
  destruct Hx as [->|Hx].
  - apply (for_each_inv (Q x) l) with t1; [|eapply Hest; eauto | exact H2].
    intros z s s' _ Hq Hb. eapply Hkeep; eauto.
  - eapply IH; eauto.
Qed.

Lemma for_each_noop (l : list A) (t : node) :
  (forall x, In x l -> body x t = (Ok tt, t)) -> for_each l body t = (Ok tt, t).
Proof.
  induction l as [|x l IH]; intros H; simpl; [reflexivity|].
  unfold bind. rewrite (H x (or_introl eq_refl)).
  apply IH. intros y Hy. apply H. now right.
Qed.

End MonadLoops.

Section Tokens.

Lemma grows_refl (t : node) : grows t t.
Proof. now intros n. Qed.

Lemma grows_trans (a b c : node) : grows a b -> grows b c -> grows a c.
Proof. intros H1 H2 n H. auto. Qed.

Lemma write_file_grows (t t' : node) (name : string) (d : list byte) :
  write_file name d t = (Ok tt, t') -> grows t t'.
Proof.
  intros H n Hn. rewrite (write_file_exists _ _ _ _ n H), Hn.
  apply orb_true_r.
Qed.

Lemma write_file_stays_writable (t t' : node) (name : string) (d : list byte) :
  write_file name d t = (Ok tt, t') -> stays_writable t t'.
Proof.
  intros H n Hn. rewrite (write_file_writable _ _ _ _ n H), Hn.
  now destruct (String.eqb name n).
Qed.

Lemma copy_if_missing_present (src : node) (name : string) (t : node) :
  Fs.exists_ t name = true -> _copy_if_missing src name t = (Ok tt, t).
Proof. intros H. unfold _copy_if_missing, bind, get. now rewrite H. Qed.

Lemma copy_if_missing_inv (src : node) (name : string) (t t' : node) :
  _copy_if_missing src name t = (Ok tt, t') ->
  grows t t' /\ stays_writable t t' /\ Fs.exists_ t' name = true.
Proof.
  unfold _copy_if_missing, bind, get.
  destruct (Fs.exists_ t name) eqn:E.
  - unfold ret. intros H. injection H as <-.
    split; [apply grows_refl|]. split; [now intros n | exact E].
  - destruct src as [d|es].
    + intros H. split; [eapply write_file_grows; eauto|].
      split; [eapply write_file_stays_writable; eauto|].
      rewrite (write_file_exists _ _ _ _ name H), String.eqb_refl. reflexivity.
    + destruct t; discriminate.
Qed.

Lemma copy_if_missing_total (d : list byte) (name : string) (t : node) :
  Fs.is_dir t = true ->
  exists t', _copy_if_missing (File d) name t = (Ok tt, t') /\ Fs.is_dir t' = true.
Proof.
  intros Hd. unfold _copy_if_missing, bind, get.
  destruct (Fs.exists_ t name) eqn:E.
  - exists t. now split.
  - destruct t as [x|es]; [discriminate|].
    unfold Fs.exists_ in E. simpl in E. simpl.
    destruct (Fs.lookup name es); [discriminate|].
    eexists. split; reflexivity.
Qed.

Lemma copy_root_tokens_unfold (rp : repo) (t : node) :
  _copy_root_tokens rp t = for_each (token_entries rp) copy_entry t.
Proof.
  unfold _copy_root_tokens, token_entries.
  destruct (docs rp) as [[d|es]|]; try reflexivity.
  generalize (filter (fun e => glob_google_html (fst e)) es). intros l1.
  generalize (filter (fun e : string * node => glob_txt (fst e)) es). intros l2.
  revert t. induction l1 as [|x l1 IH]; intros t; simpl.
  - unfold bind, ret. revert t.
    induction l2 as [|y l2 IH2]; intros t; simpl; [reflexivity|].
    destruct (INDEXNOW_KEY_RE_match (fst y)); simpl.
    + unfold bind, copy_entry.
      destruct (_copy_if_missing (snd y) (fst y) t) as [[[]|e] t1];
        [apply IH2 | reflexivity].
    + unfold bind, ret. apply IH2.
  - unfold bind at 1 2 3. fold (copy_entry x).
    destruct (copy_entry x t) as [[[]|e] t1]; [|reflexivity].
    specialize (IH t1). unfold bind at 1 in IH. exact IH.
Qed.

Lemma copy_root_tokens_inv (rp : repo) (t t' : node) :
  _copy_root_tokens rp t = (Ok tt, t') ->
  grows t t' /\ stays_writable t t'
  /\ forall e, In e (token_entries rp) -> Fs.exists_ t' (fst e) = true.
Proof.
  rewrite copy_root_tokens_unfold. intros H. split; [|split].
  - apply (for_each_inv copy_entry (grows t) (token_entries rp)) with t;
      [|apply grows_refl | exact H].
    intros x s s' _ Hs Hb. apply copy_if_missing_inv in Hb as [Hg _].
    eapply grows_trans; eauto.
  - apply (for_each_inv copy_entry (stays_writable t) (token_entries rp)) with t;
      [|now intros n | exact H].
    intros x s s' _ Hs Hb. apply copy_if_missing_inv in Hb as [_ [Hw _]].
    intros n Hn. auto.
  - apply (for_each_established copy_entry
             (fun e s => Fs.exists_ s (fst e) = true) (token_entries rp)) with t;
      [| |exact H].
    + intros x s s' Hb. now apply copy_if_missing_inv in Hb.
    + intros x y s s' Hq Hb. apply copy_if_missing_inv in Hb as [Hg _]. auto.
Qed.

(** The copier leaves alone every name that neither of its patterns
    accepts. *)
Lemma copy_root_tokens_other (rp : repo) (t t' : node) (n : string) :
  _copy_root_tokens rp t = (Ok tt, t') ->
  glob_google_html n = false -> INDEXNOW_KEY_RE_match n = false ->
  Fs.exists_ t' n = Fs.exists_ t n.
Proof.
  rewrite copy_root_tokens_unfold. intros H Hg Hk.
  apply (for_each_inv copy_entry (fun s => Fs.exists_ s n = Fs.exists_ t n)
                      (token_entries rp)) with t; [|reflexivity | exact H].
  intros e s s' He Hs. rewrite <- Hs.
  unfold copy_entry, _copy_if_missing, bind, get.
  destruct (Fs.exists_ s (fst e)) eqn:E.
  - unfold ret. intros Hb. now injection Hb as <-.
  - destruct (snd e) as [d|es].
    + intros Hb. rewrite (write_file_exists _ _ _ _ n Hb).
      destruct (String.eqb_spec (fst e) n) as [Heq|]; [|reflexivity].
      exfalso. unfold token_entries in He.
      destruct (docs rp) as [[d0|es0]|]; try destruct He.
      apply in_app_or in He as [He|He]; apply filter_In in He as [_ He];
        congruence.
    + destruct s; discriminate.
Qed.

Lemma copy_root_tokens_noop (rp : repo) (t : node) :
  (forall e, In e (token_entries rp) -> Fs.exists_ t (fst e) = true) ->
  _copy_root_tokens rp t = (Ok tt, t).
Proof.
  intros H. rewrite copy_root_tokens_unfold. apply for_each_noop.
  intros x Hx. apply copy_if_missing_present. auto.
Qed.

Lemma copy_root_tokens_total (rp : repo) (t : node) :
  Fs.is_dir t = true ->
  forallb (fun e => Fs.is_file (snd e)) (token_entries rp) = true ->
  exists t', _copy_root_tokens rp t = (Ok tt, t').
Proof.
  intros Hd Hf. rewrite forallb_forall in Hf.
  destruct (for_each_total copy_entry (fun s => Fs.is_dir s = true)
                           (token_entries rp)) with (t := t) as [t' [H _]];
    [|exact Hd|].
  - intros [n c] s Hx Hs. specialize (Hf _ Hx). simpl in Hf.
    destruct c as [d|]; [|discriminate].
    now apply copy_if_missing_total.
  - rewrite copy_root_tokens_unfold. eauto.
Qed.

End Tokens.

(** ** The steps of a run *)

Section Run.

Variable rp : repo.
Variable base_url : string.
Variable now_utc : datetime.

Lemma pipeline_inv (t t' : node) :
  pipeline rp base_url now_utc t = (Ok tt, t') ->
  exists r, run_steps rp base_url now_utc t t' r.
Proof.
  unfold pipeline, _ensure_robots, _ensure_rss, _ensure_sitemap,
    _ensure_netlify_overrides, _write_text.
  intros H.
  apply bind_ok_inv in H as [[] [t0 [H0 H]]].
  apply bind_ok_inv in H as [[] [s0 [H1 H]]].
  apply bind_ok_inv in H as [[] [s1 [H2 H]]].
  apply bind_ok_inv in H2 as [rss [s0' [Hr H2]]].
  unfold lift in Hr.
  destruct (rss_element rp base_url now_utc) as [doc|e] eqn:Er; [|discriminate].
  injection Hr as <- <-.
  pose proof (rss_element_ok _ _ _ _ Er) as ->.
  apply bind_ok_inv in H as [[] [s2 [H3 H]]].
  apply bind_ok_inv in H3 as [s1' [s1'' [Hg H3]]].
  unfold get in Hg. injection Hg as <- <-.
  apply bind_ok_inv in H as [s2' [s2'' [Hg H]]].
  unfold get in Hg. injection Hg as <- <-.
  apply bind_ok_inv in H as [lines [s2' [Hl H]]].
  unfold lift in Hl.
  destruct (redirects_lines s2) as [ls|e] eqn:El; [|discriminate].
  injection Hl as <- <-.
  apply bind_ok_inv in H as [[] [s3 [H4 H5]]].
  exists {| after_tokens := t0; after_robots := s0; after_rss := s1;
            after_sitemap := s2; after_redirects := s3; rule_lines := ls |}.
  unfold run_steps. simpl. repeat split; assumption.
Qed.

Lemma pipeline_intro (t t' : node) (r : run_trace) :
  run_steps rp base_url now_utc t t' r ->
  pipeline rp base_url now_utc t = (Ok tt, t').
Proof.
  intros [H0 [H1 [Hr [H2 [H3 [Hl [H4 H5]]]]]]].
  unfold pipeline, _ensure_robots, _ensure_rss, _ensure_sitemap,
    _ensure_netlify_overrides, _write_text, bind, lift, get.
  rewrite H0, H1, Hr, H2, H3, Hl.
  fold (redirects_text (rule_lines r)). rewrite H4.
  fold headers_text. exact H5.
Qed.

End Run.

(** ** When a run succeeds *)

Section RunTotal.

Variable rp : repo.
Variable base_url : string.
Variable now_utc : datetime.

Lemma write_file_total (t : node) (name : string) (d : list byte) :
  writable t name = true -> exists t', write_file name d t = (Ok tt, t').
Proof.
  intros H. destruct (write_file_ok t name d H) as [es [_ Hw]]. eauto.
Qed.

Lemma writable_is_dir (t : node) (name : string) :
  writable t name = true -> Fs.is_dir t = true.
Proof. destruct t; [discriminate | reflexivity]. Qed.

Lemma redirects_lines_total (t : node) :
  Fs.is_dir t = true -> exists lines, redirects_lines t = Ok lines.
Proof.
  destruct t as [d|es]; [discriminate|]. intros _.
  unfold redirects_lines. simpl. eauto.
Qed.

Lemma pipeline_total (t : node) :
  run_ready rp t = true ->
  is_ok (rss_element rp base_url now_utc) = true ->
  exists t', pipeline rp base_url now_utc t = (Ok tt, t').
Proof.
  unfold run_ready. intros Hr Hrss. apply andb_true_iff in Hr as [Hw Hf].
  rewrite forallb_forall in Hw.
  assert (Hd : Fs.is_dir t = true).
  { apply writable_is_dir with "robots.txt". apply Hw. simpl. tauto. }
  destruct (copy_root_tokens_total rp t Hd Hf) as [t0 H0].
  destruct (copy_root_tokens_inv _ _ _ H0) as [_ [Hs0 _]].
  destruct (write_file_total t0 "robots.txt" (utf8 (robots_text base_url)))
    as [s0 H1]; [apply Hs0, Hw; simpl; tauto|].
  pose proof (write_file_stays_writable _ _ _ _ H1) as Hs1.
  destruct (rss_element rp base_url now_utc) as [doc|e] eqn:Er; [|discriminate].
  pose proof (rss_element_ok _ _ _ _ Er) as ->.
  destruct (write_file_total s0 "rss.xml" (Xml.document (rss_of now_utc rp base_url)))
    as [s1 H2]; [apply Hs1, Hs0, Hw; simpl; tauto|].
  pose proof (write_file_stays_writable _ _ _ _ H2) as Hs2.
  destruct (write_file_total s1 "sitemap.xml"
              (Xml.document (sitemap_element s1 base_url now_utc)))
    as [s2 H3]; [apply Hs2, Hs1, Hs0, Hw; simpl; tauto|].
  pose proof (write_file_stays_writable _ _ _ _ H3) as Hs3.
  assert (Hw2 : forall n, In n targets -> writable s2 n = true).
  { intros n Hn. apply Hs3, Hs2, Hs1, Hs0, Hw, Hn. }
  destruct (redirects_lines_total s2) as [lines Hl].
  { apply writable_is_dir with "_redirects". apply Hw2. simpl. tauto. }
  destruct (write_file_total s2 "_redirects" (utf8 (redirects_text lines)))
    as [s3 H4]; [apply Hw2; simpl; tauto|].
  pose proof (write_file_stays_writable _ _ _ _ H4) as Hs4.
  destruct (write_file_total s3 "_headers" (utf8 headers_text))
    as [t' H5]; [apply Hs4, Hw2; simpl; tauto|].
  exists t'.
  apply pipeline_intro with
      {| after_tokens := t0; after_robots := s0; after_rss := s1;
         after_sitemap := s2; after_redirects := s3; rule_lines := lines |}.
  unfold run_steps. simpl. repeat split; assumption.
Qed.

End RunTotal.

(** ** A missing or unparsable enrichment index *)

Section NoEnrichment.

Variable now_utc : datetime.

Lemma record_of_empty (u : string) : record_of (JDict []) u = JDict [].
Proof. reflexivity. Qed.

Lemma items_index_absent (rp : repo) :
  enriched_json rp = Missing \/ enriched_json rp = Unparsable ->
  items_index rp = JDict [].
Proof.
  unfold items_index, _load_enriched. now intros [-> | ->].
Qed.

Lemma rss_absent (rp : repo) (base_url : string) :
  is_ok (_read_recent_urls rp 50) = true ->
  enriched_json rp = Missing \/ enriched_json rp = Unparsable ->
  rss_element rp base_url now_utc = Ok (rss_of now_utc rp base_url)
  /\ feed_items (rss_of now_utc rp base_url)
     = map (fun u => item_element u u u now_utc) (rev (recent_urls rp 50)).
Proof.
  intros Hr H. pose proof (items_index_absent rp H) as Hi. split.
  - apply rss_element_total; [exact Hr|].
    rewrite Hi. apply Forall_forall. now intros u _.
  - rewrite feed_items_rss_of, Hi. reflexivity.
Qed.

End NoEnrichment.

(** With the enrichment index missing or unparsable (reading or parsing
    raises inside [_load_enriched]) and a reader that returns, the feed is
    built and every item has its URL as title, link and description; the
    feed step writes it whenever [rss.xml] can be written, and a run that is
    ready succeeds.  For any index, an item of a built feed for which the
    index offers no title has its URL as title, and one for which it offers
    no summary or description has its URL as description. *)
Lemma enrichment_absent_degrades :
  (forall rp base_url now_utc urls,
      _read_recent_urls rp 50 = Ok urls ->
      enriched_json rp = Missing \/ enriched_json rp = Unparsable ->
      rss_element rp base_url now_utc = Ok (rss_of now_utc rp base_url)
      /\ feed_items (rss_of now_utc rp base_url)
         = map (fun u => item_element u u u now_utc) (rev urls)
      /\ (forall t, writable t "rss.xml" = true ->
            exists t', _ensure_rss rp base_url now_utc t = (Ok tt, t')
                       /\ Fs.child t' "rss.xml"
                          = Some (File (Xml.document (rss_of now_utc rp base_url))))
      /\ (forall t, run_ready rp t = true ->
            exists t', pipeline rp base_url now_utc t = (Ok tt, t')))
  /\ (forall rp base_url now_utc doc,
         rss_element rp base_url now_utc = Ok doc ->
         Forall (fun it =>
                   exists u, Xml.findtext "link" it = Some u
                     /\ (enrichment_title (items_index rp) u = None ->
                         Xml.findtext "title" it = Some u)
                     /\ (enrichment_desc (items_index rp) u = None ->
                         Xml.findtext "description" it = Some u))
                (feed_items doc)).
Proof.
  split.
  - intros rp base_url now_utc urls Hread H.
    assert (Hok : is_ok (_read_recent_urls rp 50) = true) by now rewrite Hread.
    destruct (rss_absent now_utc rp base_url Hok H) as [Hr Hi].
    rewrite (read_ok _ _ _ Hread) in Hi.
    split; [exact Hr|]. split; [exact Hi|]. split.
    + intros t Hw. unfold _ensure_rss, bind, lift. rewrite Hr.
      destruct (write_file_ok _ _ (Xml.document (rss_of now_utc rp base_url)) Hw)
        as [es [-> Hwr]].
      eexists. split; [exact Hwr|]. simpl. rewrite lookup_update. reflexivity.
    + intros t Hready. apply pipeline_total; [exact Hready | now rewrite Hr].
  - intros rp base_url now_utc doc H. apply rss_element_ok in H. subst doc.
    rewrite feed_items_rss_of. apply Forall_forall. intros it Hit.
    apply in_map_iff in Hit as [u [<- _]]. exists u.
    unfold item_for. split; [reflexivity|].
    split; intros ->; reflexivity.
Qed.

(** An unparsable index on the sample tree: the run succeeds and the three
    items carry their URLs. *)
Example unparsable_index_run :
  (exists t', pipeline absent_repo "https://x" sample_now sample_tree = (Ok tt, t'))
  /\ feed_items (rss_of sample_now absent_repo "https://x")
     = map (fun u => item_element u u u sample_now)
           ["https://x/c"; "https://x/b"; "https://x/a"].
Proof.
  destruct enrichment_absent_degrades as [H _].
  destruct (H absent_repo "https://x" sample_now
              ["https://x/a"; "https://x/b"; "https://x/c"] eq_refl
              (or_intror eq_refl)) as [_ [Hi [_ Hrun]]].
  split; [apply Hrun; reflexivity | exact Hi].
Qed.

(** C8, on a parsed index whose record for a logged URL is not an object.
    The file is valid JSON and passes the two [isinstance] guards of
    [_ensure_rss]; the third level is not guarded, [meta] is [None] and
    [meta.get] raises.  On a tree that is ready for writing, [main] has
    written [robots.txt], then fails with [AttributeError] and exit status
    1: the enrichment index causes the run to fail. *)
Theorem null_record_fails_the_run :
  run_ready null_record_repo sample_tree = true
  /\ Js.isinstance_dict (_load_enriched null_record_repo) = true
  /\ Js.isinstance_dict (items_index null_record_repo) = true
  /\ record_of (items_index null_record_repo) "https://x/b" = JNull
  /\ main (fun p => p) ["netlify_fix.py"; "site"; "https://x"]
          (Some sample_tree) null_record_repo sample_now
     = (Raise AttributeError,
        Some (Dir [("index.html", File []);
                   ("d", Dir [("2026-11-04.html", File [])]);
                   ("about.html", File []);
                   ("robots.txt", File (utf8 (robots_text "https://x")))]))
  /\ exit_status
       (fst (main (fun p => p) ["netlify_fix.py"; "site"; "https://x"]
                  (Some sample_tree) null_record_repo sample_now)) = 1.
Proof. repeat split; vm_compute; reflexivity. Qed.

(** A record that is not a dict is outside the cases above: the item loop
    raises on it. *)
Example feed_item_non_dict_record :
  feed_item (JDict [("https://x/a", JStr "oops")]) sample_now "https://x/a"
  = Raise AttributeError.
Proof. reflexivity. Qed.

(** ** HTML files and the sitemap *)

Section HtmlFiles.

Lemma has_slash_append (a b : string) : has_slash (a ++ "/" ++ b) = true.
Proof.
  unfold has_slash. induction a as [|c a IH]; simpl in *; [reflexivity|].
  rewrite IH. apply orb_true_r.
Qed.

Lemma as_posix_index (p : list string) :
  Fs.as_posix p = "index.html" -> p = ["index.html"].
Proof.
  destruct p as [|n [|m r]]; unfold Fs.as_posix, Str.join; simpl.
  - discriminate.
  - now intros ->.
  - intros H. pose proof (has_slash_append n (String.concat "/" (m :: r))) as Hs.
    simpl in Hs. simpl in H. rewrite H in Hs. discriminate.
Qed.

Lemma exists_child (t : node) (name : string) :
  Fs.exists_ t name = true -> exists c, Fs.child t name = Some c.
Proof.
  unfold Fs.exists_. destruct (Fs.child t name) as [c|]; [eauto | discriminate].
Qed.

Lemma child_exists (t c : node) (name : string) :
  Fs.child t name = Some c -> Fs.exists_ t name = true.
Proof. unfold Fs.exists_. now intros ->. Qed.

(** A path to an entry whose name ends in [.html] is reported. *)
Lemma html_path_collected (t c : node) (base_url : string) (p : list string) :
  p <> [] -> Fs.resolve t p = Some c ->
  Fs.fnmatch_html (last p EmptyString) = true ->
  (Fs.as_posix p <> "index.html" ->
   In (base_url ++ "/" ++ Fs.as_posix p) (_collect_internal_pages t base_url))
  /\ (Fs.as_posix p = "index.html" ->
      p = ["index.html"] /\ In (base_url ++ "/") (_collect_internal_pages t base_url)).
Proof.
  intros Hne Hr Hm. split.
  - intros Hp. apply collect_in. right; left. exists p.
    split; [now apply rglob_complete with c|]. now split.
  - intros Hp. apply as_posix_index in Hp. split; [exact Hp|]. subst p.
    apply collect_in. left. split; [|reflexivity].
    simpl in Hr. destruct (Fs.child t "index.html") as [k|] eqn:E; [|discriminate].
    now apply child_exists with k.
Qed.

Lemma google_name_collected (t : node) (base_url name : string) :
  glob_google_html name = true -> Fs.exists_ t name = true ->
  In (base_url ++ "/" ++ name) (_collect_internal_pages t base_url).
Proof.
  intros Hg He. apply exists_child in He as [c Hc].
  apply andb_true_iff in Hg as [Hpre Hsuf].
  assert (Hn : name <> "index.html").
  { intros ->. discriminate. }
  destruct (html_path_collected t c base_url [name]) as [H _].
  - discriminate.
  - simpl. now rewrite Hc.
  - exact Hsuf.
  - apply H. exact Hn.
Qed.

End HtmlFiles.

(** C10. Every entry of the output tree whose name ends in [.html], at any
    depth, is reported by the collector as [base_url/] followed by its
    relative path (the root [index.html] as [base_url/]) and is an entry of
    the sitemap; and after a successful run the written sitemap lists every
    [google*.html] token of the documentation directory. *)
Theorem html_files_are_listed :
  (forall t c base_url now_utc p,
      p <> [] -> Fs.resolve t p = Some c ->
      Fs.fnmatch_html (last p EmptyString) = true ->
      (Fs.as_posix p <> "index.html" ->
       In (base_url ++ "/" ++ Fs.as_posix p) (_collect_internal_pages t base_url)
       /\ In (Some (base_url ++ "/" ++ Fs.as_posix p))
             (map (Xml.findtext "loc")
                  (Xml.children (sitemap_element t base_url now_utc))))
      /\ (Fs.as_posix p = "index.html" ->
          p = ["index.html"]
          /\ In (base_url ++ "/") (_collect_internal_pages t base_url)))
  /\ (forall rp base_url now_utc t t' e,
         pipeline rp base_url now_utc t = (Ok tt, t') ->
         In e (token_entries rp) -> glob_google_html (fst e) = true ->
         exists s,
           Fs.child t' "sitemap.xml"
           = Some (File (Xml.document (sitemap_element s base_url now_utc)))
           /\ In (Some (base_url ++ "/" ++ fst e))
                 (map (Xml.findtext "loc")
                      (Xml.children (sitemap_element s base_url now_utc)))).
Proof.
  split.
  - intros t c base_url now_utc p Hne Hr Hm.
    destruct (html_path_collected t c base_url p Hne Hr Hm) as [H1 H2].
    split; [|exact H2].
    intros Hp. split; [now apply H1|].
    rewrite sitemap_locs. apply in_map. now apply H1.
  - intros rp base_url now_utc t t' e Hrun He Hg.
    apply pipeline_inv in Hrun as [r [H0 [H1 [_ [H2 [H3 [_ [H4 H5]]]]]]]].
    exists (after_rss r). split.
    + rewrite (write_file_child _ _ _ _ "sitemap.xml" H5). simpl.
      rewrite (write_file_child _ _ _ _ "sitemap.xml" H4). simpl.
      rewrite (write_file_child _ _ _ _ "sitemap.xml" H3). reflexivity.
    + rewrite sitemap_locs. apply in_map.
      apply google_name_collected; [exact Hg|].
      apply (write_file_grows _ _ _ _ H2), (write_file_grows _ _ _ _ H1).
      apply copy_root_tokens_inv in H0 as [_ [_ Ht]]. now apply Ht.
Qed.

Lemma html_files_are_listed_witness :
  In ("https://x.org" ++ "/" ++ Fs.as_posix ["d"; "2026-11-04.html"])
     (_collect_internal_pages sample_tree "https://x.org")
  /\ exists t' s,
      pipeline token_repo "https://x.org" sample_now sample_tree = (Ok tt, t')
      /\ In (Some "https://x.org/google1234.html")
            (map (Xml.findtext "loc")
                 (Xml.children (sitemap_element s "https://x.org" sample_now))).
Proof.
  destruct html_files_are_listed as [H1 H2]. split.
  - destruct (H1 sample_tree (File []) "https://x.org" sample_now
                 ["d"; "2026-11-04.html"]) as [H _];
      [discriminate | reflexivity | reflexivity |].
    assert (Hp : Fs.as_posix ["d"; "2026-11-04.html"] <> "index.html")
      by discriminate.
    exact (proj1 (H Hp)).
  - destruct (pipeline_total token_repo "https://x.org" sample_now sample_tree)
      as [t' Ht]; [reflexivity | reflexivity |].
    destruct (H2 token_repo "https://x.org" sample_now sample_tree t'
                 ("google1234.html", File []) Ht) as [s [_ Hs]];
      [simpl; tauto | reflexivity |].
    exists t', s. split; [exact Ht | exact Hs].
Defined.

(** ** Key-file and verification-file names *)

Section Names.

Lemma rev_acc_app (s acc : string) : Str.rev_acc s acc = Str.rev s ++ acc.
Proof.
  unfold Str.rev. revert acc. induction s as [|c s IH]; intros acc; simpl.
  - reflexivity.
  - rewrite (IH (String c acc)), (IH (String c EmptyString)), append_assoc.
    reflexivity.
Qed.

Lemma rev_append (a b : string) : Str.rev (a ++ b) = Str.rev b ++ Str.rev a.
Proof.
  induction a as [|c a IH]; simpl.
  - now rewrite append_nil_r.
  - unfold Str.rev in *. simpl.
    rewrite (rev_acc_app (a ++ b)), (rev_acc_app a). unfold Str.rev.
    rewrite IH, append_assoc. reflexivity.
Qed.

Lemma lower_append (a b : string) : Str.lower (a ++ b) = Str.lower a ++ Str.lower b.
Proof. induction a as [|c a IH]; simpl; [reflexivity | now rewrite IH]. Qed.

Lemma match_hex_split (k : nat) (s rest : string) :
  match_hex k s = Some rest ->
  exists h, s = h ++ rest /\ String.length h = k.
Proof.
  revert s. induction k as [|k IH]; intros s; simpl.
  - intros H. injection H as ->. now exists EmptyString.
  - destruct s as [|c s]; [discriminate|].
    destruct (is_hex c); [|discriminate].
    intros H. destruct (IH _ H) as [h [-> Hl]].
    exists (String c h). simpl. now rewrite Hl.
Qed.

Lemma match_hex_complete (h rest : string) :
  forallb is_hex (chars h) = true ->
  match_hex (String.length h) (h ++ rest) = Some rest.
Proof.
  induction h as [|c h IH]; simpl; [reflexivity|].
  intros H. apply andb_true_iff in H as [Hc Hh]. rewrite Hc. now apply IH.
Qed.

(** The names the pattern accepts. *)
Lemma key_match_shape (fn : string) :
  INDEXNOW_KEY_RE_match fn = true ->
  exists h ext rest,
    fn = h ++ ext ++ rest /\ String.length h = 32%nat
    /\ String.length ext = 4%nat /\ Str.lower ext = ".txt"
    /\ (rest = EmptyString \/ rest = Xml.nl).
Proof.
  unfold INDEXNOW_KEY_RE_match.
  destruct (match_hex 32 fn) as [r|] eqn:E; [|discriminate].
  apply match_hex_split in E as [h [-> Hl]].
  destruct r as [|c1 r]; [discriminate|].
  destruct r as [|c2 r]; [discriminate|].
  destruct r as [|c3 r]; [discriminate|].
  destruct r as [|c4 rest]; [discriminate|].
  intros H.
  apply andb_true_iff in H as [H Hr]. apply andb_true_iff in H as [H H4].
  apply andb_true_iff in H as [H H3]. apply andb_true_iff in H as [H1 H2].
  apply Ascii.eqb_eq in H1, H2, H3, H4. subst c1.
  exists h, (String "." (String c2 (String c3 (String c4 EmptyString)))), rest.
  repeat split; try assumption.
  - simpl. now rewrite H2, H3, H4.
  - apply orb_true_iff in Hr as [Hr|Hr]; apply String.eqb_eq in Hr; auto.
Qed.

Lemma key_match_lowercase_hex (h : string) :
  String.length h = 32%nat -> forallb is_hex (chars h) = true ->
  INDEXNOW_KEY_RE_match (h ++ ".txt") = true.
Proof.
  intros Hl Hh. unfold INDEXNOW_KEY_RE_match.
  rewrite <- Hl, (match_hex_complete h ".txt" Hh). reflexivity.
Qed.

Lemma key_not_google (fn : string) :
  INDEXNOW_KEY_RE_match fn = true -> is_google_html fn = false.
Proof.
  intros H.
  apply key_match_shape in H as [h [ext [rest [-> [_ [_ [He Hr]]]]]]].
  unfold is_google_html, Str.endswith. apply andb_false_iff. right.
  rewrite !lower_append, He, rev_append.
  destruct Hr as [-> | ->]; reflexivity.
Qed.

Lemma key_match_length (fn : string) :
  INDEXNOW_KEY_RE_match fn = true -> (36 <= String.length fn)%nat.
Proof.
  intros H. apply key_match_shape in H as [h [ext [rest [-> [Hl [He _]]]]]].
  rewrite !append_length, Hl, He. lia.
Qed.

Lemma rule_length (fn : string) :
  String.length (rule fn) = (2 * String.length fn + 7)%nat.
Proof.
  unfold rule. simpl. rewrite append_length. simpl. rewrite append_length.
  simpl. lia.
Qed.

Lemma rule_inj (a b : string) : rule a = rule b -> a = b.
Proof.
  intros H. assert (Hl : String.length a = String.length b).
  { pose proof (f_equal String.length H) as Hlen. rewrite !rule_length in Hlen. lia. }
  unfold rule in H. simpl in H. injection H as H.
  now destruct (append_eq_len _ _ _ _ Hl H).
Qed.

End Names.

Example key_name_ex :
  INDEXNOW_KEY_RE_match "a1b2c3d4e5f6a7b8c9d0e1f2a3b4c5d6.txt" = true
  /\ INDEXNOW_KEY_RE_match "A1B2C3D4E5F6A7B8C9D0E1F2A3B4C5D6.TXT" = true
  /\ INDEXNOW_KEY_RE_match "notakey.txt" = false
  /\ INDEXNOW_KEY_RE_match "a1b2c3d4e5f6a7b8c9d0e1f2a3b4c5d.txt" = false.
Proof. repeat split; reflexivity. Qed.

(** ** The rewrite rules *)

Section Rules.

Lemma str_le_trans (a b c : string) : str_le a b -> str_le b c -> str_le a c.
Proof.
  unfold str_le. intros H1 H2.
  destruct (String.eqb_spec a b) as [->|Hab]; [exact H2|].
  destruct (String.eqb_spec b c) as [<-|Hbc]; [exact H1|].
  pose proof (str_lt_trans _ _ _ (leb_neq_lt _ _ H1 Hab) (leb_neq_lt _ _ H2 Hbc)) as H.
  unfold str_lt, String.ltb in H. unfold String.leb.
  now destruct (String.compare a c).
Qed.

Lemma leb_false_le (a b : string) : String.leb a b = false -> str_le b a.
Proof.
  intros H. apply leb_false_lt in H. unfold str_lt, String.ltb in H.
  unfold str_le, String.leb. now destruct (String.compare b a).
Qed.

Lemma insert_le_sorted (x : string) (l : list string) :
  StronglySorted str_le l -> StronglySorted str_le (Py.insert x l).
Proof.
  induction l as [|y l IH]; simpl; intros Hs.
  - constructor; constructor.
  - apply StronglySorted_inv in Hs as [Hs Hy].
    destruct (String.leb x y) eqn:E.
    + constructor; [now constructor|].
      constructor; [exact E|].
      eapply Forall_impl; [|exact Hy]. intros z Hz. now apply str_le_trans with y.
    + constructor; [now apply IH|].
      apply Forall_forall. intros z Hz. apply insert_in in Hz as [->|Hz].
      * now apply leb_false_le.
      * rewrite Forall_forall in Hy. now apply Hy.
Qed.

(** [sorted] returns its argument in ascending order. *)
Lemma sorted_le_sorted (l : list string) : StronglySorted str_le (Py.sorted l).
Proof.
  induction l as [|x l IH]; simpl; [constructor | now apply insert_le_sorted].
Qed.

Lemma filter_strongly_sorted {A} (R : A -> A -> Prop) (f : A -> bool) (l : list A) :
  StronglySorted R l -> StronglySorted R (filter f l).
Proof.
  induction 1 as [|x l Hs IH Hx]; simpl; [constructor|].
  destruct (f x); [|exact IH].
  constructor; [exact IH|].
  apply Forall_forall. intros y Hy. apply filter_In in Hy as [Hy _].
  rewrite Forall_forall in Hx. now apply Hx.
Qed.

Lemma token_loop (l acc : list string) :
  fold_left
    (fun lines fn =>
       let lines :=
         if is_google_html fn then (lines ++ [rule fn])%list else lines in
       if INDEXNOW_KEY_RE_match fn then (lines ++ [rule fn])%list else lines)
    l acc
  = (acc ++ map rule (filter is_token_name l))%list.
Proof.
  revert acc. induction l as [|fn l IH]; intros acc; simpl.
  - now rewrite app_nil_r.
  - rewrite IH. unfold is_token_name.
    destruct (INDEXNOW_KEY_RE_match fn) eqn:Ek.
    + rewrite (key_not_google fn Ek). simpl. now rewrite <- app_assoc.
    + rewrite orb_false_r. destruct (is_google_html fn); simpl;
        [now rewrite <- app_assoc | reflexivity].
Qed.

(** The rule list is the three parts in order. *)
Lemma redirects_lines_dir (es : list (string * node)) :
  redirects_lines (Dir es)
  = Ok (fold_left
          (fun lines fn =>
             let lines :=
               if is_google_html fn then (lines ++ [rule fn])%list else lines in
             if INDEXNOW_KEY_RE_match fn then (lines ++ [rule fn])%list else lines)
          (Py.sorted (file_names es))
          (let lines :=
             fold_left
               (fun lines fn =>
                  if Fs.exists_ (Dir es) fn then (lines ++ [rule fn])%list
                  else lines)
               must_files [] in
           if Fs.exists_ (Dir es) "d" then (lines ++ [daily_rule])%list else lines)).
Proof. reflexivity. Qed.

Lemma redirects_lines_dir_parts (es : list (string * node)) :
  redirects_lines (Dir es)
  = Ok (must_part (Dir es) ++ daily_part (Dir es) ++ token_part (Dir es))%list.
Proof.
  rewrite redirects_lines_dir. f_equal.
  rewrite token_loop.
  rewrite (fold_append_filter (Fs.exists_ (Dir es)) rule must_files []).
  unfold must_part, daily_part, token_part. simpl root_file_names.
  cbv zeta. rewrite app_nil_l.
  destruct (Fs.exists_ (Dir es) "d"); [|now rewrite app_nil_l].
  now rewrite <- app_assoc.
Qed.

Lemma redirects_lines_parts (t : node) (lines : list string) :
  redirects_lines t = Ok lines ->
  lines = (must_part t ++ daily_part t ++ token_part t)%list.
Proof.
  destruct t as [d|es]; [discriminate|].
  rewrite redirects_lines_dir_parts. congruence.
Qed.

Lemma in_lookup (name : string) (c : node) (es : list (string * node)) :
  In (name, c) es -> exists c', Fs.lookup name es = Some c'.
Proof.
  induction es as [|[n k] es IH]; simpl; [tauto|].
  intros [H|H].
  - injection H as -> ->. rewrite String.eqb_refl. eauto.
  - destruct (String.eqb n name); eauto.
Qed.

Lemma root_file_exists (t : node) (fn : string) :
  In fn (root_file_names t) -> Fs.exists_ t fn = true.
Proof.
  destruct t as [d|es]; simpl; [tauto|].
  unfold file_names. intros H. apply in_map_iff in H as [[n c] [Hn Hin]].
  simpl in Hn. subst n. apply filter_In in Hin as [Hin _].
  apply in_lookup in Hin as [c' Hc]. unfold Fs.exists_. simpl. now rewrite Hc.
Qed.

Lemma must_not_daily (fn : string) : In fn must_files -> rule fn <> daily_rule.
Proof.
  intros H. simpl in H.
  repeat (destruct H as [<-|H]; [discriminate|]). destruct H.
Qed.

(** A rule for a name is in the list only if the name exists. *)
Lemma rule_in_exists (t : node) (fn : string) :
  rule fn <> daily_rule ->
  In (rule fn) (must_part t ++ daily_part t ++ token_part t)%list ->
  Fs.exists_ t fn = true.
Proof.
  intros Hd H. apply in_app_or in H as [H|H]; [|apply in_app_or in H as [H|H]].
  - unfold must_part in H. apply in_map_iff in H as [g [Hg Hin]].
    apply rule_inj in Hg. subst g. now apply filter_In in Hin.
  - unfold daily_part in H. destruct (Fs.exists_ t "d"); [|destruct H].
    destruct H as [H|[]]. congruence.
  - unfold token_part in H. apply in_map_iff in H as [g [Hg Hin]].
    apply rule_inj in Hg. subst g. apply filter_In in Hin as [Hin _].
    apply (proj1 (sorted_in _ _)) in Hin. now apply root_file_exists.
Qed.

End Rules.

Section Emitter.

(** The emitter computes the rule lines from the tree it is run on, writes
    them to [_redirects], and then writes [_headers]. *)
Lemma overrides_inv (t t' : node) :
  _ensure_netlify_overrides t = (Ok tt, t') ->
  exists es lines s,
    t = Dir es
    /\ redirects_lines t = Ok lines
    /\ write_file "_redirects" (utf8 (redirects_text lines)) t = (Ok tt, s)
    /\ write_file "_headers" (utf8 headers_text) s = (Ok tt, t').
Proof.
  unfold _ensure_netlify_overrides, _write_text. intros H.
  apply bind_ok_inv in H as [t0 [t1 [Hg H]]].
  unfold get in Hg. injection Hg as <- <-.
  apply bind_ok_inv in H as [lines [t1 [Hl H]]].
  unfold lift in Hl.
  destruct (redirects_lines t) as [ls|e] eqn:El; [|discriminate].
  injection Hl as <- <-.
  apply bind_ok_inv in H as [[] [s [H1 H2]]].
  destruct t as [d|es]; [discriminate|].
  exists es, ls, s. repeat split; assumption.
Qed.

Lemma overrides_total (t : node) :
  writable t "_redirects" = true -> writable t "_headers" = true ->
  exists t', _ensure_netlify_overrides t = (Ok tt, t').
Proof.
  intros H1 H2.
  destruct (redirects_lines_total t) as [lines Hl];
    [now apply writable_is_dir with "_redirects"|].
  destruct (write_file_total t "_redirects" (utf8 (redirects_text lines)) H1)
    as [s Hs].
  destruct (write_file_total s "_headers" (utf8 headers_text)) as [t' Ht].
  { now apply (write_file_stays_writable _ _ _ _ Hs). }
  exists t'. unfold _ensure_netlify_overrides, _write_text, bind, get, lift.
  rewrite Hl. fold (redirects_text lines). rewrite Hs. fold headers_text. exact Ht.
Qed.

(** What the emitter leaves: the rule lines in [_redirects], and every name
    other than [_redirects] and [_headers] as it was. *)
Lemma overrides_written (t t' : node) (lines : list string) :
  _ensure_netlify_overrides t = (Ok tt, t') ->
  redirects_lines t = Ok lines ->
  Fs.child t' "_redirects" = Some (File (utf8 (Str.join Xml.nl lines ++ Xml.nl)))
  /\ forall n, n <> "_redirects" -> n <> "_headers" -> Fs.child t' n = Fs.child t n.
Proof.
  intros H Hl. apply overrides_inv in H as [es [ls [s [-> [Hls [H1 H2]]]]]].
  rewrite Hl in Hls. injection Hls as <-. split.
  - rewrite (write_file_child _ _ _ _ "_redirects" H2). simpl.
    rewrite (write_file_child _ _ _ _ "_redirects" H1). reflexivity.
  - intros n N1 N2.
    rewrite (write_file_child _ _ _ _ n H2).
    destruct (String.eqb_spec "_headers" n); [congruence|].
    rewrite (write_file_child _ _ _ _ n H1).
    destruct (String.eqb_spec "_redirects" n); [congruence | reflexivity].
Qed.

Lemma file_names_nodup (es : list (string * node)) :
  NoDup (map fst es) -> NoDup (file_names es).
Proof.
  unfold file_names. induction es as [|[n c] es IH]; simpl; [constructor|].
  intros H. apply NoDup_cons_iff in H as [Hn Hd].
  destruct (Fs.is_file c); simpl; [|now apply IH].
  constructor; [|now apply IH].
  intros Hin. apply Hn. apply in_map_iff in Hin as [e [He Hin]].
  apply filter_In in Hin as [Hin _]. apply in_map_iff. eauto.
Qed.

Lemma file_names_iff (es : list (string * node)) (n : string) :
  In n (file_names es) <-> exists d, In (n, File d) es.
Proof.
  unfold file_names. rewrite in_map_iff. split.
  - intros [[m c] [Hm Hin]]. simpl in Hm. subst m.
    apply filter_In in Hin as [Hin Hf]. destruct c as [d|]; [eauto | discriminate].
  - intros [d Hin]. exists (n, File d). split; [reflexivity|].
    apply filter_In. now split.
Qed.

Lemma must_names_differ (fn : string) :
  In fn must_files -> fn <> "_redirects" /\ fn <> "_headers".
Proof.
  intros H. simpl in H.
  repeat (destruct H as [<-|H]; [split; discriminate|]). destruct H.
Qed.

(** A run is the rendering steps followed by the emitter. *)
Lemma pipeline_split (rp : repo) (base_url : string) (now_utc : datetime)
      (t t' : node) :
  pipeline rp base_url now_utc t = (Ok tt, t') ->
  exists s1 s,
    before_sitemap rp base_url now_utc t = (Ok tt, s1)
    /\ _ensure_sitemap base_url now_utc s1 = (Ok tt, s)
    /\ rendering rp base_url now_utc t = (Ok tt, s)
    /\ _ensure_netlify_overrides s = (Ok tt, t').
Proof.
  unfold pipeline, rendering, before_sitemap. intros H.
  apply bind_ok_inv in H as [[] [t0 [H0 H]]].
  apply bind_ok_inv in H as [[] [s0 [H1 H]]].
  apply bind_ok_inv in H as [[] [s1 [H2 H]]].
  apply bind_ok_inv in H as [[] [s [H3 H4]]].
  exists s1, s.
  assert (Hb : (_copy_root_tokens rp ;;; _ensure_robots base_url ;;;
                _ensure_rss rp base_url now_utc) t = (Ok tt, s1)).
  { unfold bind at 1. rewrite H0. unfold bind at 1. rewrite H1. exact H2. }
  split; [exact Hb|]. split; [exact H3|]. split; [|exact H4].
  unfold bind at 1. rewrite Hb. exact H3.
Qed.

End Emitter.


Example redirects_lines_ex :
  redirects_lines rules_tree
  = Ok ["/robots.txt /robots.txt 200"; "/index.html /index.html 200";
        "/d/* /d/:splat 200";
        "/Google123.html /Google123.html 200";
        "/a1b2c3d4e5f6a7b8c9d0e1f2a3b4c5d6.txt /a1b2c3d4e5f6a7b8c9d0e1f2a3b4c5d6.txt 200";
        "/googleXYZ.html /googleXYZ.html 200"].
Proof. reflexivity. Qed.


(** ** Key files among the rules *)

Section KeyRules.

Lemma file_names_in (es : list (string * node)) (fn : string) (d : list byte) :
  In (fn, File d) es -> In fn (file_names es).
Proof.
  intros H. unfold file_names. apply in_map_iff. exists (fn, File d).
  split; [reflexivity|]. apply filter_In. now split.
Qed.

Lemma key_not_must (fn : string) :
  INDEXNOW_KEY_RE_match fn = true -> ~ In fn must_files.
Proof.
  intros Hk H. simpl in H.
  repeat (destruct H as [<-|H]; [discriminate|]). destruct H.
Qed.

Lemma key_rule_not_daily (fn : string) :
  INDEXNOW_KEY_RE_match fn = true -> rule fn <> daily_rule.
Proof.
  intros Hk H. apply key_match_length in Hk.
  pose proof (f_equal String.length H) as Hl. rewrite rule_length in Hl.
  simpl in Hl. lia.
Qed.

Lemma token_rule_count (t : node) (fn : string) :
  NoDup (root_file_names t) -> In fn (root_file_names t) ->
  is_token_name fn = true ->
  count_occ string_dec (token_part t) (rule fn) = 1%nat.
Proof.
  intros Hd Hin Ht. unfold token_part.
  rewrite <- (count_occ_map rule string_dec string_dec rule_inj).
  apply NoDup_count_occ'.
  - apply NoDup_filter, sorted_nodup, Hd.
  - apply filter_In. split; [now apply sorted_in | exact Ht].
Qed.

Lemma no_rule_without_cause (t : node) (fn : string) :
  ~ In fn must_files -> rule fn <> daily_rule -> is_token_name fn = false ->
  ~ In (rule fn) (must_part t ++ daily_part t ++ token_part t)%list.
Proof.
  intros Hm Hd Ht H.
  apply in_app_or in H as [H|H]; [|apply in_app_or in H as [H|H]].
  - unfold must_part in H. apply in_map_iff in H as [g [Hg Hin]].
    apply rule_inj in Hg. subst g. now apply filter_In in Hin.
  - unfold daily_part in H. destruct (Fs.exists_ t "d"); [|destruct H].
    destruct H as [H|[]]. congruence.
  - unfold token_part in H. apply in_map_iff in H as [g [Hg Hin]].
    apply rule_inj in Hg. subst g. apply filter_In in Hin as [_ Hin]. congruence.
Qed.

End KeyRules.



(** ** Usage errors *)

(** C9. On a usage error [main] raises [SystemExit] with one of its three
    messages, the exit status is 1, and the state of OUT_DIR is what it was:
    nothing is created or modified. *)
Theorem usage_error_exits_without_writing
        (resolve : string -> string) (argv : list string) (out : option node)
        (rp : repo) (now_utc : datetime) :
  usage_error argv out ->
  exists msg,
    main resolve argv out rp now_utc = (Raise (SystemExit msg), out)
    /\ In msg [usage_message;
               "OUT_DIR not found: " ++ resolve (nth 1 argv EmptyString);
               "BASE_URL must start with http(s)"]
    /\ Str.nonempty msg = true
    /\ exit_status (fst (main resolve argv out rp now_utc)) = 1
    /\ snd (main resolve argv out rp now_utc) = out.
Proof.
  intros H. unfold main.
  destruct (List.length argv <? 3)%nat eqn:El.
  - exists usage_message. simpl. repeat split; auto.
  - apply Nat.ltb_ge in El.
    destruct out as [t|].
    + destruct H as [H|[H|H]]; [lia | discriminate |].
      rewrite H. simpl.
      exists "BASE_URL must start with http(s)". simpl. repeat split; auto.
    + exists ("OUT_DIR not found: " ++ resolve (nth 1 argv EmptyString)).
      simpl. repeat split; auto.
Qed.

Lemma usage_error_exits_without_writing_witness :
  exists msg,
    main (fun p => "/srv/" ++ p) ["netlify_fix.py"; "site"; "ftp://x.org/"]
         (Some sample_tree) token_repo sample_now
    = (Raise (SystemExit msg), Some sample_tree).
Proof.
  destruct (usage_error_exits_without_writing
              (fun p => "/srv/" ++ p) ["netlify_fix.py"; "site"; "ftp://x.org/"]
              (Some sample_tree) token_repo sample_now) as [msg [H _]].
  - right; right. reflexivity.
  - exists msg. exact H.
Defined.

(** When there is no usage error, [main] runs the pipeline on the tree. *)
Lemma main_runs_pipeline
      (resolve : string -> string) (argv : list string) (t : node)
      (rp : repo) (now_utc : datetime) :
  (3 <= List.length argv)%nat ->
  Str.startswith (_norm_base_url (nth 2 argv EmptyString)) "http" = true ->
  main resolve argv (Some t) rp now_utc
  = match pipeline rp (_norm_base_url (nth 2 argv EmptyString)) now_utc t with
    | (Ok _, t') =>
      (Ok ("Netlify fix done: " ++ resolve (nth 1 argv EmptyString)), Some t')
    | (Raise e, t') => (Raise e, Some t')
    end.
Proof.
  intros Hl Hb. unfold main.
  destruct (Nat.ltb_spec (List.length argv) 3); [lia|].
  now rewrite Hb.
Qed.

(** ** The paths of the walk *)

Section PathShape.

(** Induction on trees, with the hypothesis for every entry of a directory. *)
Lemma node_induction (P : node -> Prop) :
  (forall d, P (File d)) ->
  (forall es, Forall (fun e => P (snd e)) es -> P (Dir es)) ->
  forall t, P t.
Proof.
  intros HF HD.
  refine (fix IH (t : node) : P t :=
            match t with
            | File d => HF d
            | Dir es =>
              HD es ((fix go (l : list (string * node))
                      : Forall (fun e => P (snd e)) l :=
                        match l with
                        | [] => Forall_nil _
                        | e :: r => Forall_cons e (IH (snd e)) (go r)
                        end) es)
            end).
Qed.

(** The walk yields non-empty paths whose last segment ends in [.html]. *)
Lemma rglob_sound (t : node) :
  forall p, In p (Fs.rglob_html t) ->
            p <> [] /\ Fs.fnmatch_html (last p EmptyString) = true.
Proof.
  induction t as [d|es IH] using node_induction; intros p Hp; [destruct Hp|].
  rewrite rglob_dir in Hp.
  induction es as [|[n c] es IHes]; simpl in Hp; [destruct Hp|].
  apply Forall_cons_iff in IH as [Hc Hes].
  apply in_app_or in Hp as [Hp|Hp]; [|apply in_app_or in Hp as [Hp|Hp]].
  - destruct (Fs.fnmatch_html n) eqn:E; [|destruct Hp].
    destruct Hp as [<-|[]]. split; [discriminate | exact E].
  - apply in_map_iff in Hp as [q [<- Hq]].
    destruct (Hc q Hq) as [Hne Hm]. split; [discriminate|].
    destruct q as [|m q]; [congruence | exact Hm].
  - now apply IHes.
Qed.

Lemma prefix_app (a b c : string) :
  String.prefix a b = true -> String.prefix a (b ++ c) = true.
Proof.
  revert a. induction b as [|y b IH]; intros [|x a]; simpl.
  - intros _. now destruct c.
  - discriminate.
  - reflexivity.
  - destruct (ascii_dec x y); [apply IH | discriminate].
Qed.

Lemma prefix_self_app (a b : string) : String.prefix a (a ++ b) = true.
Proof.
  induction a as [|x a IH]; simpl; [now destruct b|].
  destruct (ascii_dec x x); [exact IH | congruence].
Qed.

Lemma endswith_app (x y suffix : string) :
  Str.endswith y suffix = true -> Str.endswith (x ++ y) suffix = true.
Proof.
  unfold Str.endswith. rewrite rev_append. apply prefix_app.
Qed.

Lemma as_posix_endswith (p : list string) (suffix : string) :
  p <> [] -> Str.endswith (last p EmptyString) suffix = true ->
  Str.endswith (Fs.as_posix p) suffix = true.
Proof.
  unfold Fs.as_posix, Str.join.
  induction p as [|n p IH]; [congruence|]. intros _ H.
  destruct p as [|m p]; [exact H|].
  change (String.concat "/" (n :: m :: p))
    with (n ++ "/" ++ String.concat "/" (m :: p)).
  rewrite <- append_assoc. apply endswith_app, IH; [discriminate | exact H].
Qed.

End PathShape.

(** ** A second run *)

Section SecondRun.

Variable rp : repo.
Variable base_url : string.

(** Whether an item can be built does not depend on the clock. *)
Lemma feed_item_clock (enriched : json) (n1 n2 : datetime) (u : string) :
  is_ok (feed_item enriched n1 u) = is_ok (feed_item enriched n2 u).
Proof.
  unfold feed_item, rbind.
  repeat match goal with
         | |- context [match ?x with _ => _ end] => destruct x
         end; reflexivity.
Qed.

Lemma feed_loop_clock (enriched : json) (n1 n2 : datetime) (us : list string) :
  forall ch1 ch2,
    is_ok (feed_loop enriched n1 us ch1) = is_ok (feed_loop enriched n2 us ch2).
Proof.
  induction us as [|u us IH]; intros ch1 ch2; simpl; [reflexivity|].
  pose proof (feed_item_clock enriched n1 n2 u) as H.
  destruct (feed_item enriched n1 u), (feed_item enriched n2 u);
    simpl in *; try discriminate; [apply IH | reflexivity].
Qed.

Lemma rss_element_clock (n1 n2 : datetime) :
  is_ok (rss_element rp base_url n1) = true ->
  rss_element rp base_url n2 = Ok (rss_of n2 rp base_url).
Proof.
  intros H.
  assert (H2 : is_ok (rss_element rp base_url n2) = true).
  { revert H. unfold rss_element.
    destruct (_read_recent_urls rp 50) as [urls|e0]; simpl; [|discriminate].
    rewrite load_items. simpl.
    pose proof (feed_loop_clock (items_index rp) n1 n2 (rev urls)
                  (channel_head base_url n1) (channel_head base_url n2)) as Hc.
    unfold channel_head in Hc.
    destruct (feed_loop (items_index rp) n1 _ _),
             (feed_loop (items_index rp) n2 _ _); simpl in *; congruence. }
  destruct (rss_element rp base_url n2) as [doc|e] eqn:E; [|discriminate].
  now rewrite (rss_element_ok _ _ _ _ E).
Qed.

(** After the token copy, the remaining steps succeed when the five
    generated files can be written and the feed can be built. *)
Lemma steps_total (now_utc : datetime) (t t0 : node) :
  _copy_root_tokens rp t = (Ok tt, t0) ->
  (forall n, In n targets -> writable t0 n = true) ->
  is_ok (rss_element rp base_url now_utc) = true ->
  exists t' r, run_steps rp base_url now_utc t t' r /\ after_tokens r = t0.
Proof.
  intros H0 Hw Hrss.
  destruct (write_file_total t0 "robots.txt" (utf8 (robots_text base_url)))
    as [s0 H1]; [apply Hw; simpl; tauto|].
  pose proof (write_file_stays_writable _ _ _ _ H1) as Hs1.
  pose proof (rss_element_clock now_utc now_utc Hrss) as Er.
  destruct (write_file_total s0 "rss.xml" (Xml.document (rss_of now_utc rp base_url)))
    as [s1 H2]; [apply Hs1, Hw; simpl; tauto|].
  pose proof (write_file_stays_writable _ _ _ _ H2) as Hs2.
  destruct (write_file_total s1 "sitemap.xml"
              (Xml.document (sitemap_element s1 base_url now_utc)))
    as [s2 H3]; [apply Hs2, Hs1, Hw; simpl; tauto|].
  pose proof (write_file_stays_writable _ _ _ _ H3) as Hs3.
  assert (Hw2 : forall n, In n targets -> writable s2 n = true).
  { intros n Hn. apply Hs3, Hs2, Hs1, Hw, Hn. }
  destruct (redirects_lines_total s2) as [lines Hl].
  { apply writable_is_dir with "_redirects". apply Hw2. simpl. tauto. }
  destruct (write_file_total s2 "_redirects" (utf8 (redirects_text lines)))
    as [s3 H4]; [apply Hw2; simpl; tauto|].
  pose proof (write_file_stays_writable _ _ _ _ H4) as Hs4.
  destruct (write_file_total s3 "_headers" (utf8 headers_text))
    as [t' H5]; [apply Hs4, Hw2; simpl; tauto|].
  exists t',
    {| after_tokens := t0; after_robots := s0; after_rss := s1;
       after_sitemap := s2; after_redirects := s3; rule_lines := lines |}.
  split; [|reflexivity].
  unfold run_steps. simpl. repeat split; assumption.
Qed.

Lemma sitemap_element_ext (s s' : node) (now_utc : datetime) :
  _collect_internal_pages s base_url = _collect_internal_pages s' base_url ->
  sitemap_element s base_url now_utc = sitemap_element s' base_url now_utc.
Proof. intros H. unfold sitemap_element. now rewrite H. Qed.

(** What a run leaves in the three documents. *)
Lemma run_documents (now_utc : datetime) (t t' : node) (r : run_trace) :
  run_steps rp base_url now_utc t t' r ->
  Fs.child t' "robots.txt" = Some (File (utf8 (robots_text base_url)))
  /\ Fs.child t' "rss.xml" = Some (File (Xml.document (rss_of now_utc rp base_url)))
  /\ Fs.child t' "sitemap.xml"
     = Some (File (Xml.document (sitemap_element (after_rss r) base_url now_utc))).
Proof.
  intros [H0 [H1 [_ [H2 [H3 [_ [H4 H5]]]]]]]. repeat split.
  - rewrite (write_file_child _ _ _ _ "robots.txt" H5). simpl.
    rewrite (write_file_child _ _ _ _ "robots.txt" H4). simpl.
    rewrite (write_file_child _ _ _ _ "robots.txt" H3). simpl.
    rewrite (write_file_child _ _ _ _ "robots.txt" H2). simpl.
    rewrite (write_file_child _ _ _ _ "robots.txt" H1). reflexivity.
  - rewrite (write_file_child _ _ _ _ "rss.xml" H5). simpl.
    rewrite (write_file_child _ _ _ _ "rss.xml" H4). simpl.
    rewrite (write_file_child _ _ _ _ "rss.xml" H3). simpl.
    rewrite (write_file_child _ _ _ _ "rss.xml" H2). reflexivity.
  - rewrite (write_file_child _ _ _ _ "sitemap.xml" H5). simpl.
    rewrite (write_file_child _ _ _ _ "sitemap.xml" H4). simpl.
    rewrite (write_file_child _ _ _ _ "sitemap.xml" H3). reflexivity.
Qed.

(** After a run, the generated files can be written again and every token
    of the documentation directory is present. *)
Lemma run_leaves_ready (now_utc : datetime) (t t' : node) (r : run_trace) :
  run_steps rp base_url now_utc t t' r ->
  (forall n, In n targets -> writable t' n = true)
  /\ (forall e, In e (token_entries rp) -> Fs.exists_ t' (fst e) = true).
Proof.
  intros [H0 [H1 [_ [H2 [H3 [_ [H4 H5]]]]]]]. split.
  - intros n Hn. simpl in Hn.
    rewrite (write_file_writable _ _ _ _ n H5).
    destruct (String.eqb "_headers" n) eqn:E5; [reflexivity|].
    rewrite (write_file_writable _ _ _ _ n H4).
    destruct (String.eqb "_redirects" n) eqn:E4; [reflexivity|].
    rewrite (write_file_writable _ _ _ _ n H3).
    destruct (String.eqb "sitemap.xml" n) eqn:E3; [reflexivity|].
    rewrite (write_file_writable _ _ _ _ n H2).
    destruct (String.eqb "rss.xml" n) eqn:E2; [reflexivity|].
    rewrite (write_file_writable _ _ _ _ n H1).
    destruct (String.eqb "robots.txt" n) eqn:E1; [reflexivity|].
    repeat (destruct Hn as [<-|Hn]; [discriminate|]). destruct Hn.
  - intros e He.
    apply (write_file_grows _ _ _ _ H5), (write_file_grows _ _ _ _ H4),
      (write_file_grows _ _ _ _ H3), (write_file_grows _ _ _ _ H2),
      (write_file_grows _ _ _ _ H1).
    apply copy_root_tokens_inv in H0 as [_ [_ Ht]]. now apply Ht.
Qed.

End SecondRun.

Section Idempotence.

Variable rp : repo.
Variable base_url : string.

(** The second run's collector sees what the first run's saw, provided
    [sitemap.xml] was there before the first run. *)
Lemma second_collect (n1 n2 : datetime) (t t1 t2 : node) (r1 r2 : run_trace) :
  run_steps rp base_url n1 t t1 r1 ->
  run_steps rp base_url n2 t1 t2 r2 ->
  after_tokens r2 = t1 ->
  Fs.exists_ t "sitemap.xml" = true ->
  _collect_internal_pages (after_rss r2) base_url
  = _collect_internal_pages (after_rss r1) base_url.
Proof.
  intros [H0 [H1 [_ [H2 [H3 [_ [H4 H5]]]]]]] [_ [G1 [_ [G2 _]]]] Ht He.
  rewrite Ht in G1.
  apply collect_ext.
  - rewrite (write_file_rglob _ _ "rss.xml" _ eq_refl G2),
      (write_file_rglob _ _ "robots.txt" _ eq_refl G1),
      (write_file_rglob _ _ "_headers" _ eq_refl H5),
      (write_file_rglob _ _ "_redirects" _ eq_refl H4),
      (write_file_rglob _ _ "sitemap.xml" _ eq_refl H3).
    reflexivity.
  - assert (Hs : Fs.exists_ (after_rss r1) "sitemap.xml" = true).
    { apply (write_file_grows _ _ _ _ H2), (write_file_grows _ _ _ _ H1).
      apply copy_root_tokens_inv in H0 as [Hg _]. now apply Hg. }
    assert (Hr : Fs.exists_ (after_rss r1) "robots.txt" = true).
    { apply (write_file_grows _ _ _ _ H2).
      rewrite (write_file_exists _ _ _ _ "robots.txt" H1). reflexivity. }
    assert (Hx : Fs.exists_ (after_rss r1) "rss.xml" = true).
    { rewrite (write_file_exists _ _ _ _ "rss.xml" H2). reflexivity. }
    intros n Hn.
    rewrite (write_file_exists _ _ _ _ n G2), (write_file_exists _ _ _ _ n G1),
      (write_file_exists _ _ _ _ n H5), (write_file_exists _ _ _ _ n H4),
      (write_file_exists _ _ _ _ n H3).
    simpl in Hn.
    repeat (destruct Hn as [<-|Hn];
            [simpl; rewrite ?Hs, ?Hr, ?Hx; reflexivity|]).
    destruct Hn.
Qed.

(** When [sitemap.xml] was not there before the first run, the first run's
    collector does not report it and the second run's reports it and
    otherwise the same URLs. *)
Lemma second_collect_absent (n1 n2 : datetime) (t t1 t2 : node)
      (r1 r2 : run_trace) :
  run_steps rp base_url n1 t t1 r1 ->
  run_steps rp base_url n2 t1 t2 r2 ->
  after_tokens r2 = t1 ->
  Fs.exists_ t "sitemap.xml" = false ->
  ~ In (base_url ++ "/sitemap.xml")
       (_collect_internal_pages (after_rss r1) base_url)
  /\ forall y, In y (_collect_internal_pages (after_rss r2) base_url)
               <-> In y (_collect_internal_pages (after_rss r1) base_url)
                   \/ y = base_url ++ "/sitemap.xml".
Proof.
  intros [H0 [H1 [_ [H2 [H3 [_ [H4 H5]]]]]]] [_ [G1 [_ [G2 _]]]] Ht He.
  rewrite Ht in G1.
  assert (Hrg : Fs.rglob_html (after_rss r2) = Fs.rglob_html (after_rss r1)).
  { rewrite (write_file_rglob _ _ "rss.xml" _ eq_refl G2),
      (write_file_rglob _ _ "robots.txt" _ eq_refl G1),
      (write_file_rglob _ _ "_headers" _ eq_refl H5),
      (write_file_rglob _ _ "_redirects" _ eq_refl H4),
      (write_file_rglob _ _ "sitemap.xml" _ eq_refl H3).
    reflexivity. }
  assert (Hex : forall n,
             Fs.exists_ (after_rss r2) n
             = String.eqb "rss.xml" n
               || (String.eqb "robots.txt" n
                   || (String.eqb "_headers" n
                       || (String.eqb "_redirects" n
                           || (String.eqb "sitemap.xml" n
                               || Fs.exists_ (after_rss r1) n))))).
  { intros n.
    now rewrite (write_file_exists _ _ _ _ n G2), (write_file_exists _ _ _ _ n G1),
      (write_file_exists _ _ _ _ n H5), (write_file_exists _ _ _ _ n H4),
      (write_file_exists _ _ _ _ n H3). }
  assert (Hs : Fs.exists_ (after_rss r1) "sitemap.xml" = false).
  { rewrite (write_file_exists _ _ _ _ "sitemap.xml" H2),
      (write_file_exists _ _ _ _ "sitemap.xml" H1),
      (copy_root_tokens_other rp t _ "sitemap.xml" H0 eq_refl eq_refl), He.
    reflexivity. }
  assert (Hr : Fs.exists_ (after_rss r1) "robots.txt" = true).
  { apply (write_file_grows _ _ _ _ H2).
    rewrite (write_file_exists _ _ _ _ "robots.txt" H1). reflexivity. }
  assert (Hx : Fs.exists_ (after_rss r1) "rss.xml" = true).
  { rewrite (write_file_exists _ _ _ _ "rss.xml" H2). reflexivity. }
  split.
  - intros Hin.
    apply collect_in in Hin as [[_ Heq]|[[p [Hp [_ Heq]]]|[name [Hn [Hn' Heq]]]]];
      apply append_inv_l in Heq.
    + discriminate Heq.
    + injection Heq as Heq.
      destruct (rglob_sound _ p Hp) as [Hne Hm].
      pose proof (as_posix_endswith p ".html" Hne Hm) as Hend.
      rewrite <- Heq in Hend. discriminate Hend.
    + injection Heq as <-. congruence.
  - assert (Hback : forall name,
               In name allow_list -> Fs.exists_ (after_rss r1) name = true ->
               In (base_url ++ "/" ++ name)
                  (_collect_internal_pages (after_rss r1) base_url)).
    { intros name Hn Hn'. apply collect_in. right; right. eauto. }
    intros y. split.
    + intros Hin.
      apply collect_in in Hin as [[Hi ->]|[[p [Hp [Hc ->]]]|[name [Hn [Hn' ->]]]]].
      * left. apply collect_in. left. split; [|reflexivity]. now rewrite Hex in Hi.
      * left. apply collect_in. right; left. exists p. rewrite <- Hrg. auto.
      * rewrite Hex in Hn'. simpl in Hn.
        destruct Hn as [<-|[<-|[<-|[<-|[<-|[<-|[]]]]]]]; simpl in Hn'.
        4: now right.
        all: left; apply Hback; [simpl; tauto|].
        all: first [assumption | exact Hr | exact Hx].
    + intros [Hin| ->]; [|apply collect_in].
      * apply collect_in in Hin
          as [[Hi ->]|[[p [Hp [Hc ->]]]|[name [Hn [Hn' ->]]]]]; apply collect_in.
        -- left. split; [|reflexivity]. rewrite Hex, Hi. reflexivity.
        -- right; left. exists p. rewrite Hrg. auto.
        -- right; right. exists name. split; [exact Hn|]. split; [|reflexivity].
           rewrite Hex, Hn'. now rewrite !orb_true_r.
      * right; right. exists "sitemap.xml". split; [simpl; tauto|].
        split; [now rewrite Hex | reflexivity].
Qed.

End Idempotence.


Section Reproduce.

Variable rp : repo.
Variable base_url : string.

(** A successful run can be followed by another; the trees the two sitemap
    steps read are [s1] and [s2]. *)
Lemma second_run_general (n1 n2 : datetime) (t t1 : node) :
  pipeline rp base_url n1 t = (Ok tt, t1) ->
  exists t2 s1 s2,
    pipeline rp base_url n2 t1 = (Ok tt, t2)
    /\ Fs.child t1 "robots.txt" = Some (File (utf8 (robots_text base_url)))
    /\ Fs.child t2 "robots.txt" = Some (File (utf8 (robots_text base_url)))
    /\ Fs.child t1 "rss.xml" = Some (File (Xml.document (rss_of n1 rp base_url)))
    /\ Fs.child t2 "rss.xml" = Some (File (Xml.document (rss_of n2 rp base_url)))
    /\ Fs.child t1 "sitemap.xml"
       = Some (File (Xml.document (sitemap_element s1 base_url n1)))
    /\ Fs.child t2 "sitemap.xml"
       = Some (File (Xml.document (sitemap_element s2 base_url n2)))
    /\ (Fs.exists_ t "sitemap.xml" = true ->
        _collect_internal_pages s2 base_url = _collect_internal_pages s1 base_url)
    /\ (Fs.exists_ t "sitemap.xml" = false ->
        ~ In (base_url ++ "/sitemap.xml") (_collect_internal_pages s1 base_url)
        /\ forall y, In y (_collect_internal_pages s2 base_url)
                     <-> In y (_collect_internal_pages s1 base_url)
                         \/ y = base_url ++ "/sitemap.xml").
Proof.
  intros Hrun. apply pipeline_inv in Hrun as [r1 S1].
  destruct (run_leaves_ready rp base_url n1 t t1 r1 S1) as [Hw Htok].
  pose proof (copy_root_tokens_noop rp t1 Htok) as Hnoop.
  assert (Hrss : is_ok (rss_element rp base_url n1) = true).
  { destruct S1 as [_ [_ [Hr _]]]. now rewrite Hr. }
  assert (Hrss2 : is_ok (rss_element rp base_url n2) = true).
  { now rewrite (rss_element_clock rp base_url n1 n2 Hrss). }
  destruct (steps_total rp base_url n2 t1 t1 Hnoop Hw Hrss2) as [t2 [r2 [S2 Ht]]].
  exists t2, (after_rss r1), (after_rss r2).
  destruct (run_documents rp base_url n1 t t1 r1 S1) as [D1 [D2 D3]].
  destruct (run_documents rp base_url n2 t1 t2 r2 S2) as [E1 [E2 E3]].
  split; [now apply pipeline_intro with r2|].
  repeat (split; [assumption|]).
  split; intros He.
  - now apply (second_collect rp base_url n1 n2 t t1 t2 r1 r2).
  - now apply (second_collect_absent rp base_url n1 n2 t t1 t2 r1 r2).
Qed.

End Reproduce.

Section Untimed.

Lemma untimed_rss_of (n1 n2 : datetime) (rp : repo) (base_url : string) :
  untimed (rss_of n1 rp base_url) = untimed (rss_of n2 rp base_url).
Proof.
  unfold rss_of. simpl. rewrite !map_map.
  rewrite (map_ext (fun x => untimed (item_for n1 (items_index rp) x))
                   (fun x => untimed (item_for n2 (items_index rp) x)));
    [reflexivity|].
  intros u. reflexivity.
Qed.

Lemma untimed_urlset (d1 d2 : string) (urls : list string) :
  untimed (urlset d1 urls) = untimed (urlset d2 urls).
Proof.
  unfold urlset. simpl. rewrite !map_map. reflexivity.
Qed.

Lemma sitemap_element_urlset (s : node) (base_url : string) (n : datetime) :
  sitemap_element s base_url n
  = urlset (Dt.date_isoformat n) (_collect_internal_pages s base_url).
Proof.
  pose proof (sitemap_children s base_url n) as Hk.
  unfold sitemap_element, urlset in *. simpl in Hk. now rewrite Hk.
Qed.

End Untimed.



(** * Further properties of the script *)

(** ** The base URL *)

Section BaseUrl.

Lemma rev_involutive (s : string) : Str.rev (Str.rev s) = s.
Proof.
  induction s as [|c s IH]; [reflexivity|].
  change (String c s) with (String c EmptyString ++ s) at 1.
  rewrite rev_append, rev_append, IH. reflexivity.
Qed.

Lemma lstrip_by_split (f : ascii -> bool) (s : string) :
  exists dropped, s = dropped ++ Str.lstrip_by f s /\ all_chars f dropped = true.
Proof.
  induction s as [|c s [d [Hs Hd]]]; simpl.
  - now exists EmptyString.
  - destruct (f c) eqn:E.
    + exists (String c d). simpl. split; [now rewrite <- Hs|].
      unfold all_chars in *. simpl. now rewrite E, Hd.
    + now exists EmptyString.
Qed.

Lemma lstrip_by_head (f : ascii -> bool) (s : string) (c : ascii) (r : string) :
  Str.lstrip_by f s = String c r -> f c = false.
Proof.
  induction s as [|x s IH]; simpl; [discriminate|].
  destruct (f x) eqn:E; [exact IH|].
  intros H. injection H as <- _. exact E.
Qed.

Lemma all_chars_rev (f : ascii -> bool) (s : string) :
  all_chars f (Str.rev s) = all_chars f s.
Proof.
  unfold all_chars. induction s as [|c s IH]; [reflexivity|].
  change (String c s) with (String c EmptyString ++ s) at 1.
  rewrite rev_append. simpl.
  assert (Happ : forall a b, forallb f (list_ascii_of_string (a ++ b))
                             = forallb f (list_ascii_of_string a)
                               && forallb f (list_ascii_of_string b)).
  { intros a b. induction a as [|x a IHa]; simpl; [reflexivity|].
    now rewrite IHa, andb_assoc. }
  rewrite Happ, IH. simpl. rewrite andb_true_r. apply andb_comm.
Qed.

Lemma rstrip_by_split (f : ascii -> bool) (s : string) :
  exists dropped, s = Str.rstrip_by f s ++ dropped /\ all_chars f dropped = true.
Proof.
  unfold Str.rstrip_by.
  destruct (lstrip_by_split f (Str.rev s)) as [d [Hs Hd]].
  exists (Str.rev d). split; [|now rewrite all_chars_rev].
  rewrite <- rev_append, <- Hs. now rewrite rev_involutive.
Qed.

Lemma rstrip_by_last (f : ascii -> bool) (s : string) (c : ascii) :
  f c = true -> Str.endswith (Str.rstrip_by f s) (String c EmptyString) = false.
Proof.
  intros Hc. unfold Str.endswith, Str.rstrip_by. rewrite rev_involutive.
  destruct (Str.lstrip_by f (Str.rev s)) as [|x r] eqn:E; [reflexivity|].
  apply lstrip_by_head in E. simpl.
  change (Str.rev (String c EmptyString)) with (String c EmptyString). simpl.
  destruct (ascii_dec c x) as [->|]; [congruence | reflexivity].
Qed.

End BaseUrl.

(** X1. The normalised base URL never ends with a slash; it is the trimmed
    argument with a run of trailing slashes removed, and a blank argument
    gives the empty string. *)
Theorem norm_base_url_no_trailing_slash (u : string) :
  Str.endswith (_norm_base_url u) "/" = false
  /\ (exists slashes,
         Str.strip u = _norm_base_url u ++ slashes
         /\ all_chars is_slash slashes = true)
  /\ (Str.strip u = EmptyString -> _norm_base_url u = EmptyString).
Proof.
  unfold _norm_base_url.
  destruct (Str.strip u) as [|c r] eqn:E; simpl.
  - split; [reflexivity|]. split; [|reflexivity].
    now exists EmptyString.
  - split; [|split; [|discriminate]].
    + unfold Str.rstrip_slash. now apply (rstrip_by_last _ _ "/"%char).
    + unfold Str.rstrip_slash.
      destruct (rstrip_by_split (fun c => Ascii.eqb c "/") (String c r))
        as [d [Hs Hd]].
      exists d. split; [exact Hs | exact Hd].
Qed.

Lemma norm_base_url_no_trailing_slash_witness :
  _norm_base_url "  https://x.org// " = "https://x.org"
  /\ _norm_base_url "   " = EmptyString.
Proof.
  split; [reflexivity|].
  apply (norm_base_url_no_trailing_slash "   "). reflexivity.
Defined.

(** ** What the collector reports *)

(** X2. Every URL the collector reports begins with the base URL and a
    slash, and is the base URL with a slash, or ends in [.html], or is the
    URL of one of the four other artifacts; a reported artifact exists at
    the root. *)
Theorem collected_urls_shape (out_dir : node) (base_url y : string) :
  In y (_collect_internal_pages out_dir base_url) ->
  Str.startswith y (base_url ++ "/") = true
  /\ (y = base_url ++ "/" /\ Fs.exists_ out_dir "index.html" = true
      \/ Str.endswith y ".html" = true
      \/ exists name,
          In name ["rss.xml"; "sitemap.xml"; "robots.txt"; "backlink-feed.xml"]
          /\ Fs.exists_ out_dir name = true /\ y = base_url ++ "/" ++ name).
Proof.
  intros H. apply collect_in in H as [[He ->]|[[p [Hp [Hn ->]]]|[n [Hn [He ->]]]]].
  - split; [|now left].
    unfold Str.startswith. rewrite <- (append_nil_r (base_url ++ "/")) at 2.
    apply prefix_self_app.
  - split.
    + unfold Str.startswith. rewrite <- append_assoc. apply prefix_self_app.
    + right; left. apply rglob_sound in Hp as [Hne Hm].
      rewrite <- append_assoc. apply endswith_app.
      now apply as_posix_endswith.
  - split.
    + unfold Str.startswith. rewrite <- append_assoc. apply prefix_self_app.
    + simpl in Hn. destruct Hn as [<-|[<-|Hn]].
      * right; left. rewrite <- append_assoc. now apply endswith_app.
      * right; left. rewrite <- append_assoc. now apply endswith_app.
      * right; right. exists n. now repeat split.
Qed.

Lemma collected_urls_shape_witness :
  Str.startswith "https://x.org/about.html" ("https://x.org" ++ "/") = true.
Proof.
  apply (collected_urls_shape sample_tree "https://x.org" "https://x.org/about.html").
  rewrite collect_sample. simpl. tauto.
Defined.

(** X3. When the output path is a regular file, or a directory without any
    entry ending in [.html] at any depth and without the four other
    artifacts, the collector returns the empty list and the sitemap has no
    entry. *)
Theorem collect_nothing (out_dir : node) (base_url : string) (now_utc : datetime) :
  Fs.rglob_html out_dir = [] ->
  (forall name,
      In name ["rss.xml"; "sitemap.xml"; "robots.txt"; "backlink-feed.xml"] ->
      Fs.exists_ out_dir name = false) ->
  _collect_internal_pages out_dir base_url = []
  /\ Xml.children (sitemap_element out_dir base_url now_utc) = [].
Proof.
  intros Hr Ha.
  assert (Hnone : forall y, ~ In y (_collect_internal_pages out_dir base_url)).
  { intros y Hy. apply collect_in in Hy as [[He _]|[[p [Hp _]]|[n [Hn [He _]]]]].
    - apply exists_child in He as [c Hc].
      assert (Hin : In ["index.html"] (Fs.rglob_html out_dir)).
      { apply rglob_complete with c; [discriminate | | reflexivity].
        simpl. now rewrite Hc. }
      now rewrite Hr in Hin.
    - now rewrite Hr in Hp.
    - simpl in Hn. destruct Hn as [<-|[<-|Hn]].
      + apply exists_child in He as [c Hc].
        assert (Hin : In ["all.html"] (Fs.rglob_html out_dir)).
        { apply rglob_complete with c; [discriminate | | reflexivity].
          simpl. now rewrite Hc. }
        now rewrite Hr in Hin.
      + apply exists_child in He as [c Hc].
        assert (Hin : In ["about.html"] (Fs.rglob_html out_dir)).
        { apply rglob_complete with c; [discriminate | | reflexivity].
          simpl. now rewrite Hc. }
        now rewrite Hr in Hin.
      + rewrite (Ha n Hn) in He. discriminate. }
  assert (He : _collect_internal_pages out_dir base_url = []).
  { destruct (_collect_internal_pages out_dir base_url) as [|y l]; [reflexivity|].
    exfalso. apply (Hnone y). now left. }
  split; [exact He|]. now rewrite sitemap_children, He.
Qed.

Lemma collect_nothing_witness :
  _collect_internal_pages (Dir [("style.css", File []); ("img", Dir [])])
                          "https://x.org" = []
  /\ _collect_internal_pages (File []) "https://x.org" = [].
Proof.
  split.
  - apply (collect_nothing (Dir [("style.css", File []); ("img", Dir [])])
                           "https://x.org" sample_now); [reflexivity|].
    intros name Hn. simpl in Hn.
    repeat (destruct Hn as [<-|Hn]; [reflexivity|]). destruct Hn.
  - apply (collect_nothing (File []) "https://x.org" sample_now); [reflexivity|].
    intros name _. reflexivity.
Defined.

(** ** What a run leaves alone *)

Section Frame.

Lemma only_changes_refl (S : string -> bool) (t : node) : only_changes S t t.
Proof. now intros n _. Qed.

Lemma only_changes_trans (S : string -> bool) (a b c : node) :
  only_changes S a b -> only_changes S b c -> only_changes S a c.
Proof. intros H1 H2 n Hn. now rewrite (H2 n Hn), (H1 n Hn). Qed.

Lemma only_changes_weaken (S S' : string -> bool) (t t' : node) :
  (forall n, S n = true -> S' n = true) ->
  only_changes S t t' -> only_changes S' t t'.
Proof.
  intros Hs H n Hn. apply H.
  destruct (S n) eqn:E; [|reflexivity]. rewrite (Hs n E) in Hn. discriminate.
Qed.

Lemma keeps_entries_refl (t : node) : keeps_entries t t.
Proof. now intros n c. Qed.

Lemma keeps_entries_trans (a b c : node) :
  keeps_entries a b -> keeps_entries b c -> keeps_entries a c.
Proof. intros H1 H2 n k H. auto. Qed.

(** A write, whatever its outcome, changes no other name. *)
Lemma write_file_frame (name : string) (d : list byte) (t t' : node) (r : result unit) :
  write_file name d t = (r, t') ->
  forall n, n <> name -> Fs.child t' n = Fs.child t n.
Proof.
  intros H n Hn. destruct r as [[]|e].
  - rewrite (write_file_child _ _ _ _ n H).
    destruct (String.eqb_spec name n); [congruence | reflexivity].
  - now rewrite (write_file_raise _ _ _ _ _ H).
Qed.

Lemma touches_only_write (S : string -> bool) (name : string) (d : list byte) :
  S name = true -> touches_only S (write_file name d).
Proof.
  intros Hs t r t' H n Hn. apply (write_file_frame _ _ _ _ _ H).
  intros ->. congruence.
Qed.

Lemma touches_only_ret {A} (S : string -> bool) (a : A) : touches_only S (ret a).
Proof. intros t r t' H. injection H as _ <-. apply only_changes_refl. Qed.

Lemma touches_only_get (S : string -> bool) : touches_only S get.
Proof. intros t r t' H. injection H as _ <-. apply only_changes_refl. Qed.

Lemma touches_only_lift {A} (S : string -> bool) (x : result A) :
  touches_only S (lift x).
Proof. intros t r t' H. injection H as _ <-. apply only_changes_refl. Qed.

Lemma touches_only_bind {A B} (S : string -> bool) (m : M A) (k : A -> M B) :
  touches_only S m -> (forall a, touches_only S (k a)) ->
  touches_only S (bind m k).
Proof.
  intros Hm Hk t r t'. unfold bind.
  destruct (m t) as [[a|e] t1] eqn:E; intros H.
  - eapply only_changes_trans; [eapply Hm; eauto | eapply Hk; eauto].
  - injection H as _ <-. eapply Hm; eauto.
Qed.

Lemma touches_only_for_each {A} (S : string -> bool) (body : A -> M unit)
      (l : list A) :
  (forall x, In x l -> touches_only S (body x)) ->
  touches_only S (for_each l body).
Proof.
  induction l as [|x l IH]; intros H; simpl.
  - apply touches_only_ret.
  - apply touches_only_bind; [apply H; now left|].
    intros _. apply IH. intros y Hy. apply H. now right.
Qed.

Lemma copy_if_missing_any (src : node) (name : string) (t t' : node)
      (r : result unit) :
  _copy_if_missing src name t = (r, t') ->
  keeps_entries t t' /\ forall n, n <> name -> Fs.child t' n = Fs.child t n.
Proof.
  unfold _copy_if_missing, bind, get.
  destruct (Fs.exists_ t name) eqn:E.
  - intros H. injection H as _ <-. split; [apply keeps_entries_refl | reflexivity].
  - destruct src as [d|es].
    + intros H. pose proof (write_file_frame _ _ _ _ _ H) as Hf. split; [|exact Hf].
      intros n c Hc. rewrite Hf; [exact Hc|].
      intros ->. unfold Fs.exists_ in E. now rewrite Hc in E.
    + intros H. assert (Ht : t' = t) by (destruct t; congruence).
      subst t'. split; [apply keeps_entries_refl | reflexivity].
Qed.

Lemma keeps_for_each {A} (body : A -> M unit) (l : list A) :
  (forall x s r s', In x l -> body x s = (r, s') -> keeps_entries s s') ->
  forall t r t', for_each l body t = (r, t') -> keeps_entries t t'.
Proof.
  induction l as [|x l IH]; intros H t r t'; simpl.
  - intros E. injection E as _ <-. apply keeps_entries_refl.
  - unfold bind. destruct (body x t) as [[[]|e] t1] eqn:E; intros Hr.
    + eapply keeps_entries_trans; [eapply H; eauto; now left|].
      eapply IH; eauto. intros y s r' s' Hy. apply H. now right.
    + injection Hr as _ <-. eapply H; eauto. now left.
Qed.

Lemma is_copied_in (rp : repo) (e : string * node) :
  In e (token_entries rp) -> is_copied rp (fst e) = true.
Proof.
  intros H. unfold is_copied. apply mem_in. now apply in_map.
Qed.

Lemma touches_only_tokens (rp : repo) :
  touches_only (is_copied rp) (_copy_root_tokens rp).
Proof.
  intros t r t' H. rewrite copy_root_tokens_unfold in H. revert t r t' H.
  apply touches_only_for_each. intros e He t r t' H n Hn.
  apply copy_if_missing_any in H as [_ Hf]. apply Hf.
  intros ->. rewrite (is_copied_in rp e He) in Hn. discriminate.
Qed.

Lemma touches_only_weaken {A} (S S' : string -> bool) (m : M A) :
  (forall n, S n = true -> S' n = true) -> touches_only S m -> touches_only S' m.
Proof.
  intros Hs Hm t r t' H. eapply only_changes_weaken; [exact Hs|]. eapply Hm; eauto.
Qed.

End Frame.

(** X4. The token copier never overwrites: whether it finishes or raises,
    every entry the output directory had is still there unchanged, and the
    only names it can have added are names of token entries of the
    documentation directory. *)
Theorem copy_root_tokens_never_overwrites
        (rp : repo) (t t' : node) (r : result unit) :
  _copy_root_tokens rp t = (r, t') ->
  keeps_entries t t' /\ only_changes (is_copied rp) t t'.
Proof.
  intros H. split; [|now apply (touches_only_tokens rp t r t')].
  rewrite copy_root_tokens_unfold in H.
  apply (keeps_for_each copy_entry (token_entries rp)) with r; [|exact H].
  intros x s r' s' _ Hb. now apply copy_if_missing_any in Hb.
Qed.

Lemma copy_root_tokens_never_overwrites_witness :
  Fs.child (snd (_copy_root_tokens token_repo
                                   (Dir [("google1234.html", File ["x"%byte])])))
           "google1234.html"
  = Some (File ["x"%byte]).
Proof.
  destruct (copy_root_tokens_never_overwrites
              token_repo (Dir [("google1234.html", File ["x"%byte])])
              (snd (_copy_root_tokens token_repo
                                      (Dir [("google1234.html", File ["x"%byte])])))
              (fst (_copy_root_tokens token_repo
                                      (Dir [("google1234.html", File ["x"%byte])]))))
    as [Hk _]; [apply surjective_pairing|].
  apply Hk. reflexivity.
Defined.

(** X7. A run, whatever its outcome, changes no entry of the output
    directory other than the five generated files and the names of token
    entries of the documentation directory; every other file and every
    subdirectory is left as it was. *)
Theorem pipeline_touches_only_its_files
        (rp : repo) (base_url : string) (now_utc : datetime)
        (t t' : node) (r : result unit) :
  pipeline rp base_url now_utc t = (r, t') ->
  only_changes (fun n => is_generated n || is_copied rp n) t t'.
Proof.
  revert t r t'. unfold pipeline.
  set (S := fun n => is_generated n || is_copied rp n).
  assert (Hg : forall name, is_generated name = true -> S name = true).
  { intros name H. unfold S. now rewrite H. }
  fold (touches_only S
          (_copy_root_tokens rp ;;; _ensure_robots base_url ;;;
           _ensure_rss rp base_url now_utc ;;; _ensure_sitemap base_url now_utc ;;;
           _ensure_netlify_overrides)).
  apply touches_only_bind.
  { apply touches_only_weaken with (is_copied rp); [|apply touches_only_tokens].
    intros n H. unfold S. rewrite H. apply orb_true_r. }
  intros _. apply touches_only_bind.
  { apply touches_only_write. now apply Hg. }
  intros _. apply touches_only_bind.
  { unfold _ensure_rss. apply touches_only_bind; [apply touches_only_lift|].
    intros doc. apply touches_only_write. now apply Hg. }
  intros _. apply touches_only_bind.
  { unfold _ensure_sitemap. apply touches_only_bind; [apply touches_only_get|].
    intros s. apply touches_only_write. now apply Hg. }
  intros _. unfold _ensure_netlify_overrides.
  apply touches_only_bind; [apply touches_only_get|]. intros s.
  apply touches_only_bind; [apply touches_only_lift|]. intros lines.
  apply touches_only_bind; [apply touches_only_write; now apply Hg|].
  intros _. apply touches_only_write. now apply Hg.
Qed.

Lemma pipeline_touches_only_its_files_witness :
  Fs.child (snd (pipeline token_repo "https://x.org" sample_now sample_tree)) "d"
  = Some (Dir [("2026-11-04.html", File [])]).
Proof.
  rewrite (pipeline_touches_only_its_files
             token_repo "https://x.org" sample_now sample_tree
             (snd (pipeline token_repo "https://x.org" sample_now sample_tree))
             (fst (pipeline token_repo "https://x.org" sample_now sample_tree))
             (surjective_pairing _) "d"); reflexivity.
Defined.

(** ** Copied tokens *)

Section CopiedTokens.

Lemma prefix_lower (a b : string) :
  String.prefix a b = true -> String.prefix (Str.lower a) (Str.lower b) = true.
Proof.
  revert a. induction b as [|y b IH]; intros [|x a]; simpl; try congruence.
  destruct (ascii_dec x y) as [->|]; [|discriminate].
  intros H. destruct (ascii_dec (Str.lower_char y) (Str.lower_char y));
    [now apply IH | congruence].
Qed.

Lemma lower_rev (s : string) : Str.lower (Str.rev s) = Str.rev (Str.lower s).
Proof.
  induction s as [|c s IH]; [reflexivity|].
  change (String c s) with (String c EmptyString ++ s).
  rewrite rev_append, !lower_append, rev_append, IH. reflexivity.
Qed.

(** A name the copier's pattern [google*.html] accepts is one the emitter's
    test accepts. *)
Lemma glob_is_google (n : string) :
  glob_google_html n = true -> is_google_html n = true.
Proof.
  unfold glob_google_html, is_google_html, Str.startswith, Str.endswith.
  intros H. apply andb_true_iff in H as [H1 H2]. apply andb_true_iff. split.
  - apply (prefix_lower "google" n H1).
  - rewrite <- lower_rev. apply (prefix_lower (Str.rev ".html") (Str.rev n) H2).
Qed.

Lemma token_entries_in (rp : repo) (e : string * node) :
  In e (token_entries rp) ->
  exists es, docs rp = Some (Dir es) /\ In e es
             /\ (glob_google_html (fst e) = true
                 \/ glob_txt (fst e) = true /\ INDEXNOW_KEY_RE_match (fst e) = true).
Proof.
  unfold token_entries. destruct (docs rp) as [[d|es]|]; try (intros []).
  intros H. exists es. split; [reflexivity|].
  apply in_app_or in H as [H|H].
  - apply filter_In in H as [H1 H2]. auto.
  - apply filter_In in H as [H1 H2]. apply filter_In in H1 as [H1 H3]. auto.
Qed.

Lemma token_is_token_name (rp : repo) (e : string * node) :
  In e (token_entries rp) -> is_token_name (fst e) = true.
Proof.
  intros H. apply token_entries_in in H as [es [_ [_ [H|[_ H]]]]];
    unfold is_token_name.
  - now rewrite (glob_is_google _ H).
  - rewrite H. apply orb_true_r.
Qed.

Lemma token_not_generated (n : string) :
  is_token_name n = true -> is_generated n = false.
Proof.
  intros H. destruct (is_generated n) eqn:E; [|reflexivity].
  unfold is_generated in E. apply mem_in in E. simpl in E.
  repeat (destruct E as [<-|E]; [discriminate|]). destruct E.
Qed.

Lemma nodup_map_filter {A} (f : string * A -> bool) (es : list (string * A)) :
  NoDup (map fst es) -> NoDup (map fst (filter f es)).
Proof.
  induction es as [|[n c] es IH]; simpl; [constructor|].
  intros H. apply NoDup_cons_iff in H as [Hn Hd].
  destruct (f (n, c)); simpl; [|now apply IH].
  constructor; [|now apply IH].
  intros Hin. apply Hn. apply in_map_iff in Hin as [e [He Hin]].
  apply filter_In in Hin as [Hin _]. apply in_map_iff. eauto.
Qed.

Lemma token_names_nodup (rp : repo) (es : list (string * node)) :
  docs rp = Some (Dir es) -> NoDup (map fst es) ->
  NoDup (map fst (token_entries rp)).
Proof.
  intros Hd Hn. unfold token_entries. rewrite Hd, map_app.
  apply NoDup_app.
  - now apply nodup_map_filter.
  - now apply nodup_map_filter, nodup_map_filter.
  - intros n H1 H2.
    apply in_map_iff in H1 as [e1 [<- H1]]. apply filter_In in H1 as [_ Hg].
    apply in_map_iff in H2 as [e2 [He H2]]. apply filter_In in H2 as [_ Hk].
    rewrite He in Hk. apply key_not_google in Hk.
    rewrite (glob_is_google _ Hg) in Hk. discriminate.
Qed.

(** The loop leaves each entry that was missing with the bytes of its
    source. *)
Lemma for_each_copy_bytes (l : list (string * node)) :
  NoDup (map fst l) ->
  forall t t' n d,
    for_each l copy_entry t = (Ok tt, t') ->
    In (n, File d) l -> Fs.exists_ t n = false ->
    Fs.child t' n = Some (File d).
Proof.
  induction l as [|e l IH]; intros Hnd t t' n d H Hin He; [destruct Hin|].
  simpl in Hnd. apply NoDup_cons_iff in Hnd as [Hfresh Hnd].
  simpl in H. apply bind_ok_inv in H as [[] [t1 [H1 H2]]].
  destruct Hin as [->|Hin].
  - unfold copy_entry, _copy_if_missing, bind, get in H1. simpl in H1.
    rewrite He in H1.
    apply (keeps_for_each copy_entry l) with (t := t1) (r := Ok tt); [|exact H2|].
    + intros x s r s' _ Hb. now apply copy_if_missing_any in Hb.
    + rewrite (write_file_child _ _ _ _ n H1), String.eqb_refl. reflexivity.
  - assert (Hne : n <> fst e).
    { intros ->. apply Hfresh. apply in_map_iff. exists (fst e, File d). auto. }
    apply (IH Hnd t1 t' n d H2 Hin).
    unfold copy_entry in H1. apply copy_if_missing_any in H1 as [_ Hf].
    unfold Fs.exists_ in *. now rewrite (Hf n Hne).
Qed.

Lemma child_file_name (t : node) (n : string) (d : list byte) :
  Fs.child t n = Some (File d) -> In n (root_file_names t).
Proof.
  destruct t as [x|es]; simpl; [discriminate|].
  intros H. apply lookup_in in H. now apply file_names_in with d.
Qed.

Lemma rule_not_daily (fn : string) : rule fn <> daily_rule.
Proof.
  intros H. pose proof (f_equal String.length H) as Hl.
  rewrite rule_length in Hl. simpl in Hl. lia.
Qed.

End CopiedTokens.

(** X5. In a documentation directory with distinct names, the token entries
    are the entries named [google*.html] and the [*.txt] entries whose name
    matches the key pattern; after the copier succeeds, each of them that is
    a regular file and was missing from the output directory is there with
    the bytes of its source. *)
Theorem copied_tokens_have_source_bytes
        (rp : repo) (es : list (string * node)) (t t' : node) :
  docs rp = Some (Dir es) -> NoDup (map fst es) ->
  _copy_root_tokens rp t = (Ok tt, t') ->
  (forall e, In e (token_entries rp) <->
             In e es /\ (glob_google_html (fst e)
                         || glob_txt (fst e) && INDEXNOW_KEY_RE_match (fst e)) = true)
  /\ (forall n d, In (n, File d) (token_entries rp) ->
                  Fs.exists_ t n = false ->
                  Fs.child t' n = Some (File d)).
Proof.
  intros Hd Hn H. split.
  - intros e. unfold token_entries. rewrite Hd, in_app_iff, !filter_In.
    rewrite orb_true_iff, andb_true_iff. tauto.
  - intros n d Hin He. rewrite copy_root_tokens_unfold in H.
    apply (for_each_copy_bytes (token_entries rp)) with t; try assumption.
    now apply token_names_nodup with es.
Qed.

Lemma copied_tokens_have_source_bytes_witness :
  Fs.child (snd (_copy_root_tokens token_repo sample_tree)) "google1234.html"
  = Some (File []).
Proof.
  destruct (copied_tokens_have_source_bytes
              token_repo
              [("google1234.html", File []); ("README.md", File [])]
              sample_tree (snd (_copy_root_tokens token_repo sample_tree)))
    as [_ H]; [reflexivity | | reflexivity |].
  - repeat constructor; simpl; intuition discriminate.
  - apply H; [simpl; tauto | reflexivity].
Defined.

(** X6. A token file that a run copies is served by the rules the same run
    writes: when the documentation directory has distinct names and the run
    succeeds, every token entry that is a regular file and was missing from
    the output directory is in the final tree with its source bytes and has
    its self-mapping rule in [_redirects]. *)
Theorem copied_tokens_get_rules
        (rp : repo) (es : list (string * node)) (base_url : string)
        (now_utc : datetime) (t t' : node) :
  docs rp = Some (Dir es) -> NoDup (map fst es) ->
  pipeline rp base_url now_utc t = (Ok tt, t') ->
  exists lines,
    Fs.child t' "_redirects" = Some (File (utf8 (redirects_text lines)))
    /\ forall n d, In (n, File d) (token_entries rp) ->
                   Fs.exists_ t n = false ->
                   Fs.child t' n = Some (File d) /\ In (rule n) lines.
Proof.
  intros Hd Hn Hrun.
  apply pipeline_inv in Hrun as [r [H0 [H1 [_ [H2 [H3 [Hl [H4 H5]]]]]]]].
  exists (rule_lines r). split.
  - rewrite (write_file_child _ _ _ _ "_redirects" H5). simpl.
    rewrite (write_file_child _ _ _ _ "_redirects" H4). reflexivity.
  - intros n d Hin He.
    pose proof (token_is_token_name rp _ Hin) as Htok. simpl in Htok.
    pose proof (token_not_generated n Htok) as Hgen.
    assert (Hneq : forall g, In g targets -> n <> g).
    { intros g Hg ->. unfold is_generated in Hgen.
      apply mem_false in Hgen. contradiction. }
    assert (Hc : Fs.child (after_tokens r) n = Some (File d)).
    { rewrite copy_root_tokens_unfold in H0.
      apply (for_each_copy_bytes (token_entries rp)) with t; try assumption.
      now apply token_names_nodup with es. }
    assert (Hs : Fs.child (after_sitemap r) n = Some (File d)).
    { rewrite (write_file_frame _ _ _ _ _ H3 n); [|apply Hneq; simpl; tauto].
      rewrite (write_file_frame _ _ _ _ _ H2 n); [|apply Hneq; simpl; tauto].
      rewrite (write_file_frame _ _ _ _ _ H1 n); [|apply Hneq; simpl; tauto].
      exact Hc. }
    split.
    + rewrite (write_file_frame _ _ _ _ _ H5 n); [|apply Hneq; simpl; tauto].
      rewrite (write_file_frame _ _ _ _ _ H4 n); [|apply Hneq; simpl; tauto].
      exact Hs.
    + apply redirects_lines_parts in Hl. rewrite Hl.
      apply in_or_app. right. apply in_or_app. right.
      unfold token_part. apply in_map. apply filter_In. split; [|exact Htok].
      apply sorted_in. now apply child_file_name with d.
Qed.

Lemma copied_tokens_get_rules_witness :
  exists lines,
    Fs.child (snd (pipeline token_repo "https://x.org" sample_now sample_tree))
             "_redirects"
    = Some (File (utf8 (redirects_text lines)))
    /\ In (rule "google1234.html") lines.
Proof.
  destruct (copied_tokens_get_rules
              token_repo
              [("google1234.html", File []); ("README.md", File [])]
              "https://x.org" sample_now sample_tree
              (snd (pipeline token_repo "https://x.org" sample_now sample_tree)))
    as [lines [Hr Hl]]; [reflexivity | | vm_compute; reflexivity |].
  - repeat constructor; simpl; intuition discriminate.
  - exists lines. split; [exact Hr|].
    apply (Hl "google1234.html" []); [simpl; tauto | reflexivity].
Defined.

(** ** The rule list as a whole *)

Section RuleList.

Lemma nodup_map_rule (l : list string) : NoDup l -> NoDup (map rule l).
Proof.
  induction 1 as [|x l Hx Hd IH]; simpl; constructor; [|exact IH].
  intros H. apply in_map_iff in H as [y [Hy Hin]].
  apply rule_inj in Hy. now subst y.
Qed.

Lemma must_not_token (fn : string) : In fn must_files -> is_token_name fn = false.
Proof.
  intros H. simpl in H.
  repeat (destruct H as [<-|H]; [reflexivity|]). destruct H.
Qed.

Lemma must_files_nodup : NoDup must_files.
Proof. repeat constructor; simpl; intuition discriminate. Qed.

End RuleList.

(** X8. Every line of the rule list is the daily rule, present only when
    [d] exists, or the self-mapping rule of a name that exists at the root:
    a must-exist name, or a regular file that passes the verification or
    key test.  When the names of the root's files are distinct no line is
    repeated. *)
Theorem rule_lines_sound_and_distinct (t : node) (lines : list string) :
  redirects_lines t = Ok lines ->
  (forall line, In line lines ->
     (line = "/d/* /d/:splat 200" /\ Fs.exists_ t "d" = true)
     \/ exists fn, line = rule fn /\ Fs.exists_ t fn = true
                   /\ (In fn must_files
                       \/ In fn (root_file_names t) /\ is_token_name fn = true))
  /\ (NoDup (root_file_names t) -> NoDup lines).
Proof.
  intros H. apply redirects_lines_parts in H. subst lines. split.
  - intros line Hin.
    apply in_app_or in Hin as [Hin|Hin]; [|apply in_app_or in Hin as [Hin|Hin]].
    + right. unfold must_part in Hin. apply in_map_iff in Hin as [fn [<- Hf]].
      apply filter_In in Hf as [Hf He]. exists fn. auto.
    + left. unfold daily_part in Hin.
      destruct (Fs.exists_ t "d"); [|destruct Hin].
      destruct Hin as [<-|[]]. now split.
    + right. unfold token_part in Hin. apply in_map_iff in Hin as [fn [<- Hf]].
      apply filter_In in Hf as [Hf Ht]. apply (proj1 (sorted_in _ _)) in Hf.
      exists fn. split; [reflexivity|]. split; [now apply root_file_exists|].
      right. now split.
  - intros Hd. apply NoDup_app; [|apply NoDup_app|].
    + unfold must_part. apply nodup_map_rule, NoDup_filter, must_files_nodup.
    + unfold daily_part. destruct (Fs.exists_ t "d"); repeat constructor.
      simpl. tauto.
    + unfold token_part. apply nodup_map_rule, NoDup_filter, sorted_nodup, Hd.
    + intros line H1 H2. unfold daily_part in H1.
      destruct (Fs.exists_ t "d"); [|destruct H1]. destruct H1 as [<-|[]].
      unfold token_part in H2. apply in_map_iff in H2 as [fn [Hf _]].
      now apply (rule_not_daily fn).
    + intros line H1 H2. unfold must_part in H1.
      apply in_map_iff in H1 as [fn [<- Hf]]. apply filter_In in Hf as [Hf _].
      apply in_app_or in H2 as [H2|H2].
      * unfold daily_part in H2. destruct (Fs.exists_ t "d"); [|destruct H2].
        destruct H2 as [H2|[]]. symmetry in H2. now apply (rule_not_daily fn).
      * unfold token_part in H2. apply in_map_iff in H2 as [g [Hg Hin]].
        apply rule_inj in Hg. subst g. apply filter_In in Hin as [_ Ht].
        rewrite (must_not_token fn Hf) in Ht. discriminate.
Qed.

Lemma rule_lines_sound_and_distinct_witness :
  NoDup ["/robots.txt /robots.txt 200"; "/index.html /index.html 200";
         "/d/* /d/:splat 200";
         "/Google123.html /Google123.html 200";
         "/a1b2c3d4e5f6a7b8c9d0e1f2a3b4c5d6.txt /a1b2c3d4e5f6a7b8c9d0e1f2a3b4c5d6.txt 200";
         "/googleXYZ.html /googleXYZ.html 200"].
Proof.
  destruct (rule_lines_sound_and_distinct rules_tree _ redirects_lines_ex) as [_ H].
  apply H. repeat constructor; simpl; intuition discriminate.
Defined.

(** ** A successful run *)

Section Success.

Variable resolve : string -> string.

Lemma main_ok_inv (argv : list string) (out out' : option node) (rp : repo)
      (now_utc : datetime) (msg : string) :
  main resolve argv out rp now_utc = (Ok msg, out') ->
  (3 <= List.length argv)%nat
  /\ Str.startswith (_norm_base_url (nth 2 argv EmptyString)) "http" = true
  /\ msg = "Netlify fix done: " ++ resolve (nth 1 argv EmptyString)
  /\ exists t t', out = Some t /\ out' = Some t'
                  /\ pipeline rp (_norm_base_url (nth 2 argv EmptyString)) now_utc t
                     = (Ok tt, t').
Proof.
  unfold main.
  destruct (Nat.ltb_spec (List.length argv) 3) as [Hl|Hl]; [discriminate|].
  destruct out as [t|]; [|discriminate].
  destruct (Str.startswith (_norm_base_url (nth 2 argv EmptyString)) "http") eqn:Eb;
    simpl; [|discriminate].
  destruct (pipeline rp (_norm_base_url (nth 2 argv EmptyString)) now_utc t)
    as [[[]|e] t'] eqn:Ep; [|discriminate].
  intros H. injection H as <- <-.
  split; [exact Hl|]. split; [reflexivity|]. split; [reflexivity|].
  exists t, t'. auto.
Qed.

(** The steps of a trace, as calls of the script's functions. *)
Lemma run_steps_calls (rp : repo) (base_url : string) (now_utc : datetime)
      (t t' : node) (r : run_trace) :
  run_steps rp base_url now_utc t t' r ->
  before_sitemap rp base_url now_utc t = (Ok tt, after_rss r)
  /\ _ensure_sitemap base_url now_utc (after_rss r) = (Ok tt, after_sitemap r)
  /\ _ensure_netlify_overrides (after_sitemap r) = (Ok tt, t').
Proof.
  intros [H0 [H1 [Hr [H2 [H3 [Hl [H4 H5]]]]]]]. split; [|split].
  - unfold before_sitemap, _ensure_robots, _ensure_rss, _write_text, bind, lift.
    now rewrite H0, H1, Hr, H2.
  - unfold _ensure_sitemap, _write_text, bind, get. exact H3.
  - unfold _ensure_netlify_overrides, _write_text, bind, lift, get.
    rewrite Hl. fold (redirects_text (rule_lines r)). rewrite H4.
    fold headers_text. exact H5.
Qed.

End Success.

(** X9. When [main] ends normally it has passed the three argument checks,
    prints [Netlify fix done:] with the output directory and exits with
    status 0.  The steps before the sitemap took the output directory [t]
    to a tree [s1], the sitemap step took [s1] to [s2] and the emitter took
    [s2] to the final tree, which holds five regular files: [robots.txt]
    with the robots text of the normalised base URL, [rss.xml] with the
    feed, [sitemap.xml] with the sitemap of [s1], [_redirects] with the
    rule lines of [s2], and [_headers] with the header rules. *)
Theorem main_success_leaves_five_files
        (resolve : string -> string) (argv : list string) (out out' : option node)
        (rp : repo) (now_utc : datetime) (msg : string) :
  main resolve argv out rp now_utc = (Ok msg, out') ->
  msg = "Netlify fix done: " ++ resolve (nth 1 argv EmptyString)
  /\ exit_status (fst (main resolve argv out rp now_utc)) = 0
  /\ ~ usage_error argv out
  /\ exists t t' s1 s2 lines,
      out = Some t /\ out' = Some t'
      /\ before_sitemap rp (_norm_base_url (nth 2 argv EmptyString)) now_utc t
         = (Ok tt, s1)
      /\ _ensure_sitemap (_norm_base_url (nth 2 argv EmptyString)) now_utc s1
         = (Ok tt, s2)
      /\ _ensure_netlify_overrides s2 = (Ok tt, t')
      /\ Fs.child t' "robots.txt"
         = Some (File (utf8 (robots_text (_norm_base_url (nth 2 argv EmptyString)))))
      /\ Fs.child t' "rss.xml"
         = Some (File (Xml.document
                         (rss_of now_utc rp (_norm_base_url (nth 2 argv EmptyString)))))
      /\ Fs.child t' "sitemap.xml"
         = Some (File (Xml.document
                         (sitemap_element
                            s1 (_norm_base_url (nth 2 argv EmptyString)) now_utc)))
      /\ redirects_lines s2 = Ok lines
      /\ Fs.child t' "_redirects" = Some (File (utf8 (redirects_text lines)))
      /\ Fs.child t' "_headers" = Some (File (utf8 headers_text)).
Proof.
  intros H. pose proof H as H'. apply main_ok_inv in H' as [Hl [Hb [Hm [t [t' [-> [-> Hp]]]]]]].
  split; [exact Hm|]. split; [now rewrite H|]. split.
  { intros [Hu|[Hu|Hu]]; [lia | discriminate | congruence]. }
  apply pipeline_inv in Hp as [r S].
  destruct (run_documents _ _ _ _ _ _ S) as [D1 [D2 D3]].
  destruct (run_steps_calls _ _ _ _ _ _ S) as [K1 [K2 K3]].
  destruct S as [H0 [H1 [_ [H2 [H3 [Hlines [H4 H5]]]]]]].
  exists t, t', (after_rss r), (after_sitemap r), (rule_lines r).
  split; [reflexivity|]. split; [reflexivity|].
  split; [exact K1|]. split; [exact K2|]. split; [exact K3|].
  split; [exact D1|]. split; [exact D2|]. split; [exact D3|].
  split; [exact Hlines|]. split.
  - rewrite (write_file_child _ _ _ _ "_redirects" H5). simpl.
    rewrite (write_file_child _ _ _ _ "_redirects" H4). reflexivity.
  - rewrite (write_file_child _ _ _ _ "_headers" H5). reflexivity.
Qed.

Lemma main_success_leaves_five_files_witness :
  fst first_run = Ok ("Netlify fix done: " ++ (fun p : string => p) (nth 1 bare_argv EmptyString)).
Proof.
  destruct (main_success_leaves_five_files
              (fun p => p) bare_argv (Some bare_tree) (snd first_run)
              bare_repo sample_now "Netlify fix done: site") as [H _].
  - vm_compute. reflexivity.
  - vm_compute. reflexivity.
Defined.

(** X10. The sitemap and the rules of a successful run always include the
    files the run itself writes first: the sitemap lists
    [base_url/robots.txt] and [base_url/rss.xml], and the rule list has the
    rules of [robots.txt], [sitemap.xml] and [rss.xml], in that order. *)
Theorem run_lists_its_own_files
        (rp : repo) (base_url : string) (now_utc : datetime) (t t' : node) :
  pipeline rp base_url now_utc t = (Ok tt, t') ->
  exists s lines rest,
    Fs.child t' "sitemap.xml"
    = Some (File (Xml.document (sitemap_element s base_url now_utc)))
    /\ In (base_url ++ "/robots.txt") (_collect_internal_pages s base_url)
    /\ In (base_url ++ "/rss.xml") (_collect_internal_pages s base_url)
    /\ Fs.child t' "_redirects" = Some (File (utf8 (redirects_text lines)))
    /\ lines = ("/robots.txt /robots.txt 200" :: "/sitemap.xml /sitemap.xml 200"
                :: "/rss.xml /rss.xml 200" :: rest).
Proof.
  intros Hrun. apply pipeline_inv in Hrun as [r S].
  destruct (run_documents _ _ _ _ _ _ S) as [_ [_ D3]].
  destruct S as [H0 [H1 [_ [H2 [H3 [Hl [H4 H5]]]]]]].
  assert (Er : Fs.exists_ (after_rss r) "robots.txt" = true).
  { apply (write_file_grows _ _ _ _ H2).
    rewrite (write_file_exists _ _ _ _ "robots.txt" H1). reflexivity. }
  assert (Ex : Fs.exists_ (after_rss r) "rss.xml" = true).
  { rewrite (write_file_exists _ _ _ _ "rss.xml" H2). reflexivity. }
  pose proof (write_file_grows _ _ _ _ H3 _ Er) as Er2.
  pose proof (write_file_grows _ _ _ _ H3 _ Ex) as Ex2.
  assert (Es2 : Fs.exists_ (after_sitemap r) "sitemap.xml" = true).
  { rewrite (write_file_exists _ _ _ _ "sitemap.xml" H3). reflexivity. }
  apply redirects_lines_parts in Hl.
  exists (after_rss r), (rule_lines r).
  eexists. split; [exact D3|].
  split; [apply collect_in; right; right; exists "robots.txt"; simpl; auto 10|].
  split; [apply collect_in; right; right; exists "rss.xml"; simpl; auto 10|].
  split.
  - rewrite (write_file_child _ _ _ _ "_redirects" H5). simpl.
    rewrite (write_file_child _ _ _ _ "_redirects" H4). reflexivity.
  - rewrite Hl. unfold must_part, must_files. simpl filter.
    rewrite Er2, Es2, Ex2. simpl. reflexivity.
Qed.

Lemma run_lists_its_own_files_witness :
  exists s,
    In ("https://x.org" ++ "/robots.txt") (_collect_internal_pages s "https://x.org")
    /\ Fs.child (snd (pipeline bare_repo "https://x.org" sample_now bare_tree))
                "sitemap.xml"
       = Some (File (Xml.document (sitemap_element s "https://x.org" sample_now))).
Proof.
  destruct (run_lists_its_own_files
              bare_repo "https://x.org" sample_now bare_tree
              (snd (pipeline bare_repo "https://x.org" sample_now bare_tree)))
    as [s [lines [rest [H1 [H2 _]]]]]; [vm_compute; reflexivity|].
  exists s. split; [exact H2 | exact H1].
Defined.

(** ** The feed as a whole *)

Section FeedShape.

Lemma feed_item_is_ok (enriched : json) (now_utc : datetime) (u : string) :
  is_ok (feed_item enriched now_utc u) = item_ok (record_of enriched u).
Proof.
  rewrite feed_item_meta.
  generalize (record_of enriched u). intros meta.
  unfold feed_item, item_ok, field_or_null, field, text_ok. simpl.
  rewrite String.eqb_refl. simpl.
  destruct meta as [| | | |l|d]; simpl; try reflexivity.
  unfold Js.or_.
  destruct (Js.lookup "title" d) as [[| [|] | n | s | l | l]|]; simpl;
    try reflexivity;
    try (destruct (negb (n =? 0)%Z); simpl; try reflexivity);
    try (destruct s; simpl; try reflexivity);
    try (destruct l; simpl; try reflexivity).
  all: destruct (Js.lookup "summary" d) as [[| [|] | n' | s' | l' | l']|]; simpl;
    try reflexivity;
    try (destruct (negb (n' =? 0)%Z); simpl; try reflexivity);
    try (destruct s'; simpl; try reflexivity);
    try (destruct l'; simpl; try reflexivity).
  all: destruct (Js.lookup "description" d) as [[| [|] | n2 | s2 | l2 | l2]|];
    simpl; try reflexivity;
    try (destruct (negb (n2 =? 0)%Z); simpl; try reflexivity);
    try (destruct s2; simpl; try reflexivity);
    try (destruct l2; simpl; try reflexivity).
Qed.

Lemma feed_item_raises (enriched : json) (now_utc : datetime) (u : string) (e : exn) :
  feed_item enriched now_utc u = Raise e -> e = AttributeError.
Proof.
  rewrite feed_item_meta.
  generalize (record_of enriched u). intros meta.
  unfold feed_item. simpl. rewrite String.eqb_refl. simpl.
  destruct meta as [| | | |l|d]; simpl; try congruence.
  unfold Js.or_.
  destruct (Js.lookup "title" d) as [[| [|] | n | s | l | l]|]; simpl;
    try congruence;
    try (destruct (negb (n =? 0)%Z); simpl; try congruence);
    try (destruct s; simpl; try congruence);
    try (destruct l; simpl; try congruence).
  all: destruct (Js.lookup "summary" d) as [[| [|] | n' | s' | l' | l']|]; simpl;
    try congruence;
    try (destruct (negb (n' =? 0)%Z); simpl; try congruence);
    try (destruct s'; simpl; try congruence);
    try (destruct l'; simpl; try congruence).
  all: destruct (Js.lookup "description" d) as [[| [|] | n2 | s2 | l2 | l2]|];
    simpl; try congruence;
    try (destruct (negb (n2 =? 0)%Z); simpl; try congruence);
    try (destruct s2; simpl; try congruence);
    try (destruct l2; simpl; try congruence).
Qed.

Lemma feed_loop_is_ok (enriched : json) (now_utc : datetime) (us : list string) :
  forall ch,
    is_ok (feed_loop enriched now_utc us ch)
    = forallb (fun u => item_ok (record_of enriched u)) us.
Proof.
  induction us as [|u us IH]; intros ch; simpl; [reflexivity|].
  rewrite <- (feed_item_is_ok enriched now_utc u).
  destruct (feed_item enriched now_utc u); simpl; [apply IH | reflexivity].
Qed.

Lemma feed_loop_raises (enriched : json) (now_utc : datetime) (us : list string) :
  forall ch e, feed_loop enriched now_utc us ch = Raise e -> e = AttributeError.
Proof.
  induction us as [|u us IH]; intros ch e; simpl; [discriminate|].
  destruct (feed_item enriched now_utc u) eqn:E; simpl.
  - apply IH.
  - intros H. injection H as <-. now apply feed_item_raises in E.
Qed.

Lemma forallb_rev {A} (f : A -> bool) (l : list A) :
  forallb f (rev l) = forallb f l.
Proof.
  induction l as [|x l IH]; simpl; [reflexivity|].
  rewrite forallb_app, IH. simpl. rewrite andb_true_r. apply andb_comm.
Qed.

Lemma rss_element_unread (rp : repo) (base_url : string) (now_utc : datetime)
      (e : exn) :
  _read_recent_urls rp 50 = Raise e -> rss_element rp base_url now_utc = Raise e.
Proof. intros H. unfold rss_element. now rewrite H. Qed.

Lemma rss_element_is_ok (rp : repo) (base_url : string) (now_utc : datetime)
      (urls : list string) :
  _read_recent_urls rp 50 = Ok urls ->
  is_ok (rss_element rp base_url now_utc)
  = forallb (fun u => item_ok (record_of (items_index rp) u)) urls.
Proof.
  intros Hr. unfold rss_element. rewrite Hr. simpl. rewrite load_items. simpl.
  rewrite <- forallb_rev.
  rewrite <- (feed_loop_is_ok (items_index rp) now_utc (rev urls)
                              (channel_head base_url now_utc)).
  unfold channel_head. now destruct (feed_loop _ _ _ _).
Qed.

Lemma rss_element_raises (rp : repo) (base_url : string) (now_utc : datetime)
      (urls : list string) (e : exn) :
  _read_recent_urls rp 50 = Ok urls ->
  rss_element rp base_url now_utc = Raise e -> e = AttributeError.
Proof.
  intros Hr. unfold rss_element. rewrite Hr. simpl. rewrite load_items. simpl.
  destruct (feed_loop _ _ _ _) eqn:E; simpl; [discriminate|].
  intros H. injection H as <-. now apply feed_loop_raises in E.
Qed.

End FeedShape.

(** X11. When the log cannot be read the feed is not built and the
    reader's exception propagates.  When the reader returns, the feed is
    built exactly when the record of every returned URL is a dict whose
    title, and whose summary or (the summary being falsy) description, is a
    string or falsy; otherwise building it raises [AttributeError].  A feed
    step that cannot build the feed raises that exception and leaves the
    output directory as it was. *)
Theorem feed_built_iff_records_ok
        (rp : repo) (base_url : string) (now_utc : datetime) :
  (forall e, _read_recent_urls rp 50 = Raise e ->
             rss_element rp base_url now_utc = Raise e)
  /\ (forall urls,
         _read_recent_urls rp 50 = Ok urls ->
         is_ok (rss_element rp base_url now_utc)
         = forallb (fun u => item_ok (record_of (items_index rp) u)) urls
         /\ (forall e, rss_element rp base_url now_utc = Raise e ->
                       e = AttributeError))
  /\ (forall t r t' e,
         rss_element rp base_url now_utc = Raise e ->
         _ensure_rss rp base_url now_utc t = (r, t') ->
         r = Raise e /\ t' = t).
Proof.
  split; [apply rss_element_unread|]. split.
  - intros urls Hr. split; [now apply rss_element_is_ok|].
    intros e. now apply rss_element_raises with urls.
  - intros t r t' e E. unfold _ensure_rss, bind, lift. rewrite E.
    intros H. injection H as <- <-. now split.
Qed.

Lemma feed_built_iff_records_ok_witness :
  _ensure_rss broken_repo "https://x" sample_now sample_tree
  = (Raise AttributeError, sample_tree)
  /\ rss_element {| docs := None; daily_csv := BadLog UnicodeDecodeError;
                    enriched_json := Missing |} "https://x" sample_now
     = Raise UnicodeDecodeError.
Proof.
  split.
  - destruct (feed_built_iff_records_ok broken_repo "https://x" sample_now)
      as [_ [_ H]].
    destruct (H sample_tree
                (fst (_ensure_rss broken_repo "https://x" sample_now sample_tree))
                (snd (_ensure_rss broken_repo "https://x" sample_now sample_tree))
                AttributeError)
      as [Hr Ht]; [reflexivity | apply surjective_pairing |].
    rewrite (surjective_pairing
               (_ensure_rss broken_repo "https://x" sample_now sample_tree)).
    now rewrite Hr, Ht.
  - apply (feed_built_iff_records_ok
             {| docs := None; daily_csv := BadLog UnicodeDecodeError;
                enriched_json := Missing |} "https://x" sample_now).
    reflexivity.
Defined.

(** X12. A built feed has one item per URL the reader returned, never
    more than fifty, a URL logged twice giving two items; each item's guid
    is its link, and every item's pubDate is the channel's lastBuildDate,
    the formatted clock reading of the run; the channel link is the base URL
    with a slash. *)
Theorem feed_shape (rp : repo) (base_url : string) (now_utc : datetime)
        (doc : Element) :
  rss_element rp base_url now_utc = Ok doc ->
  exists urls,
    _read_recent_urls rp 50 = Ok urls
    /\ List.length (feed_items doc) = List.length urls
    /\ (List.length (feed_items doc) <= 50)%nat
    /\ Forall (fun it =>
                 Xml.findtext "guid" it = Xml.findtext "link" it
                 /\ Xml.findtext "pubDate" it = Some (Dt.format_datetime now_utc))
              (feed_items doc)
    /\ channel_text "lastBuildDate" doc = Some (Dt.format_datetime now_utc)
    /\ channel_text "link" doc = Some (base_url ++ "/").
Proof.
  intros H. exists (recent_urls rp 50).
  split; [exact (rss_element_reads now_utc rp base_url doc H)|].
  apply rss_element_ok in H. subst doc.
  rewrite feed_items_rss_of. rewrite length_map, length_rev.
  split; [reflexivity|]. split.
  - pose proof (recent_urls_bounded rp 50). lia.
  - split; [|split; reflexivity].
    apply Forall_forall. intros it Hit. apply in_map_iff in Hit as [u [<- _]].
    split; reflexivity.
Qed.

Lemma feed_shape_witness :
  exists urls,
    _read_recent_urls example_repo 50 = Ok urls
    /\ List.length (feed_items (rss_of sample_now example_repo "https://x"))
       = List.length urls.
Proof.
  destruct (feed_shape example_repo "https://x" sample_now
                       (rss_of sample_now example_repo "https://x") eq_refl)
    as [urls [H1 [H2 _]]].
  exists urls. split; [exact H1 | exact H2].
Defined.

(** X13. When the feed cannot be built a run fails, and [rss.xml],
    [sitemap.xml], [_redirects] and [_headers] are as they were before the
    run; when the run was ready, it fails with the exception of the feed
    (the reader's, or [AttributeError]) after [robots.txt] has been
    written. *)
Theorem run_stops_at_broken_feed
        (rp : repo) (base_url : string) (now_utc : datetime)
        (t t' : node) (r : result unit) (e : exn) :
  rss_element rp base_url now_utc = Raise e ->
  pipeline rp base_url now_utc t = (r, t') ->
  is_ok r = false
  /\ (forall n, In n ["rss.xml"; "sitemap.xml"; "_redirects"; "_headers"] ->
                Fs.child t' n = Fs.child t n)
  /\ (run_ready rp t = true ->
      r = Raise e
      /\ Fs.child t' "robots.txt" = Some (File (utf8 (robots_text base_url)))).
Proof.
  intros E H.
  unfold pipeline, bind in H.
  destruct (_copy_root_tokens rp t) as [[[]|e0] t0] eqn:E0.
  - destruct (_ensure_robots base_url t0) as [[[]|e1] s0] eqn:E1.
    + unfold _ensure_rss, bind, lift in H. rewrite E in H.
      injection H as <- <-. split; [reflexivity|].
      unfold _ensure_robots, _write_text in E1. split.
      * intros n Hn.
        rewrite (write_file_frame _ _ _ _ _ E1 n)
          by (simpl in Hn; intuition (subst; discriminate)).
        apply (touches_only_tokens rp t _ _ E0).
        destruct (is_copied rp n) eqn:Ec; [|reflexivity].
        unfold is_copied in Ec. apply mem_in in Ec.
        apply in_map_iff in Ec as [tok [<- He]].
        apply token_is_token_name, token_not_generated in He.
        unfold is_generated in He. apply mem_false in He.
        exfalso. apply He. simpl in *. tauto.
      * intros _. split; [reflexivity|].
        rewrite (write_file_child _ _ _ _ "robots.txt" E1). reflexivity.
    + injection H as <- <-. split; [reflexivity|].
      unfold _ensure_robots, _write_text in E1.
      rewrite (write_file_raise _ _ _ _ _ E1) in *. split.
      * intros n Hn. apply (touches_only_tokens rp t _ _ E0).
        destruct (is_copied rp n) eqn:Ec; [|reflexivity].
        unfold is_copied in Ec. apply mem_in in Ec.
        apply in_map_iff in Ec as [tok [<- He]].
        apply token_is_token_name, token_not_generated in He.
        unfold is_generated in He. apply mem_false in He.
        exfalso. apply He. simpl in *. tauto.
      * intros Hr. exfalso. unfold run_ready in Hr.
        apply andb_true_iff in Hr as [Hw _]. rewrite forallb_forall in Hw.
        apply copy_root_tokens_inv in E0 as [_ [Hs _]].
        destruct (write_file_total t0 "robots.txt" (utf8 (robots_text base_url)))
          as [x Hx]; [apply Hs, Hw; simpl; tauto|].
        rewrite Hx in E1. discriminate.
  - injection H as <- <-. split; [reflexivity|]. split.
    + intros n Hn. apply (touches_only_tokens rp t _ _ E0).
      destruct (is_copied rp n) eqn:Ec; [|reflexivity].
      unfold is_copied in Ec. apply mem_in in Ec.
      apply in_map_iff in Ec as [tok [<- He]].
      apply token_is_token_name, token_not_generated in He.
      unfold is_generated in He. apply mem_false in He.
      exfalso. apply He. simpl in *. tauto.
    + intros Hr. exfalso. unfold run_ready in Hr.
      apply andb_true_iff in Hr as [Hw Hf]. rewrite forallb_forall in Hw.
      destruct (copy_root_tokens_total rp t) as [x Hx]; [|exact Hf|].
      * apply writable_is_dir with "robots.txt". apply Hw. simpl. tauto.
      * rewrite Hx in E0. discriminate.
Qed.

Lemma run_stops_at_broken_feed_witness :
  pipeline broken_repo "https://x" sample_now sample_tree
  = (Raise AttributeError,
     Dir [("index.html", File []);
          ("d", Dir [("2026-11-04.html", File [])]);
          ("about.html", File []);
          ("robots.txt", File (utf8 (robots_text "https://x")))]).
Proof.
  destruct (run_stops_at_broken_feed
              broken_repo "https://x" sample_now sample_tree
              (snd (pipeline broken_repo "https://x" sample_now sample_tree))
              (fst (pipeline broken_repo "https://x" sample_now sample_tree))
              AttributeError)
    as [_ [_ H]]; [reflexivity | apply surjective_pairing |].
  destruct (H eq_refl) as [Hr _].
  rewrite (surjective_pairing (pipeline broken_repo "https://x" sample_now sample_tree)).
  rewrite Hr. reflexivity.
Defined.

(** X14. A parsed index that is not a dict, or has no [items], or whose
    [items] is not a dict, is treated as empty: when the reader returns, the
    feed is built and every item has its URL as title and description; when
    the reader raises, so does the feed, with the same exception. *)
Theorem odd_index_is_empty (rp : repo) (base_url : string) (now_utc : datetime) :
  Js.isinstance_dict (_load_enriched rp) = false
  \/ (exists d, _load_enriched rp = JDict d /\ Js.lookup "items" d = None)
  \/ (exists d v, _load_enriched rp = JDict d /\ Js.lookup "items" d = Some v
                  /\ Js.isinstance_dict v = false) ->
  (forall urls,
      _read_recent_urls rp 50 = Ok urls ->
      exists doc,
        rss_element rp base_url now_utc = Ok doc
        /\ feed_items doc = map (fun u => item_element u u u now_utc) (rev urls))
  /\ (forall e, _read_recent_urls rp 50 = Raise e ->
                rss_element rp base_url now_utc = Raise e).
Proof.
  intros H. split; [|apply rss_element_unread].
  intros urls Hread.
  assert (Hrec : forall u, record_of (items_index rp) u = JDict []).
  { intros u. unfold items_index.
    destruct H as [H|[[d [-> Hd]]|[d [v [-> [Hd Hv]]]]]].
    - now destruct (_load_enriched rp).
    - now rewrite Hd.
    - rewrite Hd. now destruct v. }
  exists (rss_of now_utc rp base_url). split.
  - apply rss_element_total; [now rewrite Hread|].
    apply Forall_forall. intros u _. now rewrite Hrec.
  - rewrite feed_items_rss_of, (read_ok _ _ _ Hread). apply map_ext. intros u.
    unfold item_for, enrichment_title, enrichment_desc. now rewrite Hrec.
Qed.

Lemma odd_index_is_empty_witness :
  exists doc,
    rss_element {| docs := None; daily_csv := Log example_log;
                   enriched_json := Parsed (JList [JStr "x"]) |}
                "https://x" sample_now = Ok doc
    /\ List.length (feed_items doc) = 3%nat.
Proof.
  destruct (odd_index_is_empty
              {| docs := None; daily_csv := Log example_log;
                 enriched_json := Parsed (JList [JStr "x"]) |}
              "https://x" sample_now) as [H _].
  - left. reflexivity.
  - destruct (H ["https://x/a"; "https://x/b"; "https://x/c"] eq_refl)
      as [doc [H1 H2]].
    exists doc. split; [exact H1|]. now rewrite H2.
Defined.

(** ** The reader at the edges *)

(** X15. On a readable log the reader never reads the first row: its
    result is the same whatever the header row holds, and a log with no
    data row gives the empty list.  When the limit is at least the number of
    logged values the reader returns them all, in log order.  With a
    negative limit the guard holds and the slice [urls[-limit:]] drops the
    oldest [-limit] values. *)
Theorem reader_window (rp : repo) (rows : list (list string)) (limit : Z) :
  daily_csv rp = Log rows ->
  (forall header,
      _read_recent_urls (log_of (header :: tl rows)) limit
      = _read_recent_urls rp limit)
  /\ (tl rows = [] -> _read_recent_urls rp limit = Ok [])
  /\ (Z.of_nat (List.length (logged_urls (tl rows))) <= limit ->
      _read_recent_urls rp limit = Ok (logged_urls (tl rows)))%Z
  /\ (limit < 0 ->
      _read_recent_urls rp limit
      = Ok (skipn (Z.to_nat (- limit)) (logged_urls (tl rows))))%Z.
Proof.
  intros H. rewrite (read_log rp rows limit H).
  rewrite (read_recent_urls_unfold rp rows limit H).
  split; [|split; [|split]].
  - intros header.
    rewrite (read_log (log_of (header :: tl rows)) (header :: tl rows) limit eq_refl).
    now rewrite (read_recent_urls_unfold (log_of (header :: tl rows))
                                         (header :: tl rows) limit eq_refl).
  - intros ->. simpl.
    destruct (limit <? 0)%Z eqn:E; [|reflexivity].
    unfold Py.slice_from_neg.
    destruct (limit =? 0)%Z; [reflexivity|].
    destruct (0 <? limit)%Z; [reflexivity | now destruct (Z.to_nat (- limit))].
  - intros Hl.
    destruct (Z.ltb_spec limit (Z.of_nat (List.length (logged_urls (tl rows)))));
      [lia | reflexivity].
  - intros Hl.
    destruct (Z.ltb_spec limit (Z.of_nat (List.length (logged_urls (tl rows)))));
      [|lia].
    unfold Py.slice_from_neg.
    destruct (Z.eqb_spec limit 0); [lia|].
    destruct (Z.ltb_spec 0 limit); [lia | reflexivity].
Qed.

Lemma reader_window_witness :
  _read_recent_urls (log_of [["https://x/header"]; ["https://x/a"]; ["ftp://x/b"];
                             []; ["  https://x/c "; "note"]]) 50
  = Ok ["https://x/a"; "https://x/c"].
Proof.
  destruct (reader_window
              (log_of [["https://x/header"]; ["https://x/a"]; ["ftp://x/b"];
                       []; ["  https://x/c "; "note"]])
              [["https://x/header"]; ["https://x/a"]; ["ftp://x/b"];
               []; ["  https://x/c "; "note"]] 50 eq_refl)
    as [_ [_ [H _]]].
  apply H. simpl. lia.
Defined.

(** ** Writing a text file *)


